(** * EventSub chat bot: a shallow embedding of [bot.py]

    The development follows the source file top-down: Python's string
    methods, the JSON values produced by [json.loads], the effects of the
    bot (clock, sleeping, HTTP posts, the websocket, printing), then the
    functions of [bot.py] under their own names, and finally the
    properties of the command processor, the outbound limiter and the
    session loop.

    Modelling boundary.
    - Text is ASCII: [str.strip], [str.split], [str.lower], [str.isdigit]
      and [int] are those of Python on strings of code points below 128;
      the statements whose outcome depends on how other characters are
      classed assume [PyStr.isascii], and where a count is read with
      [int] also at most 4300 characters, the most digits [int] accepts.
    - [time.time()] returns a float; clock readings are exact rationals.
    - The outside world answers through an oracle [env] indexed by the
      number of interactions performed so far: every request is answered
      or fails, and the phrase generator returns a phrase.
    - An interrupt from the keyboard is a [KeyboardInterrupt] raised where
      the connection is awaited or read; the cancellation by which
      [asyncio.run] delivers it is not modelled, and the statements about
      what never leaves [run] are made for runs that are not interrupted. *)

From Stdlib Require Import List String Ascii Bool Arith ZArith QArith Qround Lia Lqa.
From Stdlib Require Import DecimalString.
Import ListNotations.

Local Open Scope list_scope.
Local Open Scope string_scope.

(** ** Python string methods *)

Module PyStr.

(** [str.isspace] on one ASCII character: TAB, LF, VT, FF, CR, the four
    separators FS GS RS US, and the space. *)
Definition isspace (c : ascii) : bool :=
  let n := nat_of_ascii c in
  ((9 <=? n)%nat && (n <=? 13)%nat) || ((28 <=? n)%nat && (n <=? 32)%nat).

Definition isdigit_char (c : ascii) : bool :=
  let n := nat_of_ascii c in (48 <=? n)%nat && (n <=? 57)%nat.

Definition lower_char (c : ascii) : ascii :=
  let n := nat_of_ascii c in
  if (65 <=? n)%nat && (n <=? 90)%nat then ascii_of_nat (n + 32) else c.

(** [s.lower()] *)
Fixpoint lower (s : string) : string :=
  match s with
  | EmptyString => EmptyString
  | String c r => String (lower_char c) (lower r)
  end.

(** [s.lstrip()] *)
Fixpoint lstrip (s : string) : string :=
  match s with
  | EmptyString => EmptyString
  | String c r => if isspace c then lstrip r else s
  end.

(** [s.rstrip()] *)
Fixpoint rstrip (s : string) : string :=
  match s with
  | EmptyString => EmptyString
  | String c r =>
      match rstrip r with
      | EmptyString => if isspace c then EmptyString else String c EmptyString
      | r' => String c r'
      end
  end.

(** [s.strip()] *)
Definition strip (s : string) : string := rstrip (lstrip s).

(** [s.lstrip(chars)] for a one-character [chars]. *)
Fixpoint lstrip_char (x : ascii) (s : string) : string :=
  match s with
  | EmptyString => EmptyString
  | String c r => if Ascii.eqb c x then lstrip_char x r else s
  end.

(** [s.startswith(p)] *)
Definition startswith (s p : string) : bool := String.prefix p s.

(** [s[n:]] *)
Fixpoint drop (n : nat) (s : string) : string :=
  match n, s with
  | O, _ => s
  | S _, EmptyString => EmptyString
  | S m, String _ r => drop m r
  end.

(** [s[:n]] *)
Fixpoint take (n : nat) (s : string) : string :=
  match n, s with
  | O, _ => EmptyString
  | S _, EmptyString => EmptyString
  | S m, String c r => String c (take m r)
  end.

(** [s.split()]: the maximal runs of non-whitespace characters.  [cur] is
    the run being read, in order. *)
Fixpoint split_from (cur : string) (s : string) : list string :=
  match s with
  | EmptyString =>
      match cur with EmptyString => [] | _ => [cur] end
  | String c r =>
      if isspace c then
        match cur with
        | EmptyString => split_from EmptyString r
        | _ => cur :: split_from EmptyString r
        end
      else split_from (cur ++ String c EmptyString) r
  end.

Definition split (s : string) : list string := split_from EmptyString s.

Fixpoint all_chars (p : ascii -> bool) (s : string) : bool :=
  match s with
  | EmptyString => true
  | String c r => p c && all_chars p r
  end.

(** [s.isdigit()]: at least one character and all of them digits. *)
Definition isdigit (s : string) : bool :=
  match s with
  | EmptyString => false
  | _ => all_chars isdigit_char s
  end.

(** [int(s)] for a string of digits. *)
Fixpoint int_from (acc : Z) (s : string) : Z :=
  match s with
  | EmptyString => acc
  | String c r => int_from (10 * acc + Z.of_nat (nat_of_ascii c - 48))%Z r
  end.

Definition int (s : string) : Z := int_from 0%Z s.

(** [sep.join(parts)] *)
Definition join (sep : string) (parts : list string) : string :=
  String.concat sep parts.

(** [str(n)] for an integer. *)
Definition of_Z (n : Z) : string := NilEmpty.string_of_int (Z.to_int n).

(** A string is truthy when it is not empty. *)
Definition nonempty (s : string) : bool :=
  match s with EmptyString => false | _ => true end.

(** [s.isascii()]: every character is below 128.  On such strings the
    methods above are those of Python. *)
Definition isascii (s : string) : bool :=
  all_chars (fun c => (nat_of_ascii c <? 128)%nat) s.

End PyStr.

(** ** JSON values and the Python operations applied to them *)

#[local] Set Warnings "-register-all".

(** What [json.loads] returns.  Numbers are integers: no frame field read
    by the bot is fractional. *)
Inductive json : Type :=
| JNull
| JBool (b : bool)
| JNum (n : Z)
| JStr (s : string)
| JArr (items : list json)
| JObj (fields : list (string * json)).

(** The exceptions that reach [run].  [KeyboardInterrupt] is the only one
    that is not an [Exception]. *)
Inductive exn : Type :=
| AttributeError
| KeyError (key : string)
| TypeError
| AssertionError
| JSONDecodeError
| RuntimeError (msg : string)
| RequestException (msg : string)
| TimeoutError
| OSError (msg : string)
| ConnectionClosedOK
| ConnectionClosedError
| KeyboardInterrupt.

(** Outcome of a computation: a value, an exception, or a wait that never
    ends (reading from a socket on which nothing arrives any more). *)
Inductive result (A : Type) : Type :=
| Ok (a : A)
| Raise (e : exn)
| Blocks.
Arguments Ok {A} a.
Arguments Raise {A} e.
Arguments Blocks {A}.

Module Py.

Fixpoint assoc {V : Type} (k : string) (d : list (string * V)) : option V :=
  match d with
  | [] => None
  | (k', v) :: r => if String.eqb k k' then Some v else assoc k r
  end.

(** [d.get(k, default)]; an [AttributeError] when [d] is not a dict. *)
Definition get (d : json) (k : string) (default : json) : result json :=
  match d with
  | JObj fields =>
      Ok (match assoc k fields with Some v => v | None => default end)
  | _ => Raise AttributeError
  end.

(** [d[k]] with a string key. *)
Definition item (d : json) (k : string) : result json :=
  match d with
  | JObj fields =>
      match assoc k fields with Some v => Ok v | None => Raise (KeyError k) end
  | _ => Raise TypeError
  end.

(** Truth value of a JSON value. *)
Definition truthy (v : json) : bool :=
  match v with
  | JNull => false
  | JBool b => b
  | JNum n => negb (Z.eqb n 0)
  | JStr s => PyStr.nonempty s
  | JArr l => match l with [] => false | _ => true end
  | JObj l => match l with [] => false | _ => true end
  end.

(** [v == "literal"] *)
Definition eq_str (v : json) (s : string) : bool :=
  match v with JStr s' => String.eqb s' s | _ => false end.

(** [d.get(k, default)] on a [Dict[str, str]] with a key read from JSON:
    lists and dicts are unhashable. *)
Definition get_str (d : list (string * string)) (k : json) (default : json)
  : result json :=
  match k with
  | JStr s => Ok (match assoc s d with Some v => JStr v | None => default end)
  | JArr _ | JObj _ => Raise TypeError
  | _ => Ok default
  end.

(** The values a [for] loop draws from a JSON value: the items of a list,
    the characters of a string, the keys of a dict. *)
Definition iter (v : json) : result (list json) :=
  match v with
  | JArr items => Ok items
  | JStr s => Ok (map (fun c => JStr (String c EmptyString)) (list_ascii_of_string s))
  | JObj fields => Ok (map (fun kv => JStr (fst kv)) fields)
  | _ => Raise TypeError
  end.

End Py.

(** ** The world and the bot *)

Definition EVENTSUB_WS_URL : string :=
  "wss://eventsub.wss.twitch.tv/ws?keepalive_timeout_seconds=30".

Record Config : Type := {
  client_id : string;
  user_token : string;
  bot_login : string;
  broadcaster_logins : list string
}.

(** The fields of [EventSubBot]. *)
Record bot : Type := {
  cfg : Config;
  bot_user_id : option string;
  broadcaster_ids : list (string * string);
  id_to_login : list (string * string);
  _last_send : Q;
  _send_interval : Q;
  _last_lights : Q
}.

(** [EventSubBot.__init__] *)
Definition __init__ (c : Config) : bot :=
  {| cfg := c; bot_user_id := None; broadcaster_ids := []; id_to_login := [];
     _last_send := 0; _send_interval := 12 # 10; _last_lights := 0 |}.

(** What an HTTP POST comes back with: a response (status, body text,
    whether the body parses as JSON) or a [requests.RequestException]. *)
Inductive answer : Type :=
| Response (status_code : Z) (text : string) (is_json : bool)
| NoResponse (err : string).

(** The three POST requests of the bot, by their bodies.  The headers are
    built from [cfg] and are the same in every request. *)
Inductive request : Type :=
| chat_messages (broadcaster_id : json) (sender_id : string)
    (message : string) (reply_parent_message_id : option json)
| eventsub_subscriptions (sub_type version : string)
    (broadcaster_user_id user_id : string) (session_id : json)
| set_colour (raw_value : string).

(** Everything the bot does that can be seen from outside, in order. *)
Inductive event : Type :=
| Print (fmt : string) (args : list json)
| PrintExn (prefix : string) (e : exn)
| Sleep (seconds : Q)
| Post (req : request) (ans : answer) (done_at : Q)
| GeneratePrize (phrase : string)
| Connect (url : json)
| Close.

(** The answers of the outside world.  The [n]-th interaction of a run
    (a clock reading, a sleep, a request, a frame, a generated phrase)
    takes [elapse n] seconds and, where it has an answer, gets the one at
    index [n].  The two identity lookups of the start-up are answered by
    [get_user_id] and [get_user_ids]. *)
Record env : Type := {
  elapse : nat -> Q;
  http : nat -> answer;
  phrase : nat -> string;
  get_user_id : string -> result string;
  get_user_ids : list string -> result (list (string * string))
}.

Record world : Type := {
  clock : Q;
  tick : nat
}.

(** A computation reads and updates the bot and the world, emits events
    and ends in a [result]. *)
Record out (A : Type) : Type := Out {
  res : result A;
  self_ : bot;
  world_ : world;
  log : list event
}.
Arguments Out {A} res self_ world_ log.
Arguments res {A} o.
Arguments self_ {A} o.
Arguments world_ {A} o.
Arguments log {A} o.

Definition M (A : Type) : Type := bot -> world -> out A.

Definition ret {A} (a : A) : M A := fun b w => Out (Ok a) b w [].

Definition raise {A} (e : exn) : M A := fun b w => Out (Raise e) b w [].

Definition blocks {A} : M A := fun b w => Out Blocks b w [].

Definition bind {A B} (m : M A) (k : A -> M B) : M B :=
  fun b w =>
    match m b w with
    | Out (Ok a) b1 w1 l1 =>
        match k a b1 w1 with
        | Out r b2 w2 l2 => Out r b2 w2 (l1 ++ l2)%list
        end
    | Out (Raise e) b1 w1 l1 => Out (Raise e) b1 w1 l1
    | Out Blocks b1 w1 l1 => Out Blocks b1 w1 l1
    end.

Notation "x <- m ;; k" := (bind m (fun x => k))
  (at level 61, m at next level, right associativity).
Notation "m ;; k" := (bind m (fun _ => k))
  (at level 61, right associativity).

(** [try: m except BaseException] as a value: never raises. *)
Definition try_ {A} (m : M A) : M (result A) :=
  fun b w => match m b w with Out r b1 w1 l1 => Out (Ok r) b1 w1 l1 end.

Definition lift {A} (r : result A) : M A :=
  fun b w => Out r b w [].

Definition emit (e : event) : M unit := fun b w => Out (Ok tt) b w [e].

Definition self : M bot := fun b w => Out (Ok b) b w [].

Definition now_ : M Q := fun b w => Out (Ok (clock w)) b w [].

Definition print (line : string) : M unit := emit (Print line []).

Section Effects.

Variable E : env.

(** One interaction with the outside: time passes, the answer index is
    returned. *)
Definition interact : M nat :=
  fun b w =>
    Out (Ok (tick w)) b
        {| clock := clock w + elapse E (tick w); tick := S (tick w) |} [].

(** [time.time()] *)
Definition time_time : M Q := interact ;; now_.

Definition pass (d : Q) : M unit :=
  fun b w => Out (Ok tt) b {| clock := clock w + d; tick := tick w |} [].

(** [await asyncio.sleep(d)]: at least [d] seconds pass, none when [d] is
    not positive. *)
Definition asyncio_sleep (d : Q) : M unit :=
  emit (Sleep d) ;;
  pass (if Qlt_le_dec 0 d then d else 0) ;;
  interact ;; ret tt.

(** [requests.post] *)
Definition requests_post (req : request) : M answer :=
  n <- interact ;;
  t <- now_ ;;
  emit (Post req (http E n) t) ;;
  ret (http E n).

End Effects.

(** ** The functions of [bot.py] *)

Definition set_self (b : bot) : M unit := fun _ w => Out (Ok tt) b w [].

Definition set_last_send (t : Q) : M unit :=
  b <- self ;;
  set_self {| cfg := cfg b; bot_user_id := bot_user_id b;
              broadcaster_ids := broadcaster_ids b;
              id_to_login := id_to_login b;
              _last_send := t; _send_interval := _send_interval b;
              _last_lights := _last_lights b |}.

Definition set_last_lights (t : Q) : M unit :=
  b <- self ;;
  set_self {| cfg := cfg b; bot_user_id := bot_user_id b;
              broadcaster_ids := broadcaster_ids b;
              id_to_login := id_to_login b;
              _last_send := _last_send b; _send_interval := _send_interval b;
              _last_lights := t |}.

(** [assert self.bot_user_id] *)
Definition assert_bot_user_id : M string :=
  b <- self ;;
  match bot_user_id b with
  | Some id => if PyStr.nonempty id then ret id else raise AssertionError
  | None => raise AssertionError
  end.

(** [extract_plain_text_from_message]: both branches of the test on the
    fragment type append the fragment's text. *)
Fixpoint fragment_texts (frags : list json) : result (list json) :=
  match frags with
  | [] => Ok []
  | f :: r =>
      match Py.get f "type" JNull with
      | Ok _ =>
          match Py.get f "text" (JStr "") with
          | Ok t =>
              match fragment_texts r with
              | Ok ts => Ok (t :: ts)
              | Raise e => Raise e
              | Blocks => Blocks
              end
          | Raise e => Raise e
          | Blocks => Blocks
          end
      | Raise e => Raise e
      | Blocks => Blocks
      end
  end.

(** ["".join(parts)]: a [TypeError] when a part is not a string. *)
Fixpoint join_empty (parts : list json) : result string :=
  match parts with
  | [] => Ok ""
  | JStr s :: r =>
      match join_empty r with
      | Ok t => Ok (s ++ t)
      | Raise e => Raise e
      | Blocks => Blocks
      end
  | _ :: _ => Raise TypeError
  end.

Definition extract_plain_text_from_message (message_obj : json) : result json :=
  match Py.get message_obj "fragments" (JArr []) with
  | Ok frags =>
      match Py.iter frags with
      | Ok fs =>
          match fragment_texts fs with
          | Ok [] =>
              match Py.get message_obj "text" JNull with
              | Ok t => Ok (if Py.truthy t then t else JStr "")
              | Raise e => Raise e
              | Blocks => Blocks
              end
          | Ok parts =>
              match join_empty parts with
              | Ok s => Ok (JStr s)
              | Raise e => Raise e
              | Blocks => Blocks
              end
          | Raise e => Raise e
          | Blocks => Blocks
          end
      | Raise e => Raise e
      | Blocks => Blocks
      end
  | Raise e => Raise e
  | Blocks => Blocks
  end.

Section Bot.

Variable E : env.

(** [generate_prize]: the phrase generator draws from a word list with
    [random]; its answer comes from the oracle. *)
Definition generate_prize : M string :=
  n <- interact E ;;
  emit (GeneratePrize (phrase E n)) ;;
  ret (phrase E n).

(** [set_lights_passthrough] *)
Definition set_lights_passthrough (raw_value : string) : M (bool * string) :=
  r <- requests_post E (set_colour raw_value) ;;
  match r with
  | Response status text _ =>
      if (400 <=? status)%Z
      then ret (false, "HTTP " ++ PyStr.of_Z status ++ ": " ++ PyStr.take 120 text)
      else ret (true, "ok")
  | NoResponse err => ret (false, err)
  end.

(** [send_chat] *)
Definition send_chat (broadcaster_id : json) (sender_id : string)
    (message : string) (reply_parent_message_id : json) : M unit :=
  r <- requests_post E
         (chat_messages broadcaster_id sender_id message
            (if Py.truthy reply_parent_message_id
             then Some reply_parent_message_id else None)) ;;
  match r with
  | Response status text is_json =>
      if (status =? 401)%Z then
        raise (RuntimeError
          "Unauthorized: check user token and scopes (user:read:chat user:write:chat user:bot)")
      else if (400 <=? status)%Z then
        raise (RuntimeError
          ("Send chat failed " ++ PyStr.of_Z status ++ ": " ++ text))
      else if is_json then ret tt else raise JSONDecodeError
  | NoResponse err => raise (RequestException err)
  end.

(** [create_subscription], with the condition the bot always passes. *)
Definition create_subscription (session_id : json) (sub_type : string)
    (broadcaster_user_id user_id : string) : M unit :=
  r <- requests_post E
         (eventsub_subscriptions sub_type "1" broadcaster_user_id user_id
            session_id) ;;
  match r with
  | Response status text is_json =>
      if (status =? 401)%Z then
        raise (RuntimeError
          "Unauthorized to create EventSub subscription; check token/scopes")
      else if (400 <=? status)%Z then
        raise (RuntimeError
          ("Subscription create failed " ++ PyStr.of_Z status ++ ": " ++ text))
      else if is_json then ret tt else raise JSONDecodeError
  | NoResponse err => raise (RequestException err)
  end.

(** [EventSubBot._reply] *)
Definition _reply (msg : string) (reply_to : json) (broadcaster_id : json)
  : M unit :=
  now <- time_time E ;;
  b <- self ;;
  (if Qlt_le_dec (now - _last_send b) (_send_interval b)
   then asyncio_sleep E (_send_interval b - (now - _last_send b))
   else ret tt) ;;
  sender <- assert_bot_user_id ;;
  send_chat broadcaster_id sender msg reply_to ;;
  t <- time_time E ;;
  set_last_send t.

(** [[generate_prize() for _ in range(count)]] *)
Fixpoint prizes_ (count : nat) : M (list string) :=
  match count with
  | O => ret []
  | S n => p <- generate_prize ;; ps <- prizes_ n ;; ret (p :: ps)
  end.

(** The recipient and the requested count of [!prize], from the words of
    the command and the default recipient. *)
Definition prize_args (parts : list string) (recipient : string)
  : string * Z :=
  match parts with
  | _ :: p1 :: more =>
      if PyStr.isdigit p1 then (recipient, PyStr.int p1)
      else
        (let r := PyStr.lstrip_char "@" p1 in
         if PyStr.nonempty r then r else recipient,
         match more with
         | p2 :: _ => if PyStr.isdigit p2 then PyStr.int p2 else 1%Z
         | [] => 1%Z
         end)
  | _ => (recipient, 1%Z)
  end.

(** [max(1, min(5, count))] *)
Definition clamp (count : Z) : Z := Z.max 1 (Z.min 5 count).

Definition prize_message (recipient : string) (count : Z)
    (prizes : list string) : string :=
  if (count =? 1)%Z
  then recipient ++ " receives a prize: " ++ nth 0 prizes ""
  else recipient ++ " receives prizes: " ++ PyStr.join "; " prizes.

Definition cooldown_message (remaining : Q) : string :=
  let mins := Qfloor (remaining / 60) in
  let secs := Qfloor (remaining - 60 * inject_Z mins) in
  "Lights cooldown: try again in " ++ PyStr.of_Z mins ++ "m "
    ++ PyStr.of_Z secs ++ "s".

(** [EventSubBot._commands] *)
Definition _commands (text : option string) (reply_to : json)
    (broadcaster_id : json) (chatter : option string) : M unit :=
  let t := PyStr.strip (match text with Some s => s | None => "" end) in
  if negb (PyStr.startswith t "!") then ret tt else
  let lower := PyStr.lower t in
  if String.eqb lower "!hello" then
    _reply "Hey there! o/" reply_to broadcaster_id
  else if PyStr.startswith lower "!echo " then
    _reply (PyStr.drop 6 t) reply_to broadcaster_id
  else if PyStr.startswith lower "!lights" then
    let arg := PyStr.strip (PyStr.drop (String.length "!lights") t) in
    if negb (PyStr.nonempty arg) then
      _reply "Usage: !lights <colour name or #hex>" reply_to broadcaster_id
    else
      let cooldown := 300 in
      now <- time_time E ;;
      b <- self ;;
      let remaining := cooldown - (now - _last_lights b) in
      if Qlt_le_dec 0 remaining then
        _reply (cooldown_message remaining) reply_to broadcaster_id
      else
        r <- set_lights_passthrough arg ;;
        if fst r then
          set_last_lights now ;;
          _reply ("Lights set to " ++ arg) reply_to broadcaster_id
        else
          _reply ("Lights error: " ++ snd r) reply_to broadcaster_id
  else if String.eqb lower "!help" then
    _reply "Commands: !hello, !echo <text>, !prize" reply_to broadcaster_id
  else if PyStr.startswith lower "!prize" then
    let parts := PyStr.split t in
    let recipient :=
      match chatter with
      | Some c => if PyStr.nonempty c then c else "someone"
      | None => "someone"
      end in
    let a := prize_args parts recipient in
    let count := clamp (snd a) in
    prizes <- prizes_ (Z.to_nat count) ;;
    _reply (prize_message (fst a) count prizes) reply_to broadcaster_id
  else ret tt.

(** The values of an event that [_commands] receives, at its annotated
    types.  A text that is not a string makes [(text or "").strip()] raise;
    a chatter name that is true and not a string is outside
    [Optional[str]] and is refused here with a [TypeError]. *)
Definition text_arg (text : json) : M (option string) :=
  match text with
  | JStr s => ret (Some s)
  | _ => raise AttributeError
  end.

Definition chatter_arg (chatter : json) : M (option string) :=
  match chatter with
  | JStr s => ret (Some s)
  | _ => if Py.truthy chatter then raise TypeError else ret None
  end.

(** [EventSubBot._handle_notification] *)
Definition _handle_notification (payload : json) : M unit :=
  sub <- lift (Py.get payload "subscription" (JObj [])) ;;
  typ <- lift (Py.get sub "type" JNull) ;;
  event <- lift (Py.get payload "event" (JObj [])) ;;
  if Py.eq_str typ "channel.chat.message" then
    b_id <- lift (Py.get event "broadcaster_user_id" JNull) ;;
    message <- lift (Py.get event "message" (JObj [])) ;;
    text <- lift (extract_plain_text_from_message message) ;;
    name <- lift (Py.get event "chatter_user_name" JNull) ;;
    chatter <- (if Py.truthy name then ret name
                else lift (Py.get event "chatter_user_login" JNull)) ;;
    message_id <- lift (Py.get event "message_id" JNull) ;;
    b <- self ;;
    channel_login <- lift (Py.get_str (id_to_login b) b_id b_id) ;;
    emit (Print "[{}] <{}> {}" [channel_login; chatter; text]) ;;
    text' <- text_arg text ;;
    chatter' <- chatter_arg chatter ;;
    _commands text' message_id b_id chatter'
  else ret tt.

(** A frame as it comes off the socket: JSON text, given by its value,
    or text that [json.loads] rejects. *)
Inductive raw_frame : Type :=
| RawJson (msg : json)
| RawText (raw : string).

(** [msg.get("metadata", {}).get("message_type") or msg.get("message_type")] *)
Definition message_type (msg : json) : result json :=
  match Py.get msg "metadata" (JObj []) with
  | Ok m =>
      match Py.get m "message_type" JNull with
      | Ok mt => if Py.truthy mt then Ok mt else Py.get msg "message_type" JNull
      | Raise e => Raise e
      | Blocks => Blocks
      end
  | Raise e => Raise e
  | Blocks => Blocks
  end.

(** [EventSubBot._handle_message] *)
Definition _handle_message (raw : raw_frame) : M unit :=
  match raw with
  | RawText r => emit (Print "Non-JSON frame: {}" [JStr (PyStr.take 80 r)])
  | RawJson msg =>
      mtype <- lift (message_type msg) ;;
      if Py.eq_str mtype "session_keepalive" then ret tt
      else if Py.eq_str mtype "session_reconnect" then
        print "Reconnect hint received"
      else if Py.eq_str mtype "notification" then
        payload <- lift (Py.get msg "payload" (JObj [])) ;;
        _handle_notification payload
      else if Py.eq_str mtype "revocation" then
        emit (Print "Subscription revoked: {}" [msg])
      else ret tt
  end.

(** The [for login, bid in self.broadcaster_ids.items()] loop of
    [_on_connected]. *)
Fixpoint subscribe_all (session_id : json) (user_id : string)
    (ids : list (string * string)) : M unit :=
  match ids with
  | [] => ret tt
  | (login, bid) :: r =>
      create_subscription session_id "channel.chat.message" bid user_id ;;
      emit (Print "Subscribed: channel.chat.message for {} ({})"
              [JStr login; JStr bid]) ;;
      subscribe_all session_id user_id r
  end.

(** How a connection ends once its frames are read: closed normally,
    closed abnormally, nothing arrives any more, or the process is
    interrupted from the keyboard. *)
Inductive conn_end : Type :=
| ClosedOK
| ClosedError
| Silent
| Interrupt.

(** One connection attempt as the server side plays it: whether the
    connection is refused, the frames it delivers, and how it ends. *)
Record connection : Type := {
  refused : option exn;
  incoming : list raw_frame;
  ending : conn_end
}.

(** [await asyncio.wait_for(ws.recv(), timeout=10)] when no frame is left:
    it always raises. *)
Definition recv_nothing {A} (e : conn_end) : M A :=
  match e with
  | ClosedOK => interact E ;; raise ConnectionClosedOK
  | ClosedError => interact E ;; raise ConnectionClosedError
  | Silent => pass 10 ;; interact E ;; raise TimeoutError
  | Interrupt => raise KeyboardInterrupt
  end.

(** [EventSubBot._on_connected]: returns the next URL and the frames not
    yet read. *)
Fixpoint _on_connected (frames : list raw_frame) (e : conn_end)
  : M (json * list raw_frame) :=
  match frames with
  | [] => recv_nothing e
  | raw :: rest =>
      interact E ;;
      msg <- (match raw with
              | RawJson j => ret j
              | RawText _ => raise JSONDecodeError
              end) ;;
      mtype <- lift (message_type msg) ;;
      if Py.eq_str mtype "session_welcome" then
        payload <- lift (Py.item msg "payload") ;;
        session <- lift (Py.item payload "session") ;;
        session_id <- lift (Py.item session "id") ;;
        keepalive <- lift (Py.get session "keepalive_timeout_seconds" JNull) ;;
        emit (Print "Welcome. session_id={} keepalive={}" [session_id; keepalive]) ;;
        user_id <- assert_bot_user_id ;;
        b <- self ;;
        subscribe_all session_id user_id (broadcaster_ids b) ;;
        ret (JStr EVENTSUB_WS_URL, rest)
      else if Py.eq_str mtype "session_reconnect" then
        payload <- lift (Py.item msg "payload") ;;
        session <- lift (Py.item payload "session") ;;
        reconnect_url <- lift (Py.item session "reconnect_url") ;;
        emit (Print "Server requested reconnect to: {}" [reconnect_url]) ;;
        ret (reconnect_url, rest)
      else _on_connected rest e
  end.

(** The end of [async for raw in ws]: a normal closure ends the loop, an
    abnormal one raises, and on a silent socket the loop waits for ever. *)
Definition receive_end (e : conn_end) : M unit :=
  match e with
  | ClosedOK => interact E ;; ret tt
  | ClosedError => interact E ;; raise ConnectionClosedError
  | Silent => blocks
  | Interrupt => raise KeyboardInterrupt
  end.

(** [async for raw in ws: await self._handle_message(raw)] *)
Fixpoint receive_loop (frames : list raw_frame) (e : conn_end) : M unit :=
  match frames with
  | [] => receive_end e
  | raw :: rest =>
      interact E ;;
      _handle_message raw ;;
      receive_loop rest e
  end.

(** [websockets.connect(url, ping_interval=None)] *)
Definition websockets_connect (c : connection) (url : json) : M unit :=
  interact E ;;
  emit (Connect url) ;;
  match url with
  | JStr _ =>
      match refused c with
      | Some e => raise e
      | None => ret tt
      end
  | _ => raise TypeError
  end.

(** The body of the [try] in [run]: one connection from [connect] to the
    exit of the [async with] block.  It returns the value of the variable
    [url] at that exit together with the way the block was left. *)
Definition session (c : connection) (url : json) : M (json * result unit) :=
  opened <- try_ (websockets_connect c url) ;;
  match opened with
  | Ok _ =>
      h <- try_ (_on_connected (incoming c) (ending c)) ;;
      match h with
      | Ok (url', rest) =>
          r <- try_ (receive_loop rest (ending c)) ;;
          match r with
          | Blocks => ret (url', Blocks)
          | _ => emit Close ;; ret (url', r)
          end
      | Raise e => emit Close ;; ret (url, Raise e)
      | Blocks => ret (url, Blocks)
      end
  | Raise e => ret (url, Raise e)
  | Blocks => ret (url, Blocks)
  end.

(** How the model of [run] ends: [run] returned, the process waits on a
    silent socket for ever, or the script of connections is used up while
    the loop is still going. *)
Inductive run_end : Type :=
| Returned
| Waiting
| StillRunning (url : json).

(** The [while True] loop of [run], against a script of connections. *)
Fixpoint run_loop (script : list connection) (url : json) : M run_end :=
  match script with
  | [] => ret (StillRunning url)
  | c :: script' =>
      s <- session c url ;;
      match snd s with
      | Ok _ => run_loop script' (fst s)
      | Raise ConnectionClosedError =>
          emit (PrintExn "WebSocket closed: {}. Reconnecting..." ConnectionClosedError) ;;
          asyncio_sleep E 2 ;;
          run_loop script' (fst s)
      | Raise KeyboardInterrupt =>
          print "Shutting down..." ;;
          ret Returned
      | Raise e =>
          emit (PrintExn "Error: {}" e) ;;
          asyncio_sleep E 2 ;;
          run_loop script' (fst s)
      | Blocks => ret Waiting
      end
  end.

Fixpoint print_broadcasters (ids : list (string * string)) : M unit :=
  match ids with
  | [] => ret tt
  | (login, uid) :: r =>
      emit (Print "  {} -> {}" [JStr login; JStr uid]) ;;
      print_broadcasters r
  end.

(** [{uid: login for login, uid in ids.items()}]: a later entry replaces
    an earlier one with the same id. *)
Definition invert (ids : list (string * string)) : list (string * string) :=
  rev (map (fun p => (snd p, fst p)) ids).

Definition set_bot_user_id (uid : string) : M unit :=
  b <- self ;;
  set_self {| cfg := cfg b; bot_user_id := Some uid;
              broadcaster_ids := broadcaster_ids b;
              id_to_login := id_to_login b;
              _last_send := _last_send b; _send_interval := _send_interval b;
              _last_lights := _last_lights b |}.

Definition set_broadcaster_ids (ids : list (string * string)) : M unit :=
  b <- self ;;
  set_self {| cfg := cfg b; bot_user_id := bot_user_id b;
              broadcaster_ids := ids;
              id_to_login := id_to_login b;
              _last_send := _last_send b; _send_interval := _send_interval b;
              _last_lights := _last_lights b |}.

Definition set_id_to_login (d : list (string * string)) : M unit :=
  b <- self ;;
  set_self {| cfg := cfg b; bot_user_id := bot_user_id b;
              broadcaster_ids := broadcaster_ids b;
              id_to_login := d;
              _last_send := _last_send b; _send_interval := _send_interval b;
              _last_lights := _last_lights b |}.

(** [EventSubBot.run] *)
Definition run (script : list connection) : M run_end :=
  b <- self ;;
  interact E ;;
  uid <- lift (get_user_id E (bot_login (cfg b))) ;;
  set_bot_user_id uid ;;
  interact E ;;
  ids <- lift (get_user_ids E (broadcaster_logins (cfg b))) ;;
  set_broadcaster_ids ids ;;
  set_id_to_login (invert ids) ;;
  emit (Print "Bot {} -> {}" [JStr (bot_login (cfg b)); JStr uid]) ;;
  print "Broadcasters:" ;;
  print_broadcasters ids ;;
  run_loop script (JStr EVENTSUB_WS_URL).

End Bot.

(** ** What is read off a log *)

(** The chat messages posted, in order, with the time each post was done. *)
Fixpoint chat_posts (l : list event) : list (string * Q) :=
  match l with
  | [] => []
  | Post (chat_messages _ _ m _) _ t :: r => (m, t) :: chat_posts r
  | _ :: r => chat_posts r
  end.

Definition sent (l : list event) : list string := map fst (chat_posts l).

Definition send_times (l : list event) : list Q := map snd (chat_posts l).

(** The values handed to the lighting service, in order. *)
Fixpoint lights_calls (l : list event) : list string :=
  match l with
  | [] => []
  | Post (set_colour v) _ _ :: r => v :: lights_calls r
  | _ :: r => lights_calls r
  end.

(** The phrases generated, in order. *)
Fixpoint phrases (l : list event) : list string :=
  match l with
  | [] => []
  | GeneratePrize p :: r => p :: phrases r
  | _ :: r => phrases r
  end.

(** The URLs of the connection attempts, in order. *)
Fixpoint connects (l : list event) : list json :=
  match l with
  | [] => []
  | Connect u :: r => u :: connects r
  | _ :: r => connects r
  end.

(** The subscriptions created, in order: broadcaster and session id. *)
Fixpoint subscriptions (l : list event) : list (string * json) :=
  match l with
  | [] => []
  | Post (eventsub_subscriptions _ _ bid _ sid) _ _ :: r =>
      (bid, sid) :: subscriptions r
  | _ :: r => subscriptions r
  end.

(** The bot can send: [assert self.bot_user_id] passes. *)
Definition ready (b : bot) : bool :=
  match bot_user_id b with
  | Some id => PyStr.nonempty id
  | None => false
  end.

(** The tests of the [if]/[elif] chain of [_commands], on the lowered
    text: the commands the bot recognises. *)
Definition recognized (lower : string) : bool :=
  String.eqb lower "!hello"
  || PyStr.startswith lower "!echo "
  || PyStr.startswith lower "!lights"
  || String.eqb lower "!help"
  || PyStr.startswith lower "!prize".

(** [wp m Q b w]: the outcome of [m] from bot [b] and world [w]
    satisfies [Q]. *)
Definition wp {A} (m : M A)
    (Q : result A -> bot -> world -> list event -> Prop)
    (b : bot) (w : world) : Prop :=
  match m b w with
  | Out r b' w' l => Q r b' w' l
  end.

(** A fragment of a rich-text message as the event service sends it: a
    dict whose ["text"], when present, is a string. *)
Definition is_fragment (f : json) : bool :=
  match f with
  | JObj fields =>
      match Py.assoc "text" fields with
      | None | Some (JStr _) => true
      | Some _ => false
      end
  | _ => false
  end.

(** The text a fragment carries, empty when it has none. *)
Definition fragment_text (f : json) : string :=
  match f with
  | JObj fields =>
      match Py.assoc "text" fields with
      | Some (JStr s) => s
      | _ => ""
      end
  | _ => ""
  end.

(** [message_obj.get("text") or ""] on the fields of a message. *)
Definition text_or_empty (fields : list (string * json)) : json :=
  match Py.assoc "text" fields with
  | Some t => if Py.truthy t then t else JStr ""
  | None => JStr ""
  end.

(** The world after one interaction. *)
Definition advance (E : env) (w : world) : world :=
  {| clock := clock w + elapse E (tick w); tick := S (tick w) |}.

(** What [send_chat] makes of the answer to its request. *)
Definition chat_result (a : answer) : result unit :=
  match a with
  | Response status text is_json =>
      if (status =? 401)%Z then
        Raise (RuntimeError
          "Unauthorized: check user token and scopes (user:read:chat user:write:chat user:bot)")
      else if (400 <=? status)%Z then
        Raise (RuntimeError
          ("Send chat failed " ++ PyStr.of_Z status ++ ": " ++ text))
      else if is_json then Ok tt else Raise JSONDecodeError
  | NoResponse err => Raise (RequestException err)
  end.

(** What [create_subscription] makes of the answer to its request. *)
Definition subscription_result (a : answer) : result unit :=
  match a with
  | Response status text is_json =>
      if (status =? 401)%Z then
        Raise (RuntimeError
          "Unauthorized to create EventSub subscription; check token/scopes")
      else if (400 <=? status)%Z then
        Raise (RuntimeError
          ("Subscription create failed " ++ PyStr.of_Z status ++ ": " ++ text))
      else if is_json then Ok tt else Raise JSONDecodeError
  | NoResponse err => Raise (RequestException err)
  end.

(** The [reply_parent_message_id] of a request body: present when true. *)
Definition reply_parent (reply_to : json) : option json :=
  if Py.truthy reply_to then Some reply_to else None.

Definition with_last_send (b : bot) (t : Q) : bot :=
  {| cfg := cfg b; bot_user_id := bot_user_id b;
     broadcaster_ids := broadcaster_ids b; id_to_login := id_to_login b;
     _last_send := t; _send_interval := _send_interval b;
     _last_lights := _last_lights b |}.

Definition with_last_lights (b : bot) (t : Q) : bot :=
  {| cfg := cfg b; bot_user_id := bot_user_id b;
     broadcaster_ids := broadcaster_ids b; id_to_login := id_to_login b;
     _last_send := _last_send b; _send_interval := _send_interval b;
     _last_lights := t |}.

(** The first three lines of [_reply]: the clock is read and, when the
    last send is less than the interval away, the remainder is slept. *)
Definition reply_wait (E : env) (b : bot) (w : world) : list event * world :=
  let w1 := advance E w in
  if Qlt_le_dec (clock w1 - _last_send b) (_send_interval b) then
    let d := _send_interval b - (clock w1 - _last_send b) in
    ([Sleep d],
     advance E {| clock := clock w1 + (if Qlt_le_dec 0 d then d else 0);
                  tick := tick w1 |})
  else ([], w1).

(** The world after [n] interactions. *)
Fixpoint advance_n (E : env) (n : nat) (w : world) : world :=
  match n with
  | O => w
  | S k => advance_n E k (advance E w)
  end.

(** The phrases that [n] calls of the generator return from world [w]. *)
Definition drawn (E : env) (w : world) (n : nat) : list string :=
  map (phrase E) (seq (tick w) n).


(** What [set_lights_passthrough] returns for an answer. *)
Definition lights_result (a : answer) : bool * string :=
  match a with
  | Response status text _ =>
      if (400 <=? status)%Z
      then (false, "HTTP " ++ PyStr.of_Z status ++ ": " ++ PyStr.take 120 text)
      else (true, "ok")
  | NoResponse err => (false, err)
  end.

(** ** Sample inputs *)

(** A world in which every interaction takes a tenth of a second, every
    request is answered 200 and every login resolves. *)
Definition calm : env :=
  {| elapse := fun _ => 1 # 10;
     http := fun _ => Response 200 "{}" true;
     phrase := fun _ => "Golden Banjo";
     get_user_id := fun _ => Ok "42";
     get_user_ids := fun logins => Ok (map (fun l => (l, "id_" ++ l)) logins) |}.

Definition sample_config : Config :=
  {| client_id := "cid"; user_token := "tok"; bot_login := "bot";
     broadcaster_logins := ["alice"] |}.

(** The bot as [run] leaves it after the start-up lookups. *)
Definition sample_bot : bot :=
  {| cfg := sample_config; bot_user_id := Some "42";
     broadcaster_ids := [("alice", "id_alice")];
     id_to_login := [("id_alice", "alice")];
     _last_send := 0; _send_interval := 12 # 10; _last_lights := 0 |}.

Definition sample_world : world := {| clock := 1000; tick := 0 |}.

(** ** Invariants of a run *)

(** [m] keeps the invariant [I] of the bot, the world and the log so far:
    from a state in [I] it ends in [I] when it returns, in [W e] when it
    raises [e], in [B] when it waits for ever. *)
Definition safe (I : bot -> world -> list event -> Prop)
    (W : exn -> bot -> world -> list event -> Prop)
    (B : bot -> world -> list event -> Prop)
    {A} (m : M A) : Prop :=
  forall b w h,
    I b w h ->
    wp m (fun r b' w' l =>
            match r with
            | Ok _ => I b' w' (h ++ l)%list
            | Raise e => W e b' w' (h ++ l)%list
            | Blocks => B b' w' (h ++ l)%list
            end) b w.

(** A result of the pure helpers: a value or an ordinary exception. *)
Definition benign {A} (r : result A) : Prop :=
  match r with
  | Ok _ => True
  | Raise e => e <> KeyboardInterrupt
  | Blocks => False
  end.

(** Every time in the list is at least [d] before every later one. *)
Fixpoint apart (d : Q) (l : list Q) : Prop :=
  match l with
  | [] => True
  | a :: r => Forall (fun t => a + d <= t) r /\ apart d r
  end.

(** The pacing invariant: the interval is the configured 1.2 seconds, the
    chat posts so far are that far apart, each lies in the past, and each
    is either a full interval back or not later than the recorded time of
    the last send. *)
Definition paced (b : bot) (w : world) (h : list event) : Prop :=
  _send_interval b = 12 # 10
  /\ apart (12 # 10) (send_times h)
  /\ Forall (fun t => t <= clock w /\ (t + (12 # 10) <= clock w \/ t <= _last_send b))
       (send_times h).

(** What is left of it when an exception is on its way to [run]. *)
Definition paced_weak (b : bot) (w : world) (h : list event) : Prop :=
  _send_interval b = 12 # 10
  /\ apart (12 # 10) (send_times h)
  /\ Forall (fun t => t <= clock w) (send_times h).

(** Frames as the event service sends them. *)
Definition envelope (message_type : string) (payload : json) : raw_frame :=
  RawJson (JObj [("metadata", JObj [("message_type", JStr message_type)]);
                 ("payload", payload)]).

Definition welcome_frame (session_id : string) : raw_frame :=
  envelope "session_welcome"
    (JObj [("session", JObj [("id", JStr session_id);
                             ("keepalive_timeout_seconds", JNum 30)])]).

Definition reconnect_frame (url : string) : raw_frame :=
  envelope "session_reconnect"
    (JObj [("session", JObj [("id", JStr "old"); ("reconnect_url", JStr url)])]).

Definition chat_frame (text : string) : raw_frame :=
  envelope "notification"
    (JObj [("subscription", JObj [("type", JStr "channel.chat.message")]);
           ("event",
            JObj [("broadcaster_user_id", JStr "id_alice");
                  ("chatter_user_name", JStr "Al");
                  ("message_id", JStr "m1");
                  ("message",
                   JObj [("text", JStr text);
                         ("fragments",
                          JArr [JObj [("type", JStr "text"); ("text", JStr text)]])])])]).

Definition connection_of (frames : list raw_frame) (e : conn_end) : connection :=
  {| refused := None; incoming := frames; ending := e |}.

(** The server asks for a reconnect during the session and then drops the
    connection; the bot connects again. *)
Definition reconnect_script : list connection :=
  [connection_of [welcome_frame "s1"; reconnect_frame "wss://new.example/ws"]
     ClosedError;
   connection_of [welcome_frame "s2"] ClosedOK].

(** Two chat commands on the first connection, then a second connection. *)
Definition chat_script : list connection :=
  [connection_of [welcome_frame "s1"; chat_frame "!hello"; chat_frame "!help"]
     ClosedOK;
   connection_of [welcome_frame "s2"] ClosedOK].

(** The exceptions [run] printed, in order. *)
Fixpoint errors (l : list event) : list exn :=
  match l with
  | [] => []
  | PrintExn _ e :: r => e :: errors r
  | _ :: r => errors r
  end.

(** A world like [calm] whose requests are all answered 401. *)
Definition unauthorized : env :=
  {| elapse := elapse calm;
     http := fun _ => Response 401 "bad token" true;
     phrase := phrase calm;
     get_user_id := get_user_id calm;
     get_user_ids := get_user_ids calm |}.


(** No connection attempt is in the log. *)
Definition no_connect (b : bot) (w : world) (h : list event) : Prop :=
  connects h = [].

(** That, and the exception on its way is an ordinary one. *)
Definition no_connect_exn (e : exn) (b : bot) (w : world) (h : list event) : Prop :=
  connects h = [] /\ e <> KeyboardInterrupt.

Definition never (b : bot) (w : world) (h : list event) : Prop := False.

(** A connection that neither interrupts the process nor goes silent. *)
Definition ordinary (c : connection) : Prop :=
  ending c <> Interrupt /\ ending c <> Silent
  /\ refused c <> Some KeyboardInterrupt.


Definition any_state (b : bot) (w : world) (h : list event) : Prop := True.

(** A [KeyboardInterrupt] on its way comes from a connection that ends
    interrupted. *)
Definition interrupt_only (en : conn_end) (e : exn) (b : bot) (w : world)
    (h : list event) : Prop :=
  e = KeyboardInterrupt -> en = Interrupt.

(** Waiting for ever comes from a connection that went silent. *)
Definition silent_only (en : conn_end) (b : bot) (w : world) (h : list event) : Prop :=
  en = Silent.

(** The connection is ended, or refused, by a keyboard interrupt. *)
Definition interrupts (c : connection) : Prop :=
  ending c = Interrupt \/ refused c = Some KeyboardInterrupt.

(** A world like [calm] in which the bot's own login is not found. *)
Definition no_such_bot : env :=
  {| elapse := elapse calm; http := http calm; phrase := phrase calm;
     get_user_id := fun login => Raise (RuntimeError ("User not found: " ++ login));
     get_user_ids := get_user_ids calm |}.

(** Where the chat messages posted went: channel, sender and the message
    replied to, in order. *)
Fixpoint chat_requests (l : list event) : list (json * string * option json) :=
  match l with
  | [] => []
  | Post (chat_messages bid id _ rp) _ _ :: r => (bid, id, rp) :: chat_requests r
  | _ :: r => chat_requests r
  end.

(** A chat message sent by bot [b] to channel [bid] in reply to [rt]. *)
Definition addressed (b : bot) (bid rt : json) (a : json * string * option json)
  : Prop :=
  fst (fst a) = bid /\ bot_user_id b = Some (snd (fst a)) /\ snd a = reply_parent rt.

(** The requests made, of any kind, in order. *)
Fixpoint requests (l : list event) : list request :=
  match l with
  | [] => []
  | Post req _ _ :: r => req :: requests r
  | _ :: r => requests r
  end.

(** The frame is a notification of a [channel.chat.message] event, as
    [_handle_message] and [_handle_notification] read it. *)
Definition chat_notification (raw : raw_frame) : bool :=
  match raw with
  | RawText _ => false
  | RawJson msg =>
      match message_type msg with
      | Ok mtype =>
          Py.eq_str mtype "notification"
          && match Py.get msg "payload" (JObj []) with
             | Ok payload =>
                 match Py.get payload "subscription" (JObj []) with
                 | Ok sub =>
                     match Py.get sub "type" JNull with
                     | Ok typ => Py.eq_str typ "channel.chat.message"
                     | _ => false
                     end
                 | _ => false
                 end
             | _ => false
             end
      | _ => false
      end
  end.

(** ** Configuration *)

(** [s.split(sep)] for a one-character separator.  [cur] is the piece
    being read. *)
Fixpoint split_on_from (sep : ascii) (cur : string) (s : string) : list string :=
  match s with
  | EmptyString => [cur]
  | String c r =>
      if Ascii.eqb c sep then cur :: split_on_from sep EmptyString r
      else split_on_from sep (cur ++ String c EmptyString) r
  end.

Definition split_on (sep : ascii) (s : string) : list string :=
  split_on_from sep EmptyString s.

(** [os.getenv(name, default)] over an environment given as a function. *)
Definition os_getenv (environ : string -> option string) (name default : string)
  : string :=
  match environ name with Some v => v | None => default end.

(** [cfg_from_env]; [None] stands for the [SystemExit] it raises. *)
Definition cfg_from_env (environ : string -> option string) : option Config :=
  let cid := PyStr.strip (os_getenv environ "TWITCH_CLIENT_ID" "") in
  let tok := PyStr.strip (os_getenv environ "BOT_USER_ACCESS_TOKEN" "") in
  let bot_login := PyStr.lower (PyStr.strip (os_getenv environ "BOT_LOGIN" "")) in
  let logins_env := PyStr.strip (os_getenv environ "BROADCASTER_LOGINS" "") in
  let broadcaster_logins :=
    map (fun s => PyStr.lower (PyStr.strip s))
        (filter (fun s => PyStr.nonempty (PyStr.strip s)) (split_on "," logins_env)) in
  if negb (PyStr.nonempty cid && PyStr.nonempty tok && PyStr.nonempty bot_login
           && match broadcaster_logins with [] => false | _ => true end)
  then None
  else Some {| client_id := cid; user_token := tok; bot_login := bot_login;
               broadcaster_logins := broadcaster_logins |}.

(** A name as the configuration keeps it: not empty, without surrounding
    whitespace. *)
Definition trimmed (s : string) : Prop :=
  PyStr.nonempty s = true /\ PyStr.strip s = s.

(** The first character of a string is not whitespace. *)
Definition no_leading_space (s : string) : Prop :=
  match s with
  | EmptyString => True
  | String c _ => PyStr.isspace c = false
  end.

(** An environment for the examples. *)
Definition sample_environ (name : string) : option string :=
  if String.eqb name "TWITCH_CLIENT_ID" then Some " cid "
  else if String.eqb name "BOT_USER_ACCESS_TOKEN" then Some "tok"
  else if String.eqb name "BOT_LOGIN" then Some "Bot"
  else if String.eqb name "BROADCASTER_LOGINS" then Some "Alice, ,BOB ,"
  else None.

(** ** The user lookups *)

Module Helix.

(** What [requests.get] gives: a response with its status, reason phrase,
    URL and body (parsed, or [None] when it is not JSON), or no response
    at all. *)
Inductive reply : Type :=
| Reply (status : Z) (reason url : string) (body : option json)
| NoReply (err : string).

(** The message of the [HTTPError] of [r.raise_for_status()], if it
    raises. *)
Definition http_error (status : Z) (reason url : string) : option string :=
  if (400 <=? status)%Z && (status <? 500)%Z then
    Some (PyStr.of_Z status ++ " Client Error: " ++ reason ++ " for url: " ++ url)
  else if (500 <=? status)%Z && (status <? 600)%Z then
    Some (PyStr.of_Z status ++ " Server Error: " ++ reason ++ " for url: " ++ url)
  else None.

(** [r.raise_for_status(); r.json().get("data", [])] *)
Definition users_data (r : reply) : result json :=
  match r with
  | NoReply err => Raise (RequestException err)
  | Reply status reason url body =>
      match http_error status reason url with
      | Some msg => Raise (RequestException msg)
      | None =>
          match body with
          | Some j => Py.get j "data" (JArr [])
          | None => Raise JSONDecodeError
          end
      end
  end.

(** [d[k] = v] on a dict kept in insertion order. *)
Fixpoint dict_set {V : Type} (k : string) (v : V) (d : list (string * V))
  : list (string * V) :=
  match d with
  | [] => [(k, v)]
  | (k', v') :: r =>
      if String.eqb k k' then (k, v) :: r else (k', v') :: dict_set k v r
  end.

(** [k in d] *)
Definition dict_mem {V : Type} (k : string) (d : list (string * V)) : bool :=
  match Py.assoc k d with Some _ => true | None => false end.

(** [for row in rows: out[row["login"].lower()] = row["id"]]; the right
    side of the assignment is evaluated first. *)
Fixpoint add_rows (rows : list json) (out : list (string * json))
  : result (list (string * json)) :=
  match rows with
  | [] => Ok out
  | row :: r =>
      match Py.item row "id" with
      | Ok id =>
          match Py.item row "login" with
          | Ok (JStr login) => add_rows r (dict_set (PyStr.lower login) id out)
          | Ok _ => Raise AttributeError
          | Raise e => Raise e
          | Blocks => Blocks
          end
      | Raise e => Raise e
      | Blocks => Blocks
      end
  end.

(** [range(0, stop, step)] *)
Definition range_step (stop step : nat) : list nat :=
  map (fun k => (k * step)%nat) (seq 0 ((stop + step - 1) / step)).

(** [l[i:j]] *)
Definition slice {A : Type} (i j : nat) (l : list A) : list A :=
  firstn (j - i) (skipn i l).

Definition chunk : nat := 100.

(** [logins[i:i+chunk]] for [i] in [range(0, len(logins), chunk)]. *)
Definition chunks (logins : list string) : list (list string) :=
  map (fun i => slice i (i + chunk) logins) (range_step (List.length logins) chunk).

(** The loop over the chunks: the parameter lists requested, and the dict
    built or the exception raised. *)
Fixpoint fetch (get : list string -> reply) (cs : list (list string))
    (out : list (string * json))
  : list (list string) * result (list (string * json)) :=
  match cs with
  | [] => ([], Ok out)
  | params :: rest =>
      match users_data (get params) with
      | Ok data =>
          match Py.iter data with
          | Ok rows =>
              match add_rows rows out with
              | Ok out' =>
                  (params :: fst (fetch get rest out'), snd (fetch get rest out'))
              | Raise e => ([params], Raise e)
              | Blocks => ([params], Blocks)
              end
          | Raise e => ([params], Raise e)
          | Blocks => ([params], Blocks)
          end
      | Raise e => ([params], Raise e)
      | Blocks => ([params], Blocks)
      end
  end.

(** [repr(s)] for a string of ASCII characters. *)
Definition quote1 : ascii := ascii_of_nat 39.
Definition quote2 : ascii := ascii_of_nat 34.
Definition backslash : ascii := ascii_of_nat 92.

Definition hex_digit (n : nat) : ascii :=
  if (n <? 10)%nat then ascii_of_nat (48 + n) else ascii_of_nat (87 + n).

Definition repr_char (q c : ascii) : string :=
  let n := nat_of_ascii c in
  if Ascii.eqb c q || Ascii.eqb c backslash then String backslash (String c "")
  else if (n =? 9)%nat then String backslash "t"
  else if (n =? 10)%nat then String backslash "n"
  else if (n =? 13)%nat then String backslash "r"
  else if (n <? 32)%nat || (n =? 127)%nat then
    String backslash
      (String "x" (String (hex_digit (n / 16)) (String (hex_digit (n mod 16)) "")))
  else String c "".

Definition contains (c : ascii) (s : string) : bool :=
  existsb (Ascii.eqb c) (list_ascii_of_string s).

Definition repr_str (s : string) : string :=
  let q := if contains quote1 s && negb (contains quote2 s) then quote2 else quote1 in
  String q (String.concat "" (map (repr_char q) (list_ascii_of_string s))
            ++ String q "").

(** [repr] of a list of strings. *)
Definition repr_list (l : list string) : string :=
  "[" ++ PyStr.join ", " (map repr_str l) ++ "]".

(** [get_user_ids], over the answers [get] gives to each list of login
    parameters: the parameter lists requested, and the result. *)
Definition get_user_ids (get : list string -> reply) (logins : list string)
  : list (list string) * result (list (string * json)) :=
  let r := fetch get (chunks logins) [] in
  (fst r,
   match snd r with
   | Ok out =>
       let missing :=
         filter (fun l => negb (dict_mem (PyStr.lower l) out)) logins in
       match missing with
       | [] => Ok out
       | _ => Raise (RuntimeError
                       ("These logins were not found: " ++ repr_list missing))
       end
   | Raise e => Raise e
   | Blocks => Blocks
   end).

(** A server that knows every login asked for, and answers in upper
    case. *)
Definition directory (params : list string) : reply :=
  Reply 200 "OK" "https://api.twitch.tv/helix/users"
    (Some (JObj [("data",
                  JArr (map (fun l => JObj [("id", JStr ("id_" ++ l));
                                            ("login", JStr l)]) params))])).

End Helix.

(** The waits of the send limiter and of [run], in order. *)
Fixpoint sleeps (l : list event) : list Q :=
  match l with
  | [] => []
  | Sleep d :: r => d :: sleeps r
  | _ :: r => sleeps r
  end.

(** At most one wait, positive and no longer than the send interval. *)
Definition short_wait (b : bot) (l : list event) : Prop :=
  sleeps l = [] \/ exists d, sleeps l = [d] /\ 0 < d /\ d <= _send_interval b.

(** The payload of a frame, for the examples. *)
Definition payload_of (raw : raw_frame) : json :=
  match raw with
  | RawJson (JObj fields) =>
      match Py.assoc "payload" fields with Some p => p | None => JNull end
  | _ => JNull
  end.

(** ** Failed requests in a log *)

(** What [send_chat] or [create_subscription] makes of the answer to its
    request; the lighting passthrough never raises. *)
Definition post_result (req : request) (a : answer) : result unit :=
  match req with
  | chat_messages _ _ _ _ => chat_result a
  | eventsub_subscriptions _ _ _ _ _ => subscription_result a
  | set_colour _ => Ok tt
  end.

(** The exception a logged event stands for: that of a chat message or a
    subscription request answered with a failure. *)
Definition failure (ev : event) : option exn :=
  match ev with
  | Post req a _ =>
      match post_result req a with
      | Raise e => Some e
      | _ => None
      end
  | _ => None
  end.

(** No request of the log failed. *)
Definition clean (l : list event) : Prop :=
  Forall (fun ev => failure ev = None) l.

(** The last request of the log failed with [e], and no other did. *)
Definition ends_failed (e : exn) (l : list event) : Prop :=
  exists l' ev, l = (l' ++ [ev])%list /\ clean l' /\ failure ev = Some e.

(** A computation in which a failed request is the last thing done: the
    exception of the request leaves the computation at once. *)
Definition tidy {A} (m : M A) : Prop :=
  forall b w,
    wp m (fun r _ _ l => clean l \/ exists e, r = Raise e /\ ends_failed e l) b w.

(** What [run] does about a failed request: right after it the connection
    is closed, the error is printed and two seconds are slept; then the
    log ends or goes on with a connection attempt. *)
Definition retried (e : exn) (post : list event) : Prop :=
  exists rest,
    post = Close :: PrintExn "Error: {}" e :: Sleep 2 :: rest
    /\ (rest = [] \/ exists u rest', rest = Connect u :: rest').

(** Every failed request of the log is dealt with in that way. *)
Fixpoint handled (l : list event) : Prop :=
  match l with
  | [] => True
  | ev :: r =>
      match failure ev with
      | Some e => retried e r
      | None => True
      end /\ handled r
  end.

(** The message of the [RuntimeError] that a 401 on the request makes. *)
Definition unauthorized_message (req : request) : option string :=
  match req with
  | chat_messages _ _ _ _ =>
      Some "Unauthorized: check user token and scopes (user:read:chat user:write:chat user:bot)"
  | eventsub_subscriptions _ _ _ _ _ =>
      Some "Unauthorized to create EventSub subscription; check token/scopes"
  | set_colour _ => None
  end.

(** The command word of a text: its first word. *)
Definition command_word (t : string) : string := hd "" (PyStr.split t).

(** The text of a message, when there is one, is ASCII. *)
Definition ascii_text (text : option string) : bool :=
  match text with
  | Some s => PyStr.isascii s
  | None => true
  end.

(** No connection of the script is interrupted from the keyboard. *)
Definition uninterrupted (c : connection) : Prop :=
  ending c <> Interrupt /\ refused c <> Some KeyboardInterrupt.

(** ** Properties *)

#[local] Opaque Qplus Qminus Qmult Qdiv Qopp Qinv Qfloor.

(** *** Reasoning about computations *)

Lemma wp_out {A} (m : M A) Q b w :
  wp m Q b w <-> Q (res (m b w)) (self_ (m b w)) (world_ (m b w)) (log (m b w)).
Proof. unfold wp. destruct (m b w); reflexivity. Qed.

Lemma wp_mono {A} (m : M A) (Q Q' : result A -> bot -> world -> list event -> Prop) b w :
  wp m Q b w -> (forall r b' w' l, Q r b' w' l -> Q' r b' w' l) -> wp m Q' b w.
Proof. unfold wp. destruct (m b w). auto. Qed.

Lemma wp_bind {A B} (m : M A) (k : A -> M B) Q b w :
  wp m (fun r b1 w1 l1 =>
          match r with
          | Ok a => wp (k a) (fun r2 b2 w2 l2 => Q r2 b2 w2 (l1 ++ l2)%list) b1 w1
          | Raise e => Q (Raise e) b1 w1 l1
          | Blocks => Q Blocks b1 w1 l1
          end) b w ->
  wp (bind m k) Q b w.
Proof.
  unfold wp, bind. destruct (m b w) as [[a|e|] b1 w1 l1]; auto.
  destruct (k a b1 w1); auto.
Qed.

Lemma wp_try {A} (m : M A) (Q : result (result A) -> _) b w :
  wp m (fun r b1 w1 l1 => Q (Ok r) b1 w1 l1) b w -> wp (try_ m) Q b w.
Proof. unfold wp, try_. destruct (m b w); auto. Qed.

Lemma wp_ret {A} (a : A) (Q : result A -> _) b w :
  Q (Ok a) b w [] -> wp (ret a) Q b w.
Proof. auto. Qed.

Lemma wp_raise {A} e (Q : result A -> _) b w :
  Q (Raise e) b w [] -> wp (raise e) Q b w.
Proof. auto. Qed.

Lemma wp_blocks {A} (Q : result A -> _) b w :
  Q Blocks b w [] -> wp blocks Q b w.
Proof. auto. Qed.

Lemma wp_lift {A} (r : result A) (Q : result A -> _) b w :
  Q r b w [] -> wp (lift r) Q b w.
Proof. auto. Qed.

Lemma wp_emit e (Q : result unit -> _) b w :
  Q (Ok tt) b w [e] -> wp (emit e) Q b w.
Proof. auto. Qed.

Lemma wp_self (Q : result bot -> _) b w :
  Q (Ok b) b w [] -> wp self Q b w.
Proof. auto. Qed.

Lemma wp_set_self b' (Q : result unit -> _) b w :
  Q (Ok tt) b' w [] -> wp (set_self b') Q b w.
Proof. auto. Qed.

Lemma wp_now (Q : result Q -> _) b w :
  Q (Ok (clock w)) b w [] -> wp now_ Q b w.
Proof. auto. Qed.

Lemma wp_pass d (Q : result unit -> _) b w :
  Q (Ok tt) b {| clock := clock w + d; tick := tick w |} [] -> wp (pass d) Q b w.
Proof. auto. Qed.

Lemma wp_interact E (Q : result nat -> _) b w :
  Q (Ok (tick w)) b {| clock := clock w + elapse E (tick w); tick := S (tick w) |} [] ->
  wp (interact E) Q b w.
Proof. auto. Qed.

Lemma wp_time E (Q : result Q -> _) b w :
  Q (Ok (clock w + elapse E (tick w))) b
    {| clock := clock w + elapse E (tick w); tick := S (tick w) |} [] ->
  wp (time_time E) Q b w.
Proof. auto. Qed.

Lemma wp_sleep E d (Q : result unit -> _) b w :
  Q (Ok tt) b
    {| clock := clock w + (if Qlt_le_dec 0 d then d else 0) + elapse E (tick w);
       tick := S (tick w) |} [Sleep d] ->
  wp (asyncio_sleep E d) Q b w.
Proof. auto. Qed.

Lemma wp_post E req (Q : result answer -> _) b w :
  Q (Ok (http E (tick w))) b
    {| clock := clock w + elapse E (tick w); tick := S (tick w) |}
    [Post req (http E (tick w)) (clock w + elapse E (tick w))] ->
  wp (requests_post E req) Q b w.
Proof. auto. Qed.

(** One step of a computation built from the primitives. *)
Ltac wp_step :=
  lazymatch goal with
  | |- wp (bind _ _) _ _ _ => apply wp_bind
  | |- wp (try_ _) _ _ _ => apply wp_try
  | |- wp (ret _) _ _ _ => apply wp_ret
  | |- wp (raise _) _ _ _ => apply wp_raise
  | |- wp blocks _ _ _ => apply wp_blocks
  | |- wp (lift _) _ _ _ => apply wp_lift
  | |- wp (emit _) _ _ _ => apply wp_emit
  | |- wp (print _) _ _ _ => apply wp_emit
  | |- wp self _ _ _ => apply wp_self
  | |- wp (set_self _) _ _ _ => apply wp_set_self
  | |- wp now_ _ _ _ => apply wp_now
  | |- wp (pass _) _ _ _ => apply wp_pass
  | |- wp (interact _) _ _ _ => apply wp_interact
  | |- wp (time_time _) _ _ _ => apply wp_time
  | |- wp (asyncio_sleep _ _) _ _ _ => apply wp_sleep
  | |- wp (requests_post _ _) _ _ _ => apply wp_post
  end; cbv beta iota.

Ltac wp_steps := repeat wp_step.

(** *** Strings *)

Lemma lstrip_app_space (pre s : string) :
  PyStr.all_chars PyStr.isspace pre = true ->
  PyStr.lstrip (pre ++ s) = PyStr.lstrip s.
Proof.
  induction pre as [|c pre IH]; simpl; intros H; [reflexivity|].
  apply andb_true_iff in H as [Hc Hp]. rewrite Hc. auto.
Qed.

Lemma rstrip_space (s : string) :
  PyStr.all_chars PyStr.isspace s = true -> PyStr.rstrip s = "".
Proof.
  induction s as [|c s IH]; simpl; intros H; [reflexivity|].
  apply andb_true_iff in H as [Hc Hs]. rewrite (IH Hs), Hc. reflexivity.
Qed.

Lemma rstrip_app_space (s post : string) :
  PyStr.all_chars PyStr.isspace post = true ->
  PyStr.rstrip (s ++ post) = PyStr.rstrip s.
Proof.
  intros H. induction s as [|c s IH]; simpl.
  - now apply rstrip_space.
  - rewrite IH. reflexivity.
Qed.

Lemma lstrip_space (s : string) :
  PyStr.all_chars PyStr.isspace s = true -> PyStr.lstrip s = "".
Proof.
  induction s as [|c s IH]; simpl; intros H; [reflexivity|].
  apply andb_true_iff in H as [Hc Hs]. rewrite Hc. auto.
Qed.

Lemma strip_app_space (t post : string) :
  PyStr.all_chars PyStr.isspace post = true ->
  PyStr.strip (t ++ post) = PyStr.strip t.
Proof.
  intros H. unfold PyStr.strip. induction t as [|c t IH]; simpl.
  - rewrite (lstrip_space _ H). reflexivity.
  - destruct (PyStr.isspace c); [exact IH|].
    change (String c (t ++ post)) with (String c t ++ post).
    now apply rstrip_app_space.
Qed.

Lemma strip_pad (pre t post : string) :
  PyStr.all_chars PyStr.isspace pre = true ->
  PyStr.all_chars PyStr.isspace post = true ->
  PyStr.strip (pre ++ t ++ post) = PyStr.strip t.
Proof.
  intros Hpre Hpost. unfold PyStr.strip at 1.
  rewrite (lstrip_app_space _ _ Hpre).
  now apply strip_app_space.
Qed.

Lemma strip_space (s : string) :
  PyStr.all_chars PyStr.isspace s = true -> PyStr.strip s = "".
Proof.
  intros H. unfold PyStr.strip. now rewrite (lstrip_space _ H).
Qed.


(** *** Flattening a rich-text message *)

Lemma concat_empty_cons (s : string) (r : list string) :
  String.concat "" (s :: r) = s ++ String.concat "" r.
Proof.
  destruct r as [|s' r]; simpl; [|reflexivity].
  induction s as [|c s IH]; simpl; [reflexivity|]. now rewrite <- IH.
Qed.

Lemma fragment_texts_ok (fs : list json) :
  forallb is_fragment fs = true ->
  fragment_texts fs = Ok (map (fun f => JStr (fragment_text f)) fs).
Proof.
  induction fs as [|f fs IH]; simpl; intros H; [reflexivity|].
  apply andb_true_iff in H as [Hf Hfs]. rewrite (IH Hfs).
  destruct f as [| | | | |fields]; try discriminate. simpl in *.
  destruct (Py.assoc "text" fields) as [[| | |s| |]|]; try discriminate; reflexivity.
Qed.

Lemma join_empty_strs (ss : list string) :
  join_empty (map JStr ss) = Ok (String.concat "" ss).
Proof.
  induction ss as [|s ss IH]; [reflexivity|].
  rewrite concat_empty_cons. simpl map. cbn [join_empty]. now rewrite IH.
Qed.

(** C9, as amended.  A message whose fragments are [fs], at least one of
    them, flattens to the texts of [fs] joined in order with nothing in
    between; a message with no fragment flattens to its own ["text"]
    field (empty when absent or false).  In particular the text fragments
    "Hello " and "world" flatten to "Hello world". *)
Theorem extract_plain_text_concat :
  (forall fields fs,
      Py.assoc "fragments" fields = Some (JArr fs) ->
      forallb is_fragment fs = true ->
      extract_plain_text_from_message (JObj fields) =
      Ok (match fs with
          | [] => text_or_empty fields
          | _ => JStr (String.concat "" (map fragment_text fs))
          end))
  /\ extract_plain_text_from_message
       (JObj [("fragments",
               JArr [JObj [("type", JStr "text"); ("text", JStr "Hello ")];
                     JObj [("type", JStr "text"); ("text", JStr "world")]])])
     = Ok (JStr "Hello world").
Proof.
  split; [|reflexivity].
  intros fields fs Hfr Hok.
  unfold extract_plain_text_from_message, Py.get. rewrite Hfr.
  cbn [Py.iter]. rewrite (fragment_texts_ok _ Hok).
  destruct fs as [|f fs].
  - cbn [map]. unfold text_or_empty. destruct (Py.assoc "text" fields); reflexivity.
  - rewrite <- (map_map fragment_text JStr), join_empty_strs.
    cbn [map]. reflexivity.
Qed.

(** C9, as stated, fails on a message that has a ["text"] and no
    fragment: the concatenation of its fragments is empty, the flattened
    body is the text. *)
Lemma extract_plain_text_no_fragments :
  let m := JObj [("fragments", JArr []); ("text", JStr "hi")] in
  extract_plain_text_from_message m = Ok (JStr "hi")
  /\ extract_plain_text_from_message m
     <> Ok (JStr (String.concat "" (map fragment_text []))).
Proof. split; [reflexivity|discriminate]. Qed.

(** *** Requests and the reply path *)

Lemma wp_send_chat E bid id msg rt (Q : result unit -> _) b w :
  Q (chat_result (http E (tick w))) b (advance E w)
    [Post (chat_messages bid id msg (reply_parent rt)) (http E (tick w))
       (clock (advance E w))] ->
  wp (send_chat E bid id msg rt) Q b w.
Proof.
  intros H. unfold send_chat. wp_steps. fold (reply_parent rt).
  unfold chat_result in H.
  destruct (http E (tick w)) as [status text is_json|err]; cbv beta iota.
  - destruct (status =? 401)%Z; [wp_steps; exact H|].
    destruct (400 <=? status)%Z; [wp_steps; exact H|].
    destruct is_json; wp_steps; exact H.
  - wp_steps. exact H.
Qed.

Lemma wp_create_subscription E sid typ bid uid (Q : result unit -> _) b w :
  Q (subscription_result (http E (tick w))) b (advance E w)
    [Post (eventsub_subscriptions typ "1" bid uid sid) (http E (tick w))
       (clock (advance E w))] ->
  wp (create_subscription E sid typ bid uid) Q b w.
Proof.
  intros H. unfold create_subscription. wp_steps.
  unfold subscription_result in H.
  destruct (http E (tick w)) as [status text is_json|err]; cbv beta iota.
  - destruct (status =? 401)%Z; [wp_steps; exact H|].
    destruct (400 <=? status)%Z; [wp_steps; exact H|].
    destruct is_json; wp_steps; exact H.
  - wp_steps. exact H.
Qed.

Lemma wp_assert_bot_user_id (Q : result string -> _) b w :
  match bot_user_id b with
  | Some id => if PyStr.nonempty id then Q (Ok id) b w [] else Q (Raise AssertionError) b w []
  | None => Q (Raise AssertionError) b w []
  end ->
  wp assert_bot_user_id Q b w.
Proof.
  intros H. unfold assert_bot_user_id. wp_steps.
  destruct (bot_user_id b) as [id|]; [destruct (PyStr.nonempty id)|]; wp_steps; exact H.
Qed.

(** [_reply] in one step: the wait, the post, and the time stamp taken
    only when the post went through. *)
Lemma wp_reply E msg rt bid (Q : result unit -> _) b w id :
  bot_user_id b = Some id -> PyStr.nonempty id = true ->
  (let pre := fst (reply_wait E b w) in
   let w1 := snd (reply_wait E b w) in
   let w2 := advance E w1 in
   let l := (pre ++ [Post (chat_messages bid id msg (reply_parent rt))
                       (http E (tick w1)) (clock w2)])%list in
   match chat_result (http E (tick w1)) with
   | Ok _ => Q (Ok tt) (with_last_send b (clock (advance E w2))) (advance E w2) l
   | Raise e => Q (Raise e) b w2 l
   | Blocks => Q Blocks b w2 l
   end) ->
  wp (_reply E msg rt bid) Q b w.
Proof.
  intros Hid Hne H. unfold _reply. wp_steps.
  unfold reply_wait in H. fold (advance E w). 
  change (clock w + elapse E (tick w)) with (clock (advance E w)).
  destruct (Qlt_le_dec (clock (advance E w) - _last_send b) (_send_interval b));
    cbv beta iota zeta in H; cbn [fst snd] in H;
    wp_steps; apply wp_assert_bot_user_id; rewrite Hid, Hne; wp_steps;
    apply wp_send_chat; cbn [advance clock tick] in H |- *;
    match goal with |- context [chat_result ?a] => destruct (chat_result a) end;
    cbv beta iota; wp_steps; unfold set_last_send; wp_steps; exact H.
Qed.

(** *** The dispatch of [_commands] *)

Lemma startswith_split (p s : string) :
  PyStr.startswith s p = true -> s = p ++ PyStr.drop (String.length p) s.
Proof.
  unfold PyStr.startswith. revert s.
  induction p as [|a p IH]; intros s H; [reflexivity|].
  destruct s as [|c s]; [discriminate|]. simpl in H.
  destruct (ascii_dec a c) as [->|]; [|discriminate].
  simpl. f_equal. now apply IH.
Qed.

Lemma startswith_app (p s : string) : PyStr.startswith (p ++ s) p = true.
Proof.
  unfold PyStr.startswith. induction p as [|a p IH]; simpl.
  - now destruct s.
  - destruct (ascii_dec a a); [exact IH|congruence].
Qed.

Lemma drop_app (p s : string) : PyStr.drop (String.length p) (p ++ s) = s.
Proof. induction p as [|a p IH]; simpl; [now destruct s|exact IH]. Qed.

Lemma lower_app (s t : string) :
  PyStr.lower (s ++ t) = PyStr.lower s ++ PyStr.lower t.
Proof. induction s as [|c s IH]; simpl; [reflexivity|now rewrite IH]. Qed.

Lemma lower_length (s : string) : String.length (PyStr.lower s) = String.length s.
Proof. induction s as [|c s IH]; simpl; [reflexivity|now rewrite IH]. Qed.

Lemma lower_char_bang (c : ascii) :
  PyStr.lower_char c = "!"%char -> c = "!"%char.
Proof.
  destruct c as [[] [] [] [] [] [] [] []]; cbv; intros H;
    try discriminate H; reflexivity.
Qed.

Lemma bang_of_lower (t p : string) :
  PyStr.startswith (PyStr.lower t) (String "!" p) = true ->
  PyStr.startswith t "!" = true.
Proof.
  intros H. apply startswith_split in H.
  destruct t as [|c t]; [discriminate H|].
  cbn [PyStr.lower append] in H. injection H as Hc _.
  apply lower_char_bang in Hc. subst c. exact (startswith_app "!" t).
Qed.

Lemma eqb_startswith (s p : string) :
  String.eqb s p = true -> PyStr.startswith s p = true.
Proof.
  intros H. apply String.eqb_eq in H. subst s.
  rewrite <- (startswith_app p ""). f_equal.
  induction p as [|a p IH]; simpl; [reflexivity|now rewrite <- IH].
Qed.

(** The text [_commands] works on. *)
Lemma commands_hello E text rt bid ch :
  PyStr.lower (PyStr.strip text) = "!hello" ->
  _commands E (Some text) rt bid ch = _reply E "Hey there! o/" rt bid.
Proof.
  intros H. unfold _commands.
  rewrite (bang_of_lower (PyStr.strip text) "hello") by (rewrite H; reflexivity).
  rewrite H. reflexivity.
Qed.

Lemma commands_echo E text rt bid ch :
  PyStr.startswith (PyStr.lower (PyStr.strip text)) "!echo " = true ->
  _commands E (Some text) rt bid ch = _reply E (PyStr.drop 6 (PyStr.strip text)) rt bid.
Proof.
  intros H. unfold _commands.
  rewrite (bang_of_lower (PyStr.strip text) "echo ") by exact H.
  assert (Hh : String.eqb (PyStr.lower (PyStr.strip text)) "!hello" = false)
    by (rewrite (startswith_split _ _ H); reflexivity).
  rewrite Hh, H. reflexivity.
Qed.

Lemma commands_help E text rt bid ch :
  PyStr.lower (PyStr.strip text) = "!help" ->
  _commands E (Some text) rt bid ch =
  _reply E "Commands: !hello, !echo <text>, !prize" rt bid.
Proof.
  intros H. unfold _commands.
  rewrite (bang_of_lower (PyStr.strip text) "help") by (rewrite H; reflexivity).
  rewrite H. reflexivity.
Qed.


Lemma commands_lights E text rt bid ch :
  PyStr.startswith (PyStr.lower (PyStr.strip text)) "!lights" = true ->
  _commands E (Some text) rt bid ch =
  (let arg := PyStr.strip (PyStr.drop 7 (PyStr.strip text)) in
   if negb (PyStr.nonempty arg) then
     _reply E "Usage: !lights <colour name or #hex>" rt bid
   else
     now <- time_time E ;;
     b <- self ;;
     let remaining := 300 - (now - _last_lights b) in
     if Qlt_le_dec 0 remaining then
       _reply E (cooldown_message remaining) rt bid
     else
       r <- set_lights_passthrough E arg ;;
       if fst r then
         set_last_lights now ;;
         _reply E ("Lights set to " ++ arg) rt bid
       else
         _reply E ("Lights error: " ++ snd r) rt bid).
Proof.
  intros H. unfold _commands.
  rewrite (bang_of_lower (PyStr.strip text) "lights") by exact H.
  assert (Hc : String.eqb (PyStr.lower (PyStr.strip text)) "!hello" = false
               /\ PyStr.startswith (PyStr.lower (PyStr.strip text)) "!echo " = false)
    by (rewrite (startswith_split _ _ H); repeat split; reflexivity).
  destruct Hc as (H1 & H2). rewrite H1, H2, H. reflexivity.
Qed.

Lemma commands_unknown E text rt bid ch :
  recognized (PyStr.lower (PyStr.strip text)) = false ->
  _commands E (Some text) rt bid ch = ret tt.
Proof.
  unfold recognized. intros H.
  repeat (apply orb_false_iff in H as [H ?]).
  unfold _commands.
  destruct (PyStr.startswith (PyStr.strip text) "!"); [|reflexivity].
  cbn [negb]. cbv zeta.
  repeat match goal with Hc : _ = false |- _ => rewrite Hc; clear Hc end.
  reflexivity.
Qed.

Lemma commands_none E rt bid ch : _commands E None rt bid ch = ret tt.
Proof. reflexivity. Qed.

Lemma commands_not_bang E text rt bid ch :
  PyStr.startswith (PyStr.strip text) "!" = false ->
  _commands E (Some text) rt bid ch = ret tt.
Proof. intros H. unfold _commands. now rewrite H. Qed.

Lemma chat_result_not_blocks (a : answer) : chat_result a <> Blocks.
Proof.
  destruct a as [status text is_json|err]; cbn; [|discriminate].
  destruct (status =? 401)%Z; [discriminate|].
  destruct (400 <=? status)%Z; [discriminate|].
  destruct is_json; discriminate.
Qed.


(** What every [_reply] does and leaves alone. *)
Lemma reply_facts E msg rt bid b w :
  ready b = true ->
  wp (_reply E msg rt bid)
     (fun r b' w' l =>
        sent l = [msg] /\ lights_calls l = [] /\ phrases l = []
        /\ connects l = [] /\ subscriptions l = []
        /\ _last_lights b' = _last_lights b
        /\ ready b' = true /\ r <> Blocks) b w.
Proof.
  intros Hr. pose proof Hr as Hr'. unfold ready in Hr.
  destruct (bot_user_id b) as [id|] eqn:Hid; [|discriminate].
  apply (wp_reply E msg rt bid _ b w id Hid Hr).
  cbv zeta. unfold reply_wait.
  destruct (Qlt_le_dec _ _); cbn [fst snd];
    match goal with
    | |- context [chat_result ?a] =>
        pose proof (chat_result_not_blocks a); destruct (chat_result a)
    end;
    cbn; repeat split; try assumption; try discriminate.
Qed.

Lemma reply_sent E msg rt bid b w :
  ready b = true -> sent (log (_reply E msg rt bid b w)) = [msg].
Proof.
  intros Hr. pose proof (reply_facts E msg rt bid b w Hr) as H.
  apply wp_out in H. tauto.
Qed.

(** *** The command processor *)

(** C10.  Whitespace around the text does not count: the text padded with
    whitespace on both sides is processed exactly as the text itself, so
    ["  !hello "] gets the greeting; a missing text and a text of
    whitespace only produce nothing. *)
Theorem commands_strip_whitespace E pre t post rt bid ch :
  PyStr.all_chars PyStr.isspace pre = true ->
  PyStr.all_chars PyStr.isspace post = true ->
  _commands E (Some (pre ++ t ++ post)) rt bid ch = _commands E (Some t) rt bid ch
  /\ (forall b w, _commands E (Some pre) rt bid ch b w = Out (Ok tt) b w [])
  /\ (forall b w, _commands E None rt bid ch b w = Out (Ok tt) b w [])
  /\ (forall b w, ready b = true ->
        sent (log (_commands E (Some "  !hello ") rt bid ch b w)) = ["Hey there! o/"]).
Proof.
  intros Hpre Hpost. repeat split.
  - unfold _commands. now rewrite (strip_pad _ _ _ Hpre Hpost).
  - intros b w. rewrite commands_not_bang; [reflexivity|].
    now rewrite (strip_space _ Hpre).
  - intros b w Hr. rewrite commands_hello by reflexivity.
    now apply reply_sent.
Qed.

Lemma split_from_word (p : string) : forall cur s,
  PyStr.all_chars (fun c => negb (PyStr.isspace c)) p = true ->
  PyStr.split_from cur (p ++ s) = PyStr.split_from (cur ++ p) s.
Proof.
  induction p as [|c p IH]; intros cur s Hp; cbn [append].
  - f_equal. clear. induction cur as [|a cur IH]; [reflexivity|].
    cbn [append]. now rewrite <- IH.
  - cbn [PyStr.all_chars] in Hp. apply andb_true_iff in Hp as [Hc Hp].
    apply negb_true_iff in Hc. cbn [PyStr.split_from]. rewrite Hc.
    rewrite IH by exact Hp. f_equal.
    clear. induction cur as [|a cur IH]; [reflexivity|].
    cbn [append]. now rewrite IH.
Qed.

Lemma hd_split_from (s : string) : forall cur,
  cur <> "" -> exists x, hd "" (PyStr.split_from cur s) = cur ++ x.
Proof.
  induction s as [|c s IH]; intros cur Hcur; cbn [PyStr.split_from].
  - destruct cur; [congruence|]. exists "". cbn [hd].
    clear. generalize (String a cur). intros t.
    induction t as [|b t IH]; [reflexivity|]. cbn [append]. now rewrite <- IH.
  - destruct (PyStr.isspace c).
    + destruct cur; [congruence|]. exists "". cbn [hd].
      clear. generalize (String a cur). intros t.
      induction t as [|b t IH]; [reflexivity|]. cbn [append]. now rewrite <- IH.
    + destruct (IH (cur ++ String c "")) as [x Hx].
      { destruct cur; discriminate. }
      exists (String c x). rewrite Hx. clear.
      induction cur as [|a cur IH]; [reflexivity|]. cbn [append]. now rewrite IH.
Qed.

Lemma word_prefix (p t : string) :
  p <> "" ->
  PyStr.all_chars (fun c => negb (PyStr.isspace c)) p = true ->
  PyStr.startswith t p = true ->
  PyStr.startswith (command_word t) p = true.
Proof.
  intros Hne Hp H. unfold command_word, PyStr.split.
  rewrite (startswith_split _ _ H), (split_from_word p "" _ Hp).
  cbn [append].
  destruct (hd_split_from (PyStr.drop (String.length p) t) p Hne) as [x ->].
  apply startswith_app.
Qed.

(** C7, as amended.  An ASCII text that begins with [!] produces nothing at
    all (no send, no call, no change of the bot or of the world) when its
    command word, the first word in lower case, is none of [!hello],
    [!help] and [!echo] and does not begin with [!lights] or [!prize];
    and, more precisely, whenever the text in lower case is neither
    [!hello] nor [!help] and begins with none of [!echo ] (with the
    space), [!lights] and [!prize]. *)
Theorem commands_unknown_silent E text rt bid ch b w :
  PyStr.isascii text = true ->
  PyStr.startswith (PyStr.strip text) "!" = true ->
  let lower := PyStr.lower (PyStr.strip text) in
  let word := command_word lower in
  (word <> "!hello" -> word <> "!help" -> word <> "!echo" ->
   PyStr.startswith word "!lights" = false ->
   PyStr.startswith word "!prize" = false ->
   _commands E (Some text) rt bid ch b w = Out (Ok tt) b w [])
  /\ (recognized lower = false ->
      _commands E (Some text) rt bid ch b w = Out (Ok tt) b w []).
Proof.
  intros _ _ lower word.
  assert (G : recognized lower = false ->
              _commands E (Some text) rt bid ch b w = Out (Ok tt) b w [])
    by (intros H; now rewrite (commands_unknown E text rt bid ch H)).
  split; [|exact G].
  intros Hhello Hhelp Hecho Hlights Hprize. apply G. unfold recognized.
  destruct (String.eqb lower "!hello") eqn:H1.
  { apply String.eqb_eq in H1. exfalso. apply Hhello. unfold word.
    now rewrite H1. }
  destruct (PyStr.startswith lower "!echo ") eqn:H2.
  { exfalso. apply Hecho. unfold word, command_word, PyStr.split.
    rewrite (startswith_split _ _ H2).
    change ("!echo " ++ PyStr.drop (String.length "!echo ") lower)
      with ("!echo" ++ String " " (PyStr.drop (String.length "!echo ") lower)).
    rewrite (split_from_word "!echo" "" _ eq_refl). reflexivity. }
  destruct (PyStr.startswith lower "!lights") eqn:H3.
  { exfalso. unfold word in Hlights.
    rewrite (word_prefix "!lights" lower) in Hlights;
      [discriminate|discriminate|reflexivity|exact H3]. }
  destruct (String.eqb lower "!help") eqn:H4.
  { apply String.eqb_eq in H4. exfalso. apply Hhelp. unfold word.
    now rewrite H4. }
  destruct (PyStr.startswith lower "!prize") eqn:H5.
  { exfalso. unfold word in Hprize.
    rewrite (word_prefix "!prize" lower) in Hprize;
      [discriminate|discriminate|reflexivity|exact H5]. }
  reflexivity.
Qed.

(** C7, as stated, fails: a command word that only begins with [!lights]
    is none of the five command words, and yet it is not ignored: the
    rest of the word is passed to the lighting service. *)
Lemma lightsabre_not_ignored :
  let text := "!lightsabre" in
  let o := _commands calm (Some text) JNull (JStr "7") None sample_bot sample_world in
  PyStr.startswith (PyStr.strip text) "!" = true
  /\ command_word (PyStr.lower (PyStr.strip text)) = "!lightsabre"
  /\ ~ In (command_word (PyStr.lower (PyStr.strip text)))
          ["!hello"; "!echo"; "!lights"; "!help"; "!prize"]
  /\ lights_calls (log o) = ["abre"]
  /\ sent (log o) = ["Lights set to abre"].
Proof.
  vm_compute. repeat split.
  intros [H|[H|[H|[H|[H|[]]]]]]; discriminate H.
Qed.

Lemma rstrip_last (s a : string) (c : ascii) :
  PyStr.rstrip s = a ++ String c "" -> PyStr.isspace c = false.
Proof.
  revert a. induction s as [|c0 r IH]; intros a; cbn [PyStr.rstrip].
  - destruct a; discriminate.
  - destruct (PyStr.rstrip r) as [|d r'] eqn:Hr.
    + destruct (PyStr.isspace c0) eqn:Hc0.
      * destruct a; discriminate.
      * destruct a as [|c1 a]; cbn [append].
        -- now intros [= <-].
        -- intros [= _ H]. destruct a; discriminate.
    + destruct a as [|c1 a]; cbn [append]; [discriminate|].
      intros [= _ H]. exact (IH a H).
Qed.

Lemma lower_char_space (c : ascii) :
  PyStr.lower_char c = " "%char -> c = " "%char.
Proof. destruct c as [[] [] [] [] [] [] [] []]; cbv; congruence. Qed.

Lemma echo_text_nonempty (t cmd x : string) :
  PyStr.strip t = cmd ++ x -> PyStr.lower cmd = "!echo " -> x <> "".
Proof.
  intros Ht Hcmd ->.
  destruct cmd as [|c1 [|c2 [|c3 [|c4 [|c5 [|c6 [|c7 cmd]]]]]]]; try discriminate.
  cbn [PyStr.lower] in Hcmd. injection Hcmd as _ _ _ _ _ H6.
  apply lower_char_space in H6. subst c6. cbn [append] in Ht.
  unfold PyStr.strip in Ht.
  pose proof (rstrip_last (PyStr.lstrip t)
                (String c1 (String c2 (String c3 (String c4 (String c5 "")))))
                " "%char Ht) as H.
  discriminate H.
Qed.

(** C8, as amended.  For an ASCII message, whatever the case of the
    command word and whatever whitespace surrounds the message, the text
    after [!echo] and one space, up to the last character of the message
    that is not whitespace, is sent back character for character, and it
    is never empty; an [!echo] followed by nothing but whitespace is not an echo
    command and produces nothing. *)
Theorem echo_verbatim E rt bid ch b w :
  (forall text cmd x,
      PyStr.isascii text = true ->
      PyStr.strip text = cmd ++ x -> PyStr.lower cmd = "!echo " ->
      ready b = true ->
      sent (log (_commands E (Some text) rt bid ch b w)) = [x] /\ x <> "")
  /\ (forall ws,
         PyStr.all_chars PyStr.isspace ws = true ->
         _commands E (Some ("!echo" ++ ws)) rt bid ch b w = Out (Ok tt) b w []).
Proof.
  split.
  - intros text cmd x _ Ht Hcmd Hr.
    split; [|exact (echo_text_nonempty text cmd x Ht Hcmd)].
    assert (Hlen : String.length cmd = 6%nat)
      by (rewrite <- lower_length, Hcmd; reflexivity).
    rewrite commands_echo.
    + rewrite Ht, <- Hlen, drop_app. now apply reply_sent.
    + rewrite Ht, lower_app, Hcmd. apply startswith_app.
  - intros ws Hws.
    rewrite commands_unknown; [reflexivity|].
    rewrite (strip_app_space "!echo" ws Hws). reflexivity.
Qed.

(** C8, as stated, fails: [!echo] with no text gets no reply, not an
    empty one. *)
Lemma echo_empty_no_reply :
  let E := {| elapse := fun _ => 0; http := fun _ => Response 200 "{}" true;
              phrase := fun _ => "Golden Banjo";
              get_user_id := fun _ => Ok "42";
              get_user_ids := fun _ => Ok [] |} in
  let b := {| cfg := {| client_id := "id"; user_token := "tok";
                         bot_login := "bot"; broadcaster_logins := [] |};
              bot_user_id := Some "42"; broadcaster_ids := [];
              id_to_login := []; _last_send := 0; _send_interval := 12 # 10;
              _last_lights := 0 |} in
  let w := {| clock := 1000; tick := 0 |} in
  sent (log (_commands E (Some "!echo") JNull (JStr "7") (Some "al") b w)) = []
  /\ sent (log (_commands E (Some "!echo ") JNull (JStr "7") (Some "al") b w)) <> [""].
Proof. split; [reflexivity|discriminate]. Qed.

(** *** [!prize] *)

Lemma wp_prizes E n : forall (Q : result (list string) -> _) b w,
  Q (Ok (drawn E w n)) b (advance_n E n w) (map GeneratePrize (drawn E w n)) ->
  wp (prizes_ E n) Q b w.
Proof.
  induction n as [|n IH]; intros Q b w H; cbn [prizes_].
  - wp_steps. exact H.
  - unfold generate_prize. wp_steps. apply IH. wp_steps.
    unfold drawn in *. cbn [seq map advance_n] in H.
    cbn [app]. rewrite app_nil_r. exact H.
Qed.




(** *** [!lights] *)

Lemma wp_set_lights_passthrough E v (Q : result (bool * string) -> _) b w :
  Q (Ok (lights_result (http E (tick w)))) b (advance E w)
    [Post (set_colour v) (http E (tick w)) (clock (advance E w))] ->
  wp (set_lights_passthrough E v) Q b w.
Proof.
  intros H. unfold set_lights_passthrough. wp_steps.
  unfold lights_result in H.
  destruct (http E (tick w)) as [status text is_json|err]; cbv beta iota.
  - destruct (400 <=? status)%Z; wp_steps; exact H.
  - wp_steps. exact H.
Qed.

(** Reading a log whose head is known. *)
Ltac log_norm :=
  unfold sent, send_times in *;
  cbn [app lights_calls phrases connects subscriptions chat_posts sent
       send_times map fst snd _last_lights _last_send _send_interval
       bot_user_id] in *.

Ltac wp_reply_facts Hr :=
  lazymatch goal with
  | |- wp (_reply ?E ?m ?rt ?bid) _ ?b ?w =>
      refine (wp_mono _ _ _ _ _ (reply_facts E m rt bid b w Hr) _); cbv beta
  end.

Lemma Qfloor_unique (x : Q) (z : Z) :
  inject_Z z <= x -> x < inject_Z (z + 1) -> Qfloor x = z.
Proof.
  intros H1 H2.
  pose proof (Qfloor_le x) as H3. pose proof (Qlt_floor x) as H4.
  assert (Ha : (z < Qfloor x + 1)%Z)
    by (rewrite Zlt_Qlt; eapply Qle_lt_trans; eassumption).
  assert (Hb : (Qfloor x < z + 1)%Z)
    by (rewrite Zlt_Qlt; eapply Qle_lt_trans; eassumption).
  lia.
Qed.

#[local] Transparent Qplus Qminus Qmult Qdiv Qopp Qinv.

(** The whole seconds that remain, split at 60. *)
Lemma minutes_seconds (remaining : Q) :
  0 < remaining ->
  let mins := Qfloor (remaining / 60) in
  let secs := Qfloor (remaining - 60 * inject_Z mins) in
  (0 <= mins)%Z /\ (0 <= secs < 60)%Z /\ (60 * mins + secs)%Z = Qfloor remaining.
Proof.
  intros Hpos mins secs.
  pose proof (Qfloor_le (remaining / 60)) as H1.
  pose proof (Qlt_floor (remaining / 60)) as H2.
  fold mins in H1, H2. rewrite inject_Z_plus in H2.
  change (inject_Z 1) with 1 in H2.
  change (remaining / 60) with (remaining * (1 # 60)) in H1, H2.
  set (x := remaining - 60 * inject_Z mins) in *.
  assert (Hx : 0 <= x /\ x < 60) by (unfold x; split; lra).
  pose proof (Qfloor_le x) as H3. pose proof (Qlt_floor x) as H4.
  fold secs in H3, H4. rewrite inject_Z_plus in H4.
  change (inject_Z 1) with 1 in H4.
  assert (Hm : (0 <= mins)%Z).
  { apply Z.lt_succ_r. rewrite <- Z.add_1_r. rewrite Zlt_Qlt, inject_Z_plus.
    change (inject_Z 1) with 1. change (inject_Z 0) with 0. lra. }
  assert (Hs0 : (0 <= secs)%Z).
  { apply Z.lt_succ_r. rewrite <- Z.add_1_r. rewrite Zlt_Qlt, inject_Z_plus.
    change (inject_Z 1) with 1. change (inject_Z 0) with 0. lra. }
  assert (Hs1 : (secs < 60)%Z).
  { rewrite Zlt_Qlt. change (inject_Z 60) with 60. lra. }
  repeat split; try assumption.
  symmetry. apply Qfloor_unique.
  - rewrite inject_Z_plus, inject_Z_mult. change (inject_Z 60) with 60.
    unfold x in H3. lra.
  - rewrite !inject_Z_plus, inject_Z_mult. change (inject_Z 60) with 60.
    change (inject_Z 1) with 1. unfold x in H4. lra.
Qed.

#[local] Opaque Qplus Qminus Qmult Qdiv Qopp Qinv.

(** C3.  [!lights] with a value, in ASCII, at clock reading [now]: while
    [remaining = 300 - (now - _last_lights)] is positive the reply tells
    the whole seconds that remain as minutes and seconds below 60,
    nothing is passed through and the cooldown clock stays; otherwise the
    value is passed through once, and the cooldown clock is set to [now]
    exactly when the call succeeds, the failure text being reported and
    the clock left alone when it fails. *)
Theorem lights_cooldown E text rt bid ch b w :
  PyStr.isascii text = true ->
  ready b = true ->
  PyStr.startswith (PyStr.lower (PyStr.strip text)) "!lights" = true ->
  let arg := PyStr.strip (PyStr.drop 7 (PyStr.strip text)) in
  PyStr.nonempty arg = true ->
  let now := clock (advance E w) in
  let remaining := 300 - (now - _last_lights b) in
  let o := _commands E (Some text) rt bid ch b w in
  (0 < remaining ->
     let mins := Qfloor (remaining / 60) in
     let secs := Qfloor (remaining - 60 * inject_Z mins) in
     lights_calls (log o) = []
     /\ sent (log o)
        = ["Lights cooldown: try again in " ++ PyStr.of_Z mins ++ "m "
             ++ PyStr.of_Z secs ++ "s"]
     /\ (0 <= mins)%Z /\ (0 <= secs < 60)%Z
     /\ (60 * mins + secs)%Z = Qfloor remaining
     /\ _last_lights (self_ o) = _last_lights b)
  /\ (remaining <= 0 ->
        lights_calls (log o) = [arg]
        /\ let r := lights_result (http E (S (tick w))) in
           if fst r
           then sent (log o) = ["Lights set to " ++ arg]
                /\ _last_lights (self_ o) = now
           else sent (log o) = ["Lights error: " ++ snd r]
                /\ _last_lights (self_ o) = _last_lights b).
Proof.
  intros _ Hr H arg Harg now remaining. cbv zeta.
  rewrite (commands_lights E text rt bid ch H). cbv zeta.
  fold arg. rewrite Harg. cbn [negb].
  match goal with |- context [log (?m b w)] => set (m0 := m) end.
  assert (G : wp m0 (fun _ b' _ l =>
      (0 < remaining ->
         lights_calls l = []
         /\ sent l
            = ["Lights cooldown: try again in "
                 ++ PyStr.of_Z (Qfloor (remaining / 60)) ++ "m "
                 ++ PyStr.of_Z
                      (Qfloor (remaining
                               - 60 * inject_Z (Qfloor (remaining / 60))))
                 ++ "s"]
         /\ _last_lights b' = _last_lights b)
      /\ (remaining <= 0 ->
            lights_calls l = [arg]
            /\ let r := lights_result (http E (S (tick w))) in
               if fst r
               then sent l = ["Lights set to " ++ arg] /\ _last_lights b' = now
               else sent l = ["Lights error: " ++ snd r]
                    /\ _last_lights b' = _last_lights b)) b w).
  { unfold m0. wp_steps.
    change (clock w + elapse E (tick w)) with now. fold remaining.
    destruct (Qlt_le_dec 0 remaining) as [Hpos|Hneg].
    - wp_reply_facts Hr.
      intros r b' w' l (Hs & Hl & _ & _ & _ & Hk & _).
      unfold cooldown_message in Hs.
      log_norm. split; [auto|]. intros Hle. exfalso.
      apply (Qlt_irrefl 0). eapply Qlt_le_trans; eassumption.
    - wp_step. apply wp_set_lights_passthrough. cbv beta iota.
      cbn [tick clock advance].
      destruct (lights_result (http E (S (tick w)))) as [[|] m]; cbn [fst snd];
        wp_steps.
      + unfold set_last_lights. wp_steps.
        wp_reply_facts Hr.
        intros r b' w' l (Hs & Hl & _ & _ & _ & Hk & _).
        split.
        * intros Hpos. exfalso.
          apply (Qlt_irrefl 0). eapply Qlt_le_trans; eassumption.
        * intros _. log_norm. rewrite Hl, Hs. auto.
      + wp_reply_facts Hr.
        intros r b' w' l (Hs & Hl & _ & _ & _ & Hk & _).
        split.
        * intros Hpos. exfalso.
          apply (Qlt_irrefl 0). eapply Qlt_le_trans; eassumption.
        * intros _. log_norm. rewrite Hl, Hs. auto. }
  apply wp_out in G. destruct G as [G1 G2]. split; [|exact G2].
  intros Hpos. destruct (G1 Hpos) as (Hc & Hs & Hk).
  destruct (minutes_seconds remaining Hpos) as (Hm & Hsec & Hsum).
  repeat split; try assumption; apply Hsec.
Qed.

(** *** Invariants through the dispatcher *)

Lemma get_benign d k v : benign (Py.get d k v).
Proof. destruct d; cbn; auto; discriminate. Qed.

Lemma item_benign d k : benign (Py.item d k).
Proof.
  destruct d; cbn; try discriminate.
  destruct (Py.assoc k fields); cbn; auto; discriminate.
Qed.

Lemma get_str_benign d k v : benign (Py.get_str d k v).
Proof. destruct k; cbn; auto; discriminate. Qed.

Lemma iter_benign v : benign (Py.iter v).
Proof. destruct v; cbn; auto; discriminate. Qed.

Lemma message_type_benign msg : benign (message_type msg).
Proof.
  unfold message_type. pose proof (get_benign msg "metadata" (JObj [])) as H.
  destruct (Py.get msg "metadata" (JObj [])) as [m| |]; auto.
  pose proof (get_benign m "message_type" JNull) as H'.
  destruct (Py.get m "message_type" JNull) as [mt| |]; auto.
  destruct (Py.truthy mt); [exact I|apply get_benign].
Qed.

Lemma fragment_texts_benign fs : benign (fragment_texts fs).
Proof.
  induction fs as [|f fs IH]; cbn; [exact I|].
  pose proof (get_benign f "type" JNull) as H1.
  destruct (Py.get f "type" JNull); auto.
  pose proof (get_benign f "text" (JStr "")) as H2.
  destruct (Py.get f "text" (JStr "")); auto.
  destruct (fragment_texts fs); auto.
Qed.

Lemma join_empty_benign parts : benign (join_empty parts).
Proof.
  induction parts as [|p parts IH]; cbn; [exact I|].
  destruct p; cbn; try discriminate.
  destruct (join_empty parts); auto.
Qed.

Lemma extract_benign m : benign (extract_plain_text_from_message m).
Proof.
  unfold extract_plain_text_from_message.
  pose proof (get_benign m "fragments" (JArr [])) as H1.
  destruct (Py.get m "fragments" (JArr [])) as [frags| |]; auto.
  pose proof (iter_benign frags) as H2.
  destruct (Py.iter frags) as [fs| |]; auto.
  pose proof (fragment_texts_benign fs) as H3.
  destruct (fragment_texts fs) as [[|p parts]| |]; auto.
  - pose proof (get_benign m "text" JNull) as H4.
    destruct (Py.get m "text" JNull); auto.
  - pose proof (join_empty_benign (p :: parts)) as H4.
    destruct (join_empty (p :: parts)); auto.
Qed.

Section Safety.

Variable E : env.
Variable I : bot -> world -> list event -> Prop.
Variable W : exn -> bot -> world -> list event -> Prop.
Variable B : bot -> world -> list event -> Prop.

Hypothesis I_raise : forall e b w h, e <> KeyboardInterrupt -> I b w h -> W e b w h.
Hypothesis I_interact : forall b w h, I b w h -> I b (advance E w) h.
Hypothesis I_print : forall fmt args b w h, I b w h -> I b w (h ++ [Print fmt args])%list.
Hypothesis I_set_lights : forall t b w h, I b w h -> I (with_last_lights b t) w h.
Hypothesis I_reply : forall msg rt bid, safe I W B (_reply E msg rt bid).
Hypothesis I_post : forall req,
  match req with chat_messages _ _ _ _ => False | _ => True end ->
  forall b w h, I b w h ->
    I b (advance E w) (h ++ [Post req (http E (tick w)) (clock (advance E w))])%list.
Hypothesis I_prize : forall b w h,
  I b w h -> I b (advance E w) (h ++ [GeneratePrize (phrase E (tick w))])%list.

Lemma safe_ret {A} (a : A) : safe I W B (ret a).
Proof. intros b w h H. wp_steps. now rewrite app_nil_r. Qed.

Lemma safe_raise {A} e : e <> KeyboardInterrupt -> safe I W B (@raise A e).
Proof. intros He b w h H. wp_steps. rewrite app_nil_r. now apply I_raise. Qed.

Lemma safe_lift {A} (r : result A) : benign r -> safe I W B (lift r).
Proof.
  intros Hr b w h H. wp_steps. rewrite app_nil_r.
  destruct r; cbn in Hr; [assumption|now apply I_raise|contradiction].
Qed.

Lemma safe_bind {A C} (m : M A) (k : A -> M C) :
  safe I W B m -> (forall a, safe I W B (k a)) -> safe I W B (bind m k).
Proof.
  intros Hm Hk b w h H. apply wp_bind.
  refine (wp_mono _ _ _ _ _ (Hm b w h H) _). cbv beta.
  intros [a|e|] b1 w1 l1 H1; try exact H1.
  refine (wp_mono _ _ _ _ _ (Hk a b1 w1 _ H1) _). cbv beta.
  intros r b2 w2 l2. now rewrite app_assoc.
Qed.

Lemma safe_self : safe I W B self.
Proof. intros b w h H. wp_steps. now rewrite app_nil_r. Qed.

Lemma safe_interact : safe I W B (interact E).
Proof. intros b w h H. wp_steps. rewrite app_nil_r. now apply I_interact. Qed.

Lemma safe_time : safe I W B (time_time E).
Proof. intros b w h H. apply wp_time. rewrite app_nil_r. now apply I_interact. Qed.

Lemma safe_print fmt args : safe I W B (emit (Print fmt args)).
Proof. intros b w h H. wp_steps. now apply I_print. Qed.

Lemma safe_set_last_lights t : safe I W B (set_last_lights t).
Proof.
  intros b w h H. unfold set_last_lights. wp_steps. cbn [app].
  rewrite app_nil_r. now apply I_set_lights.
Qed.

Lemma safe_assert : safe I W B assert_bot_user_id.
Proof.
  intros b w h H. apply wp_assert_bot_user_id. rewrite app_nil_r.
  destruct (bot_user_id b) as [id|]; [destruct (PyStr.nonempty id)|];
    try assumption; apply I_raise; auto; discriminate.
Qed.

Lemma safe_lights_passthrough v : safe I W B (set_lights_passthrough E v).
Proof. intros b w h H. apply wp_set_lights_passthrough. now apply I_post. Qed.

Lemma safe_create_subscription sid typ bid uid :
  safe I W B (create_subscription E sid typ bid uid).
Proof.
  intros b w h H. apply wp_create_subscription.
  pose proof (I_post (eventsub_subscriptions typ "1" bid uid sid) Logic.I b w h H) as H'.
  destruct (http E (tick w)) as [status text is_json|err]; cbn.
  - destruct (status =? 401)%Z; [apply I_raise; auto; discriminate|].
    destruct (400 <=? status)%Z; [apply I_raise; auto; discriminate|].
    destruct is_json; [assumption|apply I_raise; auto; discriminate].
  - apply I_raise; auto; discriminate.
Qed.

Lemma safe_generate_prize : safe I W B (generate_prize E).
Proof.
  intros b w h H. unfold generate_prize. wp_steps. cbn [app].
  now apply I_prize.
Qed.

Lemma safe_prizes n : safe I W B (prizes_ E n).
Proof.
  induction n as [|n IH]; cbn [prizes_]; [apply safe_ret|].
  apply safe_bind; [apply safe_generate_prize|]. intros p.
  apply safe_bind; [exact IH|]. intros ps. apply safe_ret.
Qed.

Lemma safe_commands text rt bid ch : safe I W B (_commands E text rt bid ch).
Proof.
  unfold _commands. cbv zeta.
  repeat lazymatch goal with
    | |- safe _ _ _ (if ?c then _ else _) => destruct c
    | |- safe _ _ _ (_reply _ _ _ _) => apply I_reply
    | |- safe _ _ _ (ret _) => apply safe_ret
    | |- safe _ _ _ (bind (time_time _) _) => apply safe_bind; [apply safe_time|intros ?]
    | |- safe _ _ _ (bind self _) => apply safe_bind; [apply safe_self|intros ?]
    | |- safe _ _ _ (bind (set_lights_passthrough _ _) _) =>
        apply safe_bind; [apply safe_lights_passthrough|intros ?]
    | |- safe _ _ _ (bind (set_last_lights _) _) =>
        apply safe_bind; [apply safe_set_last_lights|intros ?]
    | |- safe _ _ _ (bind (prizes_ _ _) _) => apply safe_bind; [apply safe_prizes|intros ?]
    end.
Qed.

Lemma safe_handle_notification payload : safe I W B (_handle_notification E payload).
Proof.
  unfold _handle_notification, text_arg, chatter_arg.
  repeat lazymatch goal with
    | |- safe _ _ _ (if ?c then _ else _) => destruct c
    | |- safe _ _ _ (match ?j with JNull => _ | _ => _ end) => destruct j
    | |- safe _ _ _ (_commands _ _ _ _ _) => apply safe_commands
    | |- safe _ _ _ (ret _) => apply safe_ret
    | |- safe _ _ _ (raise _) => apply safe_raise; discriminate
    | |- safe _ _ _ (lift (Py.get _ _ _)) => apply safe_lift, get_benign
    | |- safe _ _ _ (lift (Py.get_str _ _ _)) => apply safe_lift, get_str_benign
    | |- safe _ _ _ (lift (extract_plain_text_from_message _)) =>
        apply safe_lift, extract_benign
    | |- safe _ _ _ (self) => apply safe_self
    | |- safe _ _ _ (emit (Print _ _)) => apply safe_print
    | |- safe _ _ _ (bind _ _) => apply safe_bind; [|intros ?]
    end.
Qed.

Lemma safe_handle_message raw : safe I W B (_handle_message E raw).
Proof.
  unfold _handle_message. destruct raw as [msg|r]; [|apply safe_print].
  apply safe_bind; [apply safe_lift, message_type_benign|]. intros mtype.
  repeat lazymatch goal with
    | |- safe _ _ _ (if ?c then _ else _) => destruct c
    | |- safe _ _ _ (ret _) => apply safe_ret
    | |- safe _ _ _ (print _) => apply safe_print
    | |- safe _ _ _ (emit (Print _ _)) => apply safe_print
    | |- safe _ _ _ (lift (Py.get _ _ _)) => apply safe_lift, get_benign
    | |- safe _ _ _ (_handle_notification _ _) => apply safe_handle_notification
    | |- safe _ _ _ (bind _ _) => apply safe_bind; [|intros ?]
    end.
Qed.

Lemma safe_subscribe_all sid uid ids : safe I W B (subscribe_all E sid uid ids).
Proof.
  induction ids as [|[login bid] ids IH]; cbn [subscribe_all]; [apply safe_ret|].
  apply safe_bind; [apply safe_create_subscription|]. intros _.
  apply safe_bind; [apply safe_print|]. intros _. exact IH.
Qed.

Variable ending_ : conn_end.
Hypothesis I_recv_nothing : forall A, safe I W B (@recv_nothing E A ending_).
Hypothesis I_receive_end : safe I W B (receive_end E ending_).

Lemma safe_on_connected frames : safe I W B (_on_connected E frames ending_).
Proof.
  induction frames as [|raw rest IH]; cbn [_on_connected]; [apply I_recv_nothing|].
  apply safe_bind; [apply safe_interact|]. intros _.
  apply safe_bind; [destruct raw; [apply safe_ret|apply safe_raise; discriminate]|].
  intros msg.
  apply safe_bind; [apply safe_lift, message_type_benign|]. intros mtype.
  repeat lazymatch goal with
    | |- safe _ _ _ (if ?c then _ else _) => destruct c
    | |- safe _ _ _ (_on_connected _ _ _) => exact IH
    | |- safe _ _ _ (ret _) => apply safe_ret
    | |- safe _ _ _ (lift (Py.get _ _ _)) => apply safe_lift, get_benign
    | |- safe _ _ _ (lift (Py.item _ _)) => apply safe_lift, item_benign
    | |- safe _ _ _ (self) => apply safe_self
    | |- safe _ _ _ (assert_bot_user_id) => apply safe_assert
    | |- safe _ _ _ (subscribe_all _ _ _ _) => apply safe_subscribe_all
    | |- safe _ _ _ (emit (Print _ _)) => apply safe_print
    | |- safe _ _ _ (bind _ _) => apply safe_bind; [|intros ?]
    end.
Qed.

Lemma safe_receive_loop frames : safe I W B (receive_loop E frames ending_).
Proof.
  induction frames as [|raw rest IH]; cbn [receive_loop]; [apply I_receive_end|].
  apply safe_bind; [apply safe_interact|]. intros _.
  apply safe_bind; [apply safe_handle_message|]. intros _. exact IH.
Qed.

End Safety.

(** *** The outbound limiter *)

Lemma chat_posts_app (l1 l2 : list event) :
  chat_posts (l1 ++ l2) = (chat_posts l1 ++ chat_posts l2)%list.
Proof.
  induction l1 as [|e l1 IH]; [reflexivity|].
  destruct e as [| | |[] | | |]; cbn; rewrite ?IH; reflexivity.
Qed.

Lemma send_times_app (l1 l2 : list event) :
  send_times (l1 ++ l2) = (send_times l1 ++ send_times l2)%list.
Proof. unfold send_times. now rewrite chat_posts_app, map_app. Qed.

Lemma sent_app (l1 l2 : list event) : sent (l1 ++ l2) = (sent l1 ++ sent l2)%list.
Proof. unfold sent. now rewrite chat_posts_app, map_app. Qed.

Lemma apart_snoc d l t :
  apart d l -> Forall (fun a => a + d <= t) l -> apart d (l ++ [t]).
Proof.
  induction l as [|a l IH]; cbn; intros Ha Hf; [auto|].
  destruct Ha as [Ha1 Ha2]. inversion Hf; subst. split; [|auto].
  apply Forall_app. split; [assumption|]. constructor; [assumption|constructor].
Qed.

Lemma apart_pairs d l :
  apart d l ->
  forall l1 t1 l2 t2 l3, l = (l1 ++ t1 :: l2 ++ t2 :: l3)%list -> t1 + d <= t2.
Proof.
  intros Ha l1. revert l Ha.
  induction l1 as [|a l1 IH]; intros l Ha t1 l2 t2 l3 ->; cbn in Ha.
  - destruct Ha as [Hf _]. rewrite Forall_forall in Hf. apply Hf.
    apply in_or_app. right. now left.
  - destruct Ha as [_ Ha]. eapply IH; [exact Ha|reflexivity].
Qed.

(** [_reply] from a bot whose id is not set: the wait, then the failed
    assertion. *)
Lemma wp_reply_unready E msg rt bid (Q : result unit -> _) b w :
  ready b = false ->
  Q (Raise AssertionError) b (snd (reply_wait E b w)) (fst (reply_wait E b w)) ->
  wp (_reply E msg rt bid) Q b w.
Proof.
  intros Hr H. unfold _reply. wp_steps. unfold reply_wait in H.
  change (clock w + elapse E (tick w)) with (clock (advance E w)).
  unfold ready in Hr.
  destruct (Qlt_le_dec (clock (advance E w) - _last_send b) (_send_interval b));
    cbn [fst snd] in H; wp_steps; apply wp_assert_bot_user_id;
    (destruct (bot_user_id b) as [id|]; [rewrite Hr|]); exact H.
Qed.

Section Pacing.

Variable E : env.
Hypothesis elapse_nonneg : forall n, 0 <= elapse E n.

Lemma paced_weaken e b w h : e <> KeyboardInterrupt -> paced b w h -> paced_weak b w h.
Proof.
  intros _ (Hi & Ha & Hf). repeat split; try assumption.
  eapply Forall_impl; [|exact Hf]. cbv beta. tauto.
Qed.

Lemma paced_later b w w' h :
  clock w <= clock w' -> paced b w h -> paced b w' h.
Proof.
  intros Hc (Hi & Ha & Hf). repeat split; try assumption.
  eapply Forall_impl; [|exact Hf]. cbv beta. intros t [H1 [H2|H2]]; split; lra.
Qed.

Lemma weak_later b w w' h :
  clock w <= clock w' -> paced_weak b w h -> paced_weak b w' h.
Proof.
  intros Hc (Hi & Ha & Hf). repeat split; try assumption.
  eapply Forall_impl; [|exact Hf]. cbv beta. intros t H1. lra.
Qed.

Lemma advance_later w : clock w <= clock (advance E w).
Proof. cbn. pose proof (elapse_nonneg (tick w)). lra. Qed.

Lemma paced_interact b w h : paced b w h -> paced b (advance E w) h.
Proof. apply paced_later, advance_later. Qed.

Lemma paced_quiet l b w h : send_times l = [] -> paced b w h -> paced b w (h ++ l).
Proof.
  intros Hl (Hi & Ha & Hf). unfold paced.
  now rewrite send_times_app, Hl, app_nil_r.
Qed.

Lemma weak_quiet l b w h :
  send_times l = [] -> paced_weak b w h -> paced_weak b w (h ++ l).
Proof.
  intros Hl (Hi & Ha & Hf). unfold paced_weak.
  now rewrite send_times_app, Hl, app_nil_r.
Qed.

Lemma reply_wait_paced b w h :
  paced b w h ->
  send_times (fst (reply_wait E b w)) = []
  /\ clock w <= clock (snd (reply_wait E b w))
  /\ Forall (fun t => t + (12 # 10) <= clock (snd (reply_wait E b w))) (send_times h).
Proof.
  intros (Hi & Ha & Hf). unfold reply_wait. rewrite Hi.
  pose proof (elapse_nonneg (tick w)) as H0.
  pose proof (elapse_nonneg (S (tick w))) as H1.
  destruct (Qlt_le_dec _ _) as [Hlt|Hge]; cbn [fst snd advance clock tick] in *.
  - split; [reflexivity|].
    destruct (Qlt_le_dec 0 _) as [Hd|Hd]; [|exfalso; lra].
    split; [lra|].
    eapply Forall_impl; [|exact Hf]. cbv beta. intros t [H2 [H3|H3]]; lra.
  - split; [reflexivity|]. split; [lra|].
    eapply Forall_impl; [|exact Hf]. cbv beta. intros t [H2 [H3|H3]]; lra.
Qed.

Lemma paced_reply msg rt bid :
  safe paced (fun _ => paced_weak) paced_weak (_reply E msg rt bid).
Proof.
  intros b w h HI.
  destruct (reply_wait_paced b w h HI) as (Hq & Hc & Hall).
  destruct (bot_user_id b) as [id|] eqn:Hid;
    [destruct (PyStr.nonempty id) eqn:Hne|].
  - apply (wp_reply E msg rt bid _ b w id Hid Hne). cbv zeta.
    set (ww := snd (reply_wait E b w)) in *.
    pose proof (advance_later ww) as H1.
    pose proof (advance_later (advance E ww)) as H2.
    pose proof (advance_later (advance E (advance E ww))) as H3.
    destruct HI as (Hi & Ha & Hf).
    assert (Hap : apart (12 # 10)
                    (send_times h ++ [clock (advance E ww)])).
    { apply apart_snoc; [exact Ha|].
      eapply Forall_impl; [|exact Hall]. cbv beta. intros t Ht. lra. }
    match goal with
    | |- context [chat_result ?a] =>
        pose proof (chat_result_not_blocks a); destruct (chat_result a)
    end; try contradiction.
    + unfold paced. rewrite !send_times_app, Hq.
      cbn [send_times chat_posts map snd app _send_interval with_last_send _last_send].
      split; [exact Hi|]. split; [exact Hap|].
      apply Forall_app. split.
      * eapply Forall_impl; [|exact Hall]. cbv beta. intros t Ht. split; lra.
      * constructor; [|constructor]. split; lra.
    + unfold paced_weak. rewrite !send_times_app, Hq.
      cbn [send_times chat_posts map snd app].
      split; [exact Hi|]. split; [exact Hap|].
      apply Forall_app. split.
      * eapply Forall_impl; [|exact Hall]. cbv beta. intros t Ht. lra.
      * constructor; [|constructor]. lra.
  - apply wp_reply_unready; [unfold ready; now rewrite Hid|].
    apply weak_quiet; [exact Hq|].
    apply (weak_later b w); [exact Hc|]. apply (paced_weaken AssertionError); [discriminate|exact HI].
  - apply wp_reply_unready; [unfold ready; now rewrite Hid|].
    apply weak_quiet; [exact Hq|].
    apply (weak_later b w); [exact Hc|]. apply (paced_weaken AssertionError); [discriminate|exact HI].
Qed.

Lemma paced_sleep d b w h :
  paced_weak b w h ->
  wp (asyncio_sleep E d) (fun _ b' w' l => paced_weak b' w' (h ++ l)) b w.
Proof.
  intros H. apply wp_sleep. apply weak_quiet; [reflexivity|].
  apply (weak_later b w); [|exact H]. cbn.
  pose proof (elapse_nonneg (tick w)). destruct (Qlt_le_dec 0 d); lra.
Qed.

(** Two seconds of sleep after an exception restore the invariant. *)
Lemma paced_after_sleep b w h :
  paced_weak b w h ->
  wp (asyncio_sleep E 2) (fun r b' w' l => r = Ok tt /\ paced b' w' (h ++ l)) b w.
Proof.
  intros (Hi & Ha & Hf). apply wp_sleep. split; [reflexivity|].
  apply paced_quiet; [reflexivity|].
  repeat split; try assumption.
  eapply Forall_impl; [|exact Hf]. cbv beta. intros t Ht. cbn.
  pose proof (elapse_nonneg (tick w)).
  destruct (Qlt_le_dec 0 2) as [_|Hn]; [|exfalso; lra]. split; lra.
Qed.

Lemma paced_recv_nothing A e : safe paced (fun _ => paced_weak) paced_weak (@recv_nothing E A e).
Proof.
  intros b w h H. apply (paced_weaken AssertionError) in H; [|discriminate].
  pose proof (elapse_nonneg (tick w)).
  destruct e; cbn [recv_nothing]; wp_steps; rewrite ?app_nil_r;
    apply (weak_later b w); (cbn; lra) || exact H.
Qed.

Lemma paced_receive_end e : safe paced (fun _ => paced_weak) paced_weak (receive_end E e).
Proof.
  intros b w h H. pose proof (elapse_nonneg (tick w)).
  destruct e; cbn [receive_end]; wp_steps; rewrite ?app_nil_r.
  - apply (paced_later b w); [cbn; lra|exact H].
  - apply (weak_later b w); [cbn; lra|].
    now apply (paced_weaken AssertionError).
  - now apply (paced_weaken AssertionError).
  - now apply (paced_weaken AssertionError).
Qed.

Lemma paced_print fmt args b w h : paced b w h -> paced b w (h ++ [Print fmt args]).
Proof. now apply paced_quiet. Qed.

Lemma paced_set_lights t b w h : paced b w h -> paced (with_last_lights b t) w h.
Proof. intros H. exact H. Qed.

Lemma paced_post req :
  match req with chat_messages _ _ _ _ => False | _ => True end ->
  forall b w h, paced b w h ->
    paced b (advance E w) (h ++ [Post req (http E (tick w)) (clock (advance E w))]).
Proof.
  intros Hreq b w h H. apply paced_quiet; [|now apply paced_interact].
  destruct req; [contradiction|reflexivity|reflexivity].
Qed.

Lemma paced_prize b w h :
  paced b w h -> paced b (advance E w) (h ++ [GeneratePrize (phrase E (tick w))]).
Proof. intros H. apply paced_quiet; [reflexivity|now apply paced_interact]. Qed.

Lemma paced_on_connected frames e :
  safe paced (fun _ => paced_weak) paced_weak (_on_connected E frames e).
Proof.
  apply safe_on_connected;
    [ exact paced_weaken | exact paced_interact | exact paced_print
    | exact paced_post | intros A; apply paced_recv_nothing ].
Qed.

Lemma paced_receive_loop frames e :
  safe paced (fun _ => paced_weak) paced_weak (receive_loop E frames e).
Proof.
  apply safe_receive_loop;
    [ exact paced_weaken | exact paced_interact | exact paced_print
    | exact paced_set_lights | exact paced_reply | exact paced_post
    | exact paced_prize | apply paced_receive_end ].
Qed.

Lemma paced_connect c url :
  safe paced (fun _ => paced_weak) paced_weak (websockets_connect E c url).
Proof.
  intros b w h H. unfold websockets_connect. wp_steps. cbn [app].
  assert (H' : paced b (advance E w) (h ++ [Connect url]))
    by (apply paced_quiet; [reflexivity|now apply paced_interact]).
  pose proof (paced_weaken AssertionError _ _ _ ltac:(discriminate) H') as Hw.
  destruct url; wp_steps; rewrite ?app_nil_r; try exact Hw.
  destruct (refused c); wp_steps; rewrite ?app_nil_r; assumption.
Qed.

(** One connection keeps the invariant when it ends normally and its
    weak form otherwise. *)
Lemma paced_session c url b w h :
  paced b w h ->
  wp (session E c url)
     (fun r b' w' l =>
        exists u r', r = Ok (u, r')
          /\ match r' with
             | Ok _ => paced b' w' (h ++ l)
             | _ => paced_weak b' w' (h ++ l)
             end) b w.
Proof.
  intros H. unfold session. apply wp_bind, wp_try.
  refine (wp_mono _ _ _ _ _ (paced_connect c url b w h H) _). cbv beta.
  intros [[]|e|] b1 w1 l1 H1; wp_steps;
    try (exists url; eexists; split; [reflexivity|]; cbv beta iota;
         rewrite ?app_nil_r; exact H1).
  refine (wp_mono _ _ _ _ _ (paced_on_connected _ _ b1 w1 _ H1) _). cbv beta.
  intros [[u rest]|e|] b2 w2 l2 H2; wp_steps.
  - refine (wp_mono _ _ _ _ _ (paced_receive_loop _ _ b2 w2 _ H2) _). cbv beta.
    intros [[]|e|] b3 w3 l3 H3; wp_steps;
      exists u; eexists; (split; [reflexivity|]); cbv beta iota;
      rewrite ?app_nil_r, ?app_assoc.
    + now apply paced_quiet.
    + now apply weak_quiet.
    + exact H3.
  - exists url; eexists; split; [reflexivity|]. cbv beta iota.
    rewrite ?app_nil_r, ?app_assoc. now apply weak_quiet.
  - exists url; eexists; split; [reflexivity|]. cbv beta iota.
    rewrite ?app_nil_r, ?app_assoc. exact H2.
Qed.

Lemma paced_retry script url fmt e b w h
    (IH : forall url b w h, paced b w h ->
          wp (run_loop E script url) (fun _ b' w' l => paced_weak b' w' (h ++ l)) b w) :
  paced_weak b w h ->
  wp (emit (PrintExn fmt e) ;; asyncio_sleep E 2 ;; run_loop E script url)
     (fun _ b' w' l => paced_weak b' w' (h ++ l)) b w.
Proof.
  intros H. wp_step. wp_step. apply wp_bind.
  assert (H' : paced_weak b w (h ++ [PrintExn fmt e]))
    by (now apply weak_quiet).
  refine (wp_mono _ _ _ _ _ (paced_after_sleep b w _ H') _). cbv beta.
  intros r b1 w1 l1 [-> H1].
  refine (wp_mono _ _ _ _ _ (IH url b1 w1 _ H1) _). cbv beta.
  intros r b2 w2 l2. cbn [app]. now rewrite <- !app_assoc.
Qed.

Lemma paced_run_loop script : forall url b w h,
  paced b w h ->
  wp (run_loop E script url) (fun _ b' w' l => paced_weak b' w' (h ++ l)) b w.
Proof.
  induction script as [|c script IH]; intros url b w h H; cbn [run_loop].
  - wp_steps. rewrite app_nil_r. now apply (paced_weaken AssertionError).
  - apply wp_bind.
    refine (wp_mono _ _ _ _ _ (paced_session c url b w h H) _). cbv beta.
    intros r b1 w1 l1 (u & r' & -> & H1). cbn [fst snd].
    destruct r' as [[]|e|].
    + refine (wp_mono _ _ _ _ _ (IH u b1 w1 _ H1) _). cbv beta.
      intros r b2 w2 l2. now rewrite app_assoc.
    + assert (G : forall fmt e',
                 wp (emit (PrintExn fmt e') ;; asyncio_sleep E 2 ;;
                     run_loop E script u)
                    (fun _ b2 w2 l2 => paced_weak b2 w2 (h ++ l1 ++ l2)) b1 w1).
      { intros fmt e'.
        refine (wp_mono _ _ _ _ _ (paced_retry script u fmt e' b1 w1 _ IH H1) _).
        cbv beta. intros r b2 w2 l2. now rewrite app_assoc. }
      destruct e; try apply G.
      wp_steps. cbn [app]. rewrite app_assoc. now apply weak_quiet.
    + wp_steps. now rewrite app_nil_r.
Qed.

Lemma print_broadcasters_quiet ids (Q : result unit -> _) b w :
  (forall l, send_times l = [] -> Q (Ok tt) b w l) ->
  wp (print_broadcasters ids) Q b w.
Proof.
  revert Q. induction ids as [|[login uid] ids IH]; intros Q H; cbn [print_broadcasters].
  - wp_steps. now apply H.
  - wp_steps. apply IH. intros l Hl. apply H. cbn. exact Hl.
Qed.

Lemma paced_run script c w :
  wp (run E script) (fun _ _ _ l => apart (12 # 10) (send_times l)) (__init__ c) w.
Proof.
  unfold run. wp_steps.
  destruct (get_user_id E (bot_login (cfg (__init__ c)))) as [uid| |]; cbv beta iota;
    [|exact Logic.I|exact Logic.I].
  unfold set_bot_user_id. wp_steps.
  match goal with |- match ?r with _ => _ end => destruct r as [ids| |] end;
    cbv beta iota; [|exact Logic.I|exact Logic.I].
  unfold set_broadcaster_ids. wp_steps. unfold set_id_to_login. wp_steps.
  apply print_broadcasters_quiet. intros l Hl. cbv beta iota.
  match goal with |- wp _ _ ?b0 ?w0 =>
    assert (H : paced b0 w0 []) by (repeat split; constructor)
  end.
  refine (wp_mono _ _ _ _ _ (paced_run_loop script _ _ _ _ H) _). cbv beta.
  intros r b2 w2 l2 (_ & Ha & _). cbn [app] in *.
  change (apart (12 # 10) (send_times (l ++ l2))).
  rewrite send_times_app, Hl. exact Ha.
Qed.

End Pacing.

(** C2.  Under a clock that does not run backwards, any two chat posts of
    a run, whatever channel or command caused them, are done at least the
    send interval of 1.2 seconds apart; and [_reply] itself sleeps the
    remainder of the interval when less than the interval has passed since
    the recorded last send, posts, and on success records the clock as the
    new last send. *)
Theorem sends_paced E :
  (forall n, 0 <= elapse E n) ->
  (forall script c w l1 t1 l2 t2 l3,
      send_times (log (run E script (__init__ c) w))
      = (l1 ++ t1 :: l2 ++ t2 :: l3)%list ->
      t1 + (12 # 10) <= t2)
  /\ (forall msg rt bid b w,
         ready b = true ->
         let now := clock (advance E w) in
         let o := _reply E msg rt bid b w in
         (now - _last_send b < _send_interval b ->
            exists p, log o = [Sleep (_send_interval b - (now - _last_send b)); p]
                      /\ sent [p] = [msg])
         /\ (_send_interval b <= now - _last_send b ->
               exists p, log o = [p] /\ sent [p] = [msg])
         /\ (res o = Ok tt -> _last_send (self_ o) = clock (world_ o))).
Proof.
  intros Hmono. split.
  - intros script c w l1 t1 l2 t2 l3 Heq.
    pose proof (paced_run E Hmono script c w) as H. apply wp_out in H.
    exact (apart_pairs _ _ H _ _ _ _ _ Heq).
  - intros msg rt bid b w Hr. cbv zeta.
    apply (wp_out (_reply E msg rt bid)
             (fun r b' w' l =>
                (clock (advance E w) - _last_send b < _send_interval b ->
                   exists p, l = [Sleep (_send_interval b - (clock (advance E w) - _last_send b)); p]
                             /\ sent [p] = [msg])
                /\ (_send_interval b <= clock (advance E w) - _last_send b ->
                      exists p, l = [p] /\ sent [p] = [msg])
                /\ (r = Ok tt -> _last_send b' = clock w'))).
    unfold ready in Hr. destruct (bot_user_id b) as [id|] eqn:Hid; [|discriminate].
    apply (wp_reply E msg rt bid _ b w id Hid Hr). cbv zeta. unfold reply_wait.
    destruct (Qlt_le_dec _ _) as [Hlt|Hge]; cbn [fst snd app];
      match goal with
      | |- context [chat_result ?a] => destruct (chat_result a)
      end;
      (split; [intros Hc|split; [intros Hc|intros Hc]]);
      try discriminate Hc; try reflexivity;
      try (eexists; split; reflexivity);
      exfalso; apply (Qlt_irrefl (_send_interval b));
      first [ eapply Qle_lt_trans; eassumption | eapply Qlt_le_trans; eassumption ].
Qed.

(** *** Errors do not stop the loop *)

Lemma connects_app (l1 l2 : list event) :
  connects (l1 ++ l2) = (connects l1 ++ connects l2)%list.
Proof.
  induction l1 as [|e l1 IH]; [reflexivity|].
  destruct e; cbn; rewrite ?IH; reflexivity.
Qed.

Lemma chat_result_benign (a : answer) : benign (chat_result a).
Proof.
  destruct a as [status text is_json|err]; cbn; [|discriminate].
  destruct (status =? 401)%Z; [discriminate|].
  destruct (400 <=? status)%Z; [discriminate|].
  destruct is_json; [exact I|discriminate].
Qed.

Lemma reply_wait_log E b w :
  fst (reply_wait E b w) = [] \/ exists d, fst (reply_wait E b w) = [Sleep d].
Proof.
  unfold reply_wait. destruct (Qlt_le_dec _ _); cbn [fst]; eauto.
Qed.

Lemma steady_reply E msg rt bid :
  safe no_connect no_connect_exn never (_reply E msg rt bid).
Proof.
  intros b w h H. unfold no_connect, no_connect_exn, never in *.
  assert (Hpre : connects (fst (reply_wait E b w)) = [])
    by (destruct (reply_wait_log E b w) as [->|[d ->]]; reflexivity).
  destruct (ready b) eqn:Hr.
  - unfold ready in Hr. destruct (bot_user_id b) as [id|] eqn:Hid; [|discriminate].
    apply (wp_reply E msg rt bid _ b w id Hid Hr). cbv zeta.
    match goal with
    | |- context [chat_result ?a] =>
        pose proof (chat_result_benign a) as Hb; destruct (chat_result a)
    end; cbn in Hb; try contradiction;
      rewrite !connects_app, H, Hpre; auto.
  - apply wp_reply_unready; [exact Hr|].
    rewrite connects_app, H, Hpre. split; [reflexivity|discriminate].
Qed.

Section Steady.

Variable E : env.

Lemma steady_raise : forall e b w h,
  e <> KeyboardInterrupt -> no_connect b w h -> no_connect_exn e b w h.
Proof. intros e b w h He H. split; assumption. Qed.

Lemma steady_interact : forall b w h, no_connect b w h -> no_connect b (advance E w) h.
Proof. auto. Qed.

Lemma steady_print : forall fmt args b w h,
  no_connect b w h -> no_connect b w (h ++ [Print fmt args]).
Proof. intros. unfold no_connect in *. now rewrite connects_app, H. Qed.

Lemma steady_set_lights : forall t b w h,
  no_connect b w h -> no_connect (with_last_lights b t) w h.
Proof. auto. Qed.

Lemma steady_post : forall req,
  match req with chat_messages _ _ _ _ => False | _ => True end ->
  forall b w h, no_connect b w h ->
    no_connect b (advance E w) (h ++ [Post req (http E (tick w)) (clock (advance E w))]).
Proof. intros. unfold no_connect in *. now rewrite connects_app, H0. Qed.

Lemma steady_prize : forall b w h,
  no_connect b w h ->
  no_connect b (advance E w) (h ++ [GeneratePrize (phrase E (tick w))]).
Proof. intros. unfold no_connect in *. now rewrite connects_app, H. Qed.

Lemma steady_recv_nothing e A :
  e <> Interrupt -> safe no_connect no_connect_exn never (@recv_nothing E A e).
Proof.
  intros He b w h H. unfold no_connect_exn.
  destruct e; try contradiction; cbn [recv_nothing]; wp_steps;
    rewrite ?app_nil_r; split; try assumption; discriminate.
Qed.

Lemma steady_receive_end e :
  e <> Interrupt -> e <> Silent ->
  safe no_connect no_connect_exn never (receive_end E e).
Proof.
  intros He Hs b w h H. unfold no_connect_exn.
  destruct e; try contradiction; cbn [receive_end]; wp_steps; rewrite ?app_nil_r.
  - exact H.
  - split; [exact H|discriminate].
Qed.

Lemma steady_on_connected frames e :
  e <> Interrupt ->
  safe no_connect no_connect_exn never (_on_connected E frames e).
Proof.
  intros He. apply safe_on_connected;
    [ exact steady_raise | exact steady_interact | exact steady_print | exact steady_post
    | intros A; now apply steady_recv_nothing ].
Qed.

Lemma steady_receive_loop frames e :
  e <> Interrupt -> e <> Silent ->
  safe no_connect no_connect_exn never (receive_loop E frames e).
Proof.
  intros He Hs. apply safe_receive_loop;
    [ exact steady_raise | exact steady_interact | exact steady_print | exact steady_set_lights
    | apply steady_reply | exact steady_post | exact steady_prize
    | now apply steady_receive_end ].
Qed.

(** A connection that is not interrupted and does not go silent makes one
    connection attempt and ends normally or with an ordinary exception. *)
Lemma steady_session c url b w :
  ordinary c ->
  wp (session E c url)
     (fun r _ _ l =>
        connects l = [url]
        /\ exists u r', r = Ok (u, r')
             /\ r' <> Raise KeyboardInterrupt /\ r' <> Blocks) b w.
Proof.
  intros (He & Hs & Hk). unfold session, websockets_connect. wp_steps.
  destruct url; wp_steps;
    try (split; [reflexivity|]; eexists; eexists; split; [reflexivity|];
         split; discriminate).
  destruct (refused c) as [e|] eqn:Hc; wp_steps.
  - split; [reflexivity|]. eexists; eexists; split; [reflexivity|].
    split; [|discriminate]. intros Heq. apply Hk. congruence.
  - refine (wp_mono _ _ _ _ _
              (steady_on_connected (incoming c) (ending c) He b _ [] eq_refl) _).
    cbv beta. intros [[u rest]|e|] b2 w2 l2 H2; cbn [app] in H2; wp_steps.
    + refine (wp_mono _ _ _ _ _
                (steady_receive_loop rest (ending c) He Hs b2 w2 [] eq_refl) _).
      cbv beta. intros [[]|e|] b3 w3 l3 H3; cbn [app] in H3; wp_steps.
      * unfold no_connect in *. cbn [app connects].
        rewrite !connects_app, H2, H3. split; [reflexivity|].
        eexists; eexists; split; [reflexivity|]. split; discriminate.
      * destruct H3 as [H3 H3']. unfold no_connect in *. cbn [app connects].
        rewrite !connects_app, H2, H3. split; [reflexivity|].
        eexists; eexists; split; [reflexivity|]. split; [congruence|discriminate].
      * contradiction.
    + destruct H2 as [H2 H2']. cbn [app connects].
      rewrite !connects_app, H2. split; [reflexivity|].
      eexists; eexists; split; [reflexivity|]. split; [congruence|discriminate].
    + contradiction.
Qed.

Lemma steady_run_loop script : forall url b w,
  Forall ordinary script ->
  wp (run_loop E script url)
     (fun r _ _ l =>
        (exists u, r = Ok (StillRunning u))
        /\ List.length (connects l) = List.length script) b w.
Proof.
  induction script as [|c script IH]; intros url b w Hall; cbn [run_loop].
  - wp_steps. split; [eauto|reflexivity].
  - inversion Hall as [|? ? Hc Hrest]; subst.
    apply wp_bind.
    refine (wp_mono _ _ _ _ _ (steady_session c url b w Hc) _). cbv beta.
    intros r b1 w1 l1 (Hl & u & r' & -> & Hk & Hb). cbn [fst snd].
    assert (G : forall fmt e,
               wp (emit (PrintExn fmt e) ;; asyncio_sleep E 2 ;; run_loop E script u)
                  (fun r _ _ l2 =>
                     (exists u0, r = Ok (StillRunning u0))
                     /\ List.length (connects (l1 ++ l2)) = S (List.length script))
                  b1 w1).
    { intros fmt e. wp_steps.
      refine (wp_mono _ _ _ _ _ (IH u _ _ Hrest) _). cbv beta.
      intros r b2 w2 l2 [Hr Hn]. split; [exact Hr|].
      rewrite connects_app, Hl. cbn [app connects List.length]. now rewrite Hn. }
    destruct r' as [[]|e|]; [|destruct e; try apply G; contradiction|contradiction].
    refine (wp_mono _ _ _ _ _ (IH u _ _ Hrest) _). cbv beta.
    intros r b2 w2 l2 [Hr Hn]. split; [exact Hr|].
    rewrite connects_app, Hl. cbn [app List.length]. now rewrite Hn.
Qed.

End Steady.

(** *** Failed requests *)

Lemma clean_app (l1 l2 : list event) : clean l1 -> clean l2 -> clean (l1 ++ l2).
Proof. intros H1 H2. apply Forall_app. now split. Qed.

Lemma clean_one (ev : event) : failure ev = None -> clean [ev].
Proof. intros H. constructor; [exact H|constructor]. Qed.

Lemma ends_failed_app (e : exn) (l1 l2 : list event) :
  clean l1 -> ends_failed e l2 -> ends_failed e (l1 ++ l2).
Proof.
  intros H1 (l' & ev & -> & Hc & Hf). exists (l1 ++ l')%list, ev.
  split; [now rewrite app_assoc|]. split; [now apply clean_app|exact Hf].
Qed.

(** The exception of a failed request is an ordinary one. *)
Lemma failure_exn (ev : event) (e : exn) :
  failure ev = Some e -> e <> KeyboardInterrupt /\ e <> ConnectionClosedError.
Proof.
  destruct ev as [| | |req a t| | |]; try discriminate. cbn [failure].
  destruct req as [bid id m rp|typ v bid uid sid|v]; cbn [post_result];
    [unfold chat_result|unfold subscription_result|discriminate];
    (destruct a as [status text is_json|err];
     [destruct (status =? 401)%Z;
      [|destruct (400 <=? status)%Z; [|destruct is_json]]|]);
    intros [= <-]; split; discriminate.
Qed.

Lemma tidy_ret {A} (a : A) : tidy (ret a).
Proof. intros b w. wp_steps. left. constructor. Qed.

Lemma tidy_raise {A} (e : exn) : tidy (@raise A e).
Proof. intros b w. wp_steps. left. constructor. Qed.

Lemma tidy_blocks {A} : tidy (@blocks A).
Proof. intros b w. wp_steps. left. constructor. Qed.

Lemma tidy_lift {A} (r : result A) : tidy (lift r).
Proof. intros b w. wp_steps. left. constructor. Qed.

Lemma tidy_self : tidy self.
Proof. intros b w. wp_steps. left. constructor. Qed.

Lemma tidy_set_self b' : tidy (set_self b').
Proof. intros b w. wp_steps. left. constructor. Qed.

Lemma tidy_pass d : tidy (pass d).
Proof. intros b w. wp_steps. left. constructor. Qed.

Lemma tidy_interact E : tidy (interact E).
Proof. intros b w. wp_steps. left. constructor. Qed.

Lemma tidy_time E : tidy (time_time E).
Proof. intros b w. apply wp_time. left. constructor. Qed.

Lemma tidy_emit (ev : event) : failure ev = None -> tidy (emit ev).
Proof. intros H b w. wp_steps. left. now apply clean_one. Qed.

Lemma tidy_sleep E d : tidy (asyncio_sleep E d).
Proof. intros b w. apply wp_sleep. left. now apply clean_one. Qed.

Lemma tidy_bind {A C} (m : M A) (k : A -> M C) :
  tidy m -> (forall a, tidy (k a)) -> tidy (bind m k).
Proof.
  intros Hm Hk b w. apply wp_bind.
  refine (wp_mono _ _ _ _ _ (Hm b w) _). cbv beta.
  intros [a|e|] b1 w1 l1 H1.
  - destruct H1 as [H1|(e & He & _)]; [|discriminate He].
    refine (wp_mono _ _ _ _ _ (Hk a b1 w1) _). cbv beta.
    intros r b2 w2 l2 [H2|(e & -> & H2)].
    + left. now apply clean_app.
    + right. exists e. split; [reflexivity|now apply ends_failed_app].
  - destruct H1 as [H1|(e0 & [= ->] & H1)]; [now left|right; eauto].
  - destruct H1 as [H1|(e0 & He & _)]; [now left|discriminate He].
Qed.

(** A request whose exception, if any, is raised at once. *)
Lemma tidy_request (r : result unit) (req : request) (a : answer) (t : Q) :
  post_result req a = r ->
  clean [Post req a t] \/ exists e, r = Raise e /\ ends_failed e [Post req a t].
Proof.
  intros <-. destruct (post_result req a) as [[]|e|] eqn:H.
  - left. apply clean_one. cbn [failure]. now rewrite H.
  - right. exists e. split; [reflexivity|]. exists [], (Post req a t).
    split; [reflexivity|]. split; [constructor|]. cbn [failure]. now rewrite H.
  - left. apply clean_one. cbn [failure]. now rewrite H.
Qed.

Lemma tidy_send_chat E bid id msg rt : tidy (send_chat E bid id msg rt).
Proof. intros b w. apply wp_send_chat. now apply tidy_request. Qed.

Lemma tidy_create_subscription E sid typ bid uid :
  tidy (create_subscription E sid typ bid uid).
Proof. intros b w. apply wp_create_subscription. now apply tidy_request. Qed.

Lemma tidy_lights_passthrough E v : tidy (set_lights_passthrough E v).
Proof.
  intros b w. apply wp_set_lights_passthrough. left. now apply clean_one.
Qed.

Lemma tidy_assert : tidy assert_bot_user_id.
Proof.
  intros b w. apply wp_assert_bot_user_id.
  destruct (bot_user_id b) as [id|]; [destruct (PyStr.nonempty id)|];
    left; constructor.
Qed.

(** One step through a computation made of such parts. *)
Ltac tidy_step :=
  lazymatch goal with
  | |- tidy (bind _ _) => apply tidy_bind; [|intros ?]
  | |- tidy (if ?c then _ else _) => destruct c
  | |- tidy (match ?j with JNull => _ | _ => _ end) => destruct j
  | |- tidy (ret _) => apply tidy_ret
  | |- tidy (raise _) => apply tidy_raise
  | |- tidy blocks => apply tidy_blocks
  | |- tidy (lift _) => apply tidy_lift
  | |- tidy self => apply tidy_self
  | |- tidy (set_self _) => apply tidy_set_self
  | |- tidy (pass _) => apply tidy_pass
  | |- tidy (interact _) => apply tidy_interact
  | |- tidy (time_time _) => apply tidy_time
  | |- tidy (asyncio_sleep _ _) => apply tidy_sleep
  | |- tidy (emit _) => apply tidy_emit; reflexivity
  | |- tidy (print _) => apply tidy_emit; reflexivity
  | |- tidy assert_bot_user_id => apply tidy_assert
  | |- tidy (send_chat _ _ _ _ _) => apply tidy_send_chat
  | |- tidy (create_subscription _ _ _ _ _) => apply tidy_create_subscription
  | |- tidy (set_lights_passthrough _ _) => apply tidy_lights_passthrough
  end.

Lemma tidy_reply E msg rt bid : tidy (_reply E msg rt bid).
Proof. unfold _reply, set_last_send. repeat tidy_step. Qed.

Lemma tidy_prizes E n : tidy (prizes_ E n).
Proof.
  induction n as [|n IH]; cbn [prizes_]; [apply tidy_ret|].
  unfold generate_prize. repeat tidy_step. exact IH.
Qed.

Lemma tidy_commands E text rt bid ch : tidy (_commands E text rt bid ch).
Proof.
  unfold _commands, set_last_lights. cbv zeta.
  repeat lazymatch goal with
    | |- tidy (_reply _ _ _ _) => apply tidy_reply
    | |- tidy (prizes_ _ _) => apply tidy_prizes
    | |- _ => tidy_step
    end.
Qed.

Lemma tidy_handle_notification E payload : tidy (_handle_notification E payload).
Proof.
  unfold _handle_notification, text_arg, chatter_arg.
  repeat lazymatch goal with
    | |- tidy (_commands _ _ _ _ _) => apply tidy_commands
    | |- _ => tidy_step
    end.
Qed.

Lemma tidy_handle_message E raw : tidy (_handle_message E raw).
Proof.
  unfold _handle_message. destruct raw as [msg|r]; [|now apply tidy_emit].
  repeat lazymatch goal with
    | |- tidy (_handle_notification _ _) => apply tidy_handle_notification
    | |- _ => tidy_step
    end.
Qed.

Lemma tidy_subscribe_all E sid uid ids : tidy (subscribe_all E sid uid ids).
Proof.
  induction ids as [|[login bid] ids IH]; cbn [subscribe_all]; [apply tidy_ret|].
  repeat tidy_step. exact IH.
Qed.

Lemma tidy_recv_nothing E A e : tidy (@recv_nothing E A e).
Proof. destruct e; cbn [recv_nothing]; repeat tidy_step. Qed.

Lemma tidy_receive_end E e : tidy (receive_end E e).
Proof. destruct e; cbn [receive_end]; repeat tidy_step. Qed.

Lemma tidy_on_connected E e frames : tidy (_on_connected E frames e).
Proof.
  induction frames as [|raw rest IH]; cbn [_on_connected];
    [apply tidy_recv_nothing|].
  apply tidy_bind; [apply tidy_interact|]. intros _.
  apply tidy_bind; [destruct raw; [apply tidy_ret|apply tidy_raise]|]. intros msg.
  repeat lazymatch goal with
    | |- tidy (_on_connected _ _ _) => exact IH
    | |- tidy (subscribe_all _ _ _ _) => apply tidy_subscribe_all
    | |- _ => tidy_step
    end.
Qed.

Lemma tidy_receive_loop E e frames : tidy (receive_loop E frames e).
Proof.
  induction frames as [|raw rest IH]; cbn [receive_loop];
    [apply tidy_receive_end|].
  apply tidy_bind; [apply tidy_interact|]. intros _.
  apply tidy_bind; [apply tidy_handle_message|]. intros _. exact IH.
Qed.

(** *** What [run] does about a failed request *)

Lemma handled_clean (l1 l2 : list event) :
  clean l1 -> handled l2 -> handled (l1 ++ l2).
Proof.
  induction 1 as [|ev l1 Hev _ IH]; intros H2; [exact H2|].
  cbn [app handled]. rewrite Hev. auto.
Qed.

Lemma handled_failed (e : exn) (l' rest : list event) (ev : event) :
  clean l' -> failure ev = Some e ->
  (rest = [] \/ exists u rest', rest = Connect u :: rest') ->
  handled rest ->
  handled (l' ++ ev :: Close :: PrintExn "Error: {}" e :: Sleep 2 :: rest).
Proof.
  intros Hc Hf Hr Hh. apply handled_clean; [exact Hc|].
  cbn [handled failure]. rewrite Hf. repeat split; [|exact Hh].
  exists rest. split; [reflexivity|exact Hr].
Qed.

(** The failed request found in a log, with what follows it. *)
Lemma handled_at (pre post : list event) (ev : event) (e : exn) :
  handled (pre ++ ev :: post) -> failure ev = Some e -> retried e post.
Proof.
  induction pre as [|x pre IH]; cbn [app handled]; intros [H1 H2] Hf.
  - now rewrite Hf in H1.
  - now apply IH.
Qed.

Lemma connect_clean E c url b w :
  wp (websockets_connect E c url)
     (fun _ _ _ l => clean l /\ exists l0, l = Connect url :: l0) b w.
Proof.
  unfold websockets_connect. wp_steps.
  assert (H : clean ([] ++ [Connect url] ++ [])
              /\ exists l0, ([] ++ [Connect url] ++ [])%list = Connect url :: l0)
    by (split; [now apply clean_one|eexists; reflexivity]).
  destruct url; wp_steps; try exact H.
  destruct (refused c); wp_steps; exact H.
Qed.

(** A session starts with the connection attempt; if a request of the
    session fails, the exception of that request ends it, and closing the
    connection is all that follows. *)
Lemma session_tidy E c url b w :
  wp (session E c url)
     (fun r _ _ l =>
        (exists l0, l = Connect url :: l0)
        /\ exists u r', r = Ok (u, r')
             /\ (clean l
                 \/ exists e l' ev,
                      r' = Raise e /\ l = (l' ++ [ev; Close])%list
                      /\ clean l' /\ failure ev = Some e)) b w.
Proof.
  unfold session. apply wp_bind, wp_try.
  refine (wp_mono _ _ _ _ _ (connect_clean E c url b w) _). cbv beta.
  intros r1 b1 w1 l1 (Hc1 & l0 & ->).
  assert (Hhead : forall l, exists l0', ((Connect url :: l0) ++ l)%list = Connect url :: l0')
    by (intros l; eexists; reflexivity).
  assert (Hclose : clean [Close]) by now apply clean_one.
  destruct r1 as [[]|e|]; cbv beta iota; wp_steps;
    try (split; [apply Hhead|]; eexists; eexists; (split; [reflexivity|]);
         left; rewrite app_nil_r; exact Hc1).
  refine (wp_mono _ _ _ _ _ (tidy_on_connected E (ending c) (incoming c) b1 w1) _).
  cbv beta. intros [[u rest]|e|] b2 w2 l2 H2; cbv beta iota; wp_steps.
  - destruct H2 as [H2|(e & He & _)]; [|discriminate He].
    refine (wp_mono _ _ _ _ _ (tidy_receive_loop E (ending c) rest b2 w2) _).
    cbv beta. intros [[]|e|] b3 w3 l3 H3; cbv beta iota; wp_steps;
      (split; [apply Hhead|]); eexists; eexists; (split; [reflexivity|]).
    + destruct H3 as [H3|(e & He & _)]; [|discriminate He].
      left. repeat apply clean_app; auto. constructor.
    + destruct H3 as [H3|(e0 & [= <-] & l' & ev & -> & Hl' & Hev)].
      * left. repeat apply clean_app; auto. constructor.
      * right. exists e, ((Connect url :: l0) ++ l2 ++ l')%list, ev.
        split; [reflexivity|]. split; [|split; [|exact Hev]].
        -- rewrite <- !app_assoc. reflexivity.
        -- repeat apply clean_app; auto.
    + destruct H3 as [H3|(e & He & _)]; [|discriminate He].
      left. repeat apply clean_app; auto. constructor.
  - split; [apply Hhead|]. eexists; eexists; (split; [reflexivity|]).
    destruct H2 as [H2|(e0 & [= <-] & l' & ev & -> & Hl' & Hev)].
    + left. repeat apply clean_app; auto. constructor.
    + right. exists e, ((Connect url :: l0) ++ l')%list, ev.
      split; [reflexivity|]. split; [|split; [|exact Hev]].
      * rewrite <- !app_assoc. reflexivity.
      * repeat apply clean_app; auto.
  - split; [apply Hhead|]. eexists; eexists; (split; [reflexivity|]).
    destruct H2 as [H2|(e & He & _)]; [|discriminate He].
    left. repeat apply clean_app; auto. constructor.
Qed.

Lemma run_loop_handled E script : forall url b w,
  wp (run_loop E script url)
     (fun _ _ _ l =>
        handled l /\ (l = [] \/ exists u l', l = Connect u :: l')) b w.
Proof.
  induction script as [|c script IH]; intros url b w; cbn [run_loop].
  - wp_steps. split; [exact I|now left].
  - apply wp_bind.
    refine (wp_mono _ _ _ _ _ (session_tidy E c url b w) _). cbv beta.
    intros r b1 w1 l1 ((l0 & Hl1) & u & r' & -> & Hs). cbn [fst snd].
    assert (Hhead : forall l, (l1 ++ l)%list = []
                      \/ exists u0 l', (l1 ++ l)%list = Connect u0 :: l')
      by (intros l; right; rewrite Hl1; eexists; eexists; reflexivity).
    clear Hl1.
    assert (Hnext : forall b2 w2 pre,
               clean pre ->
               (clean l1
                \/ exists e l' ev,
                     l1 = (l' ++ [ev; Close])%list /\ clean l' /\ failure ev = Some e
                     /\ pre = [PrintExn "Error: {}" e; Sleep 2]) ->
               wp (run_loop E script u)
                  (fun _ _ _ l2 =>
                     handled (l1 ++ pre ++ l2)
                     /\ ((l1 ++ pre ++ l2)%list = [] \/
                         exists u0 l', (l1 ++ pre ++ l2)%list = Connect u0 :: l'))
                  b2 w2).
    { intros b2 w2 pre Hpre Hl1. refine (wp_mono _ _ _ _ _ (IH u b2 w2) _). cbv beta.
      intros _ _ _ l2 [Hh Hl2]. split; [|apply Hhead].
      destruct Hl1 as [Hc|(e & l' & ev & -> & Hl' & Hev & ->)].
      - rewrite app_assoc. apply handled_clean; [|exact Hh].
        now apply clean_app.
      - rewrite <- !app_assoc. cbn [app]. now apply handled_failed. }
    assert (Hquiet : forall l, clean l -> clean l1 -> handled (l1 ++ l)%list).
    { intros l Hl Hc. rewrite <- (app_nil_r (l1 ++ l)), <- app_assoc.
      apply handled_clean; [exact Hc|]. apply handled_clean; [exact Hl|exact I]. }
    destruct Hs as [Hc|(e & l' & ev & -> & Heq & Hl' & Hev)].
    + destruct r' as [[]|e|].
      * refine (wp_mono _ _ _ _ _ (Hnext b1 w1 [] (Forall_nil _) (or_introl Hc)) _).
        cbv beta. intros _ _ _ l2 H. exact H.
      * destruct e; wp_steps;
          try (refine (wp_mono _ _ _ _ _
                         (Hnext _ _ [PrintExn _ _; Sleep 2] _ (or_introl Hc)) _);
               [repeat constructor|]; cbv beta; intros _ _ _ l2 H; exact H).
        split; [|apply Hhead]. apply Hquiet; [repeat constructor|exact Hc].
      * wp_steps. split; [|apply Hhead]. apply Hquiet; [constructor|exact Hc].
    + destruct (failure_exn ev e Hev) as [Hk Hcc].
      destruct e; try contradiction; wp_steps;
        (refine (wp_mono _ _ _ _ _
                   (Hnext _ _ [PrintExn "Error: {}" _; Sleep 2] _ _) _);
         [repeat constructor
         |right; eexists; eexists; eexists; repeat split; eassumption
         |cbv beta; intros _ _ _ l2 H; exact H]).
Qed.

Lemma print_broadcasters_clean ids : forall b w,
  wp (print_broadcasters ids) (fun r _ _ l => r = Ok tt /\ clean l) b w.
Proof.
  induction ids as [|[login uid] ids IH]; intros b w; cbn [print_broadcasters];
    wp_steps; [split; [reflexivity|constructor]|].
  refine (wp_mono _ _ _ _ _ (IH b w) _). cbv beta.
  intros r b' w' l [-> Hl]. split; [reflexivity|].
  apply clean_app; [now apply clean_one|exact Hl].
Qed.

(** Every request that fails in a run is dealt with in the same way. *)
Lemma run_handled E script b w : handled (log (run E script b w)).
Proof.
  apply (wp_out (run E script) (fun _ _ _ l => handled l)).
  unfold run, set_bot_user_id, set_broadcaster_ids, set_id_to_login. wp_steps.
  destruct (get_user_id E (bot_login (cfg b))) as [uid|e1|]; wp_steps;
    try exact I.
  destruct (get_user_ids E (broadcaster_logins (cfg b))) as [ids|e2|]; wp_steps;
    try exact I.
  refine (wp_mono _ _ _ _ _ (print_broadcasters_clean ids _ _) _). cbv beta.
  intros r b' w' l [-> Hl].
  refine (wp_mono _ _ _ _ _ (run_loop_handled E script _ _ _) _). cbv beta.
  intros _ _ _ l2 [Hh _]. cbn [app].
  change (handled ([Print "Bot {} -> {}" [JStr (bot_login (cfg b)); JStr uid];
                    Print "Broadcasters:" []] ++ l ++ l2)).
  rewrite app_assoc. apply handled_clean; [|exact Hh].
  apply clean_app; [repeat constructor|exact Hl].
Qed.

(** C4, as amended.  A 401 on a subscription or on a chat post raises a
    [RuntimeError] like any other failed request, and it is not fatal:
    wherever such a request stands in the log of a run, what follows it
    is the closing of the connection, the printed error, a sleep of two
    seconds and then, unless the log ends there, the next connection
    attempt; and as long as no connection is interrupted from the
    keyboard or goes silent, the loop attempts every connection of the
    script and is still running at its end, whatever the requests are
    answered. *)
Theorem unauthorized_not_fatal E :
  (forall sid typ bid uid b w text j,
      http E (tick w) = Response 401 text j ->
      res (create_subscription E sid typ bid uid b w)
      = Raise (RuntimeError
                 "Unauthorized to create EventSub subscription; check token/scopes"))
  /\ (forall bid id msg rt b w text j,
         http E (tick w) = Response 401 text j ->
         res (send_chat E bid id msg rt b w)
         = Raise (RuntimeError
                    "Unauthorized: check user token and scopes (user:read:chat user:write:chat user:bot)"))
  /\ (forall script b w pre req text j t post msg,
         log (run E script b w)
         = (pre ++ Post req (Response 401 text j) t :: post)%list ->
         unauthorized_message req = Some msg ->
         exists rest,
           post = Close :: PrintExn "Error: {}" (RuntimeError msg) :: Sleep 2 :: rest
           /\ (rest = [] \/ exists u rest', rest = Connect u :: rest'))
  /\ (forall script url b w,
         Forall ordinary script ->
         let o := run_loop E script url b w in
         (exists u, res o = Ok (StillRunning u))
         /\ List.length (connects (log o)) = List.length script).
Proof.
  split; [|split; [|split]].
  - intros sid typ bid uid b w text j H.
    apply (wp_out (create_subscription E sid typ bid uid)
             (fun r _ _ _ => r = Raise (RuntimeError
                "Unauthorized to create EventSub subscription; check token/scopes"))).
    apply wp_create_subscription. now rewrite H.
  - intros bid id msg rt b w text j H.
    apply (wp_out (send_chat E bid id msg rt)
             (fun r _ _ _ => r = Raise (RuntimeError
                "Unauthorized: check user token and scopes (user:read:chat user:write:chat user:bot)"))).
    apply wp_send_chat. now rewrite H.
  - intros script b w pre req text j t post msg Hlog Hmsg.
    pose proof (run_handled E script b w) as Hh. rewrite Hlog in Hh.
    apply (handled_at _ _ _ (RuntimeError msg) Hh).
    destruct req; cbn in Hmsg |- *; [| |discriminate Hmsg];
      injection Hmsg as <-; reflexivity.
  - intros script url b w H. cbv zeta.
    pose proof (steady_run_loop E script url b w H) as G.
    apply wp_out in G. exact G.
Qed.



(** *** Runs on the sample scripts *)

(** C1.  A reconnect frame read by the receive loop is only printed: the
    URL it carries is dropped, and the next connection attempt goes to the
    default URL, not to the one the server supplied.  (The subscriptions
    are then created once against the new session.) *)
Theorem reconnect_url_dropped :
  (forall E url b w,
      _handle_message E (reconnect_frame url) b w
      = Out (Ok tt) b w [Print "Reconnect hint received" []])
  /\ let o := run calm reconnect_script (__init__ sample_config) sample_world in
     connects (log o) = [JStr EVENTSUB_WS_URL; JStr EVENTSUB_WS_URL]
     /\ ~ In (JStr "wss://new.example/ws") (connects (log o))
     /\ subscriptions (log o) = [("id_alice", JStr "s1"); ("id_alice", JStr "s2")].
Proof.
  split; [reflexivity|]. vm_compute. repeat split.
  intros [H|[H|[]]]; discriminate H.
Qed.

(** C4, as stated, fails: after a 401 on the subscription request the
    process does not stop; the error is printed and the bot connects
    again. *)
Lemma unauthorized_retried :
  let o := run unauthorized chat_script (__init__ sample_config) sample_world in
  res o = Ok (StillRunning (JStr EVENTSUB_WS_URL))
  /\ connects (log o) = [JStr EVENTSUB_WS_URL; JStr EVENTSUB_WS_URL]
  /\ errors (log o)
     = [RuntimeError "Unauthorized to create EventSub subscription; check token/scopes";
        RuntimeError "Unauthorized to create EventSub subscription; check token/scopes"].
Proof. vm_compute. repeat split. Qed.


(** *** Instances *)

Lemma extract_plain_text_concat_witness :
  Py.assoc "fragments"
    [("fragments", JArr [JObj [("text", JStr "a")]; JObj [("type", JStr "emote")]])]
  = Some (JArr [JObj [("text", JStr "a")]; JObj [("type", JStr "emote")]])
  /\ forallb is_fragment [JObj [("text", JStr "a")]; JObj [("type", JStr "emote")]] = true
  /\ extract_plain_text_from_message
       (JObj [("fragments",
               JArr [JObj [("text", JStr "a")]; JObj [("type", JStr "emote")]])])
     = Ok (JStr "a").
Proof.
  split; [reflexivity|]. split; [reflexivity|].
  exact (proj1 extract_plain_text_concat
           [("fragments", JArr [JObj [("text", JStr "a")]; JObj [("type", JStr "emote")]])]
           [JObj [("text", JStr "a")]; JObj [("type", JStr "emote")]]
           eq_refl eq_refl).
Defined.

Lemma commands_strip_whitespace_witness :
  PyStr.all_chars PyStr.isspace "  " = true
  /\ PyStr.all_chars PyStr.isspace " " = true
  /\ _commands calm (Some ("  " ++ "!hello" ++ " ")) JNull (JStr "7") None
     = _commands calm (Some "!hello") JNull (JStr "7") None.
Proof.
  split; [reflexivity|]. split; [reflexivity|].
  exact (proj1 (commands_strip_whitespace calm "  " "!hello" " " JNull (JStr "7") None
                  eq_refl eq_refl)).
Defined.

Lemma commands_unknown_silent_witness :
  PyStr.isascii "!xyzzy 1" = true
  /\ PyStr.startswith (PyStr.strip "!xyzzy 1") "!" = true
  /\ command_word (PyStr.lower (PyStr.strip "!xyzzy 1")) = "!xyzzy"
  /\ _commands calm (Some "!xyzzy 1") JNull (JStr "7") None sample_bot sample_world
     = Out (Ok tt) sample_bot sample_world [].
Proof.
  split; [reflexivity|]. split; [reflexivity|]. split; [reflexivity|].
  exact (proj1 (commands_unknown_silent calm "!xyzzy 1" JNull (JStr "7") None
                  sample_bot sample_world eq_refl eq_refl)
           ltac:(discriminate) ltac:(discriminate) ltac:(discriminate)
           eq_refl eq_refl).
Defined.

Lemma echo_verbatim_witness :
  PyStr.isascii "  !Echo   Hi  There " = true
  /\ PyStr.strip "  !Echo   Hi  There " = "!Echo " ++ "  Hi  There"
  /\ PyStr.lower "!Echo " = "!echo "
  /\ ready sample_bot = true
  /\ sent (log (_commands calm (Some "  !Echo   Hi  There ") JNull (JStr "7")
                  None sample_bot sample_world)) = ["  Hi  There"].
Proof.
  split; [reflexivity|]. split; [reflexivity|]. split; [reflexivity|].
  split; [reflexivity|].
  exact (proj1 (proj1 (echo_verbatim calm JNull (JStr "7") None sample_bot sample_world)
                  "  !Echo   Hi  There " "!Echo " "  Hi  There"
                  eq_refl eq_refl eq_refl eq_refl)).
Defined.


Lemma lights_cooldown_witness :
  let b := with_last_lights sample_bot 900 in
  PyStr.isascii "!lights red" = true
  /\ ready b = true
  /\ PyStr.startswith (PyStr.lower (PyStr.strip "!lights red")) "!lights" = true
  /\ PyStr.nonempty (PyStr.strip (PyStr.drop 7 (PyStr.strip "!lights red"))) = true
  /\ 0 < 300 - (clock (advance calm sample_world) - _last_lights b)
  /\ sent (log (_commands calm (Some "!lights red") JNull (JStr "7") None
                  b sample_world))
     = ["Lights cooldown: try again in 3m 19s"].
Proof.
  cbv zeta.
  split; [reflexivity|].
  split; [reflexivity|]. split; [reflexivity|]. split; [reflexivity|].
  assert (H : 0 < 300 - (clock (advance calm sample_world)
                         - _last_lights (with_last_lights sample_bot 900)))
    by (vm_compute; reflexivity).
  split; [exact H|].
  destruct (proj1 (lights_cooldown calm "!lights red" JNull (JStr "7") None
                     (with_last_lights sample_bot 900) sample_world
                     eq_refl eq_refl eq_refl eq_refl) H) as (_ & Hs & _).
  rewrite Hs. vm_compute. reflexivity.
Defined.

Lemma sends_paced_witness :
  (forall n, 0 <= elapse calm n)
  /\ (forall l1 t1 l2 t2 l3,
         send_times (log (run calm chat_script (__init__ sample_config) sample_world))
         = (l1 ++ t1 :: l2 ++ t2 :: l3)%list ->
         t1 + (12 # 10) <= t2).
Proof.
  assert (H : forall n, 0 <= elapse calm n) by (intros n; cbn; discriminate).
  split; [exact H|].
  exact (proj1 (sends_paced calm H) chat_script sample_config sample_world).
Defined.

Lemma unauthorized_not_fatal_witness :
  let l := log (run unauthorized chat_script (__init__ sample_config) sample_world) in
  let req := eventsub_subscriptions "channel.chat.message" "1" "id_alice" "42"
               (JStr "s1") in
  l = (firstn 5 l ++ Post req (Response 401 "bad token" true) (100050000 # 100000)
         :: skipn 6 l)%list
  /\ unauthorized_message req
     = Some "Unauthorized to create EventSub subscription; check token/scopes"
  /\ exists rest,
       skipn 6 l
       = Close
         :: PrintExn "Error: {}"
              (RuntimeError
                 "Unauthorized to create EventSub subscription; check token/scopes")
         :: Sleep 2 :: rest
       /\ (rest = [] \/ exists u rest', rest = Connect u :: rest').
Proof.
  cbv zeta.
  match goal with |- ?P /\ _ => assert (Hlog : P) by (vm_compute; reflexivity) end.
  split; [exact Hlog|]. split; [reflexivity|].
  exact (proj1 (proj2 (proj2 (unauthorized_not_fatal unauthorized)))
           chat_script (__init__ sample_config) sample_world _ _ _ _ _ _ _
           Hlog eq_refl).
Defined.


(** *** More on the command processor *)

Lemma lights_calls_app (l1 l2 : list event) :
  lights_calls (l1 ++ l2) = (lights_calls l1 ++ lights_calls l2)%list.
Proof.
  induction l1 as [|e l1 IH]; [reflexivity|].
  destruct e as [| | |[] | | |]; cbn; rewrite ?IH; reflexivity.
Qed.

Lemma phrases_app (l1 l2 : list event) :
  phrases (l1 ++ l2) = (phrases l1 ++ phrases l2)%list.
Proof.
  induction l1 as [|e l1 IH]; [reflexivity|].
  destruct e; cbn; rewrite ?IH; reflexivity.
Qed.

(** Splits [_commands] along its [if]/[elif] chain and runs each branch up
    to its reply. *)
Ltac commands_cases Hr :=
  unfold _commands; cbv zeta;
  repeat lazymatch goal with
    | |- wp (if ?c then _ else _) _ _ _ =>
        let Hc := fresh "Hc" in destruct c eqn:Hc
    | |- wp (_reply _ _ _ _) _ _ _ => wp_reply_facts Hr
    | |- wp (set_lights_passthrough _ _) _ _ _ =>
        apply wp_set_lights_passthrough; cbv beta iota
    | |- wp (set_last_lights _) _ _ _ => unfold set_last_lights
    | |- wp (prizes_ _ _) _ _ _ => apply wp_prizes; cbv beta iota
    | |- wp _ _ _ _ => wp_step
    end.

Lemma eqb_not_lights (lower p : string) :
  String.eqb lower p = true -> PyStr.startswith p "!lights" = false ->
  PyStr.startswith lower "!lights" = false.
Proof. intros H Hp. apply String.eqb_eq in H. now subst. Qed.

Lemma echo_not_lights (lower : string) :
  PyStr.startswith lower "!echo " = true -> PyStr.startswith lower "!lights" = false.
Proof. intros H. rewrite (startswith_split _ _ H). reflexivity. Qed.

Lemma lights_not_help (lower : string) :
  PyStr.startswith lower "!lights" = true ->
  String.eqb lower "!help" = false /\ PyStr.startswith lower "!prize" = false.
Proof. intros H. rewrite (startswith_split _ _ H). split; reflexivity. Qed.

Lemma sent_prizes (ps : list string) : sent (map GeneratePrize ps) = [].
Proof. induction ps as [|p ps IH]; [reflexivity|exact IH]. Qed.

(** X1.  A bot that can send answers every text (in ASCII and of at most
    4300 characters, the most digits [int] accepts) with at most one chat
    message: exactly one when the stripped text starts with [!] and is a
    recognised command, none otherwise. *)
Theorem commands_one_reply E text rt bid ch b w :
  ascii_text text = true ->
  (String.length (match text with Some s => s | None => "" end) <= 4300)%nat ->
  ready b = true ->
  let t := PyStr.strip (match text with Some s => s | None => "" end) in
  List.length (sent (log (_commands E text rt bid ch b w)))
  = if PyStr.startswith t "!" && recognized (PyStr.lower t) then 1%nat else 0%nat.
Proof.
  intros _ _ Hr. cbv zeta.
  apply (wp_out (_commands E text rt bid ch)
           (fun _ _ _ l =>
              List.length (sent l)
              = if PyStr.startswith
                     (PyStr.strip (match text with Some s => s | None => "" end)) "!"
                   && recognized
                        (PyStr.lower
                           (PyStr.strip (match text with Some s => s | None => "" end)))
                then 1%nat else 0%nat)).
  unfold recognized. commands_cases Hr;
    try (intros r b' w' l (Hs & _));
    rewrite ?sent_app, ?Hs, ?sent_prizes;
    repeat match goal with
      | H : negb _ = _ |- _ =>
          apply (f_equal negb) in H; rewrite negb_involutive in H; cbn [negb] in H
      end;
    repeat match goal with
      | H : _ = true |- _ => rewrite H
      | H : _ = false |- _ => rewrite H
      end;
    cbn [andb orb]; rewrite ?orb_true_r; reflexivity.
Qed.

Lemma lights_calls_prizes (ps : list string) : lights_calls (map GeneratePrize ps) = [].
Proof. induction ps as [|p ps IH]; [reflexivity|exact IH]. Qed.

(** X2.  Only [!lights] with a value reaches the lighting service (the
    text being ASCII): every other text makes no passthrough call and
    leaves the cooldown clock alone, and [!lights] without a value is
    answered with the usage line. *)
Theorem passthrough_only_from_lights E text rt bid ch b w :
  ascii_text text = true ->
  ready b = true ->
  let t := PyStr.strip (match text with Some s => s | None => "" end) in
  PyStr.startswith (PyStr.lower t) "!lights"
    && PyStr.nonempty (PyStr.strip (PyStr.drop 7 t)) = false ->
  let o := _commands E text rt bid ch b w in
  lights_calls (log o) = []
  /\ _last_lights (self_ o) = _last_lights b
  /\ (PyStr.startswith (PyStr.lower t) "!lights" = true ->
      sent (log o) = ["Usage: !lights <colour name or #hex>"]).
Proof.
  intros _ Hr. cbv zeta. intros Hno.
  apply (wp_out (_commands E text rt bid ch)
           (fun _ b' _ l =>
              lights_calls l = []
              /\ _last_lights b' = _last_lights b
              /\ (PyStr.startswith
                    (PyStr.lower
                       (PyStr.strip (match text with Some s => s | None => "" end)))
                    "!lights" = true ->
                  sent l = ["Usage: !lights <colour name or #hex>"]))).
  commands_cases Hr;
    change (String.length "!lights") with 7%nat in *;
    try (intros r b' w' l (Hs & Hl & _ & _ & _ & Hk & _));
    rewrite ?lights_calls_app, ?sent_app, ?Hs, ?Hl, ?lights_calls_prizes;
    repeat match goal with
      | H : negb _ = _ |- _ =>
          apply (f_equal negb) in H; rewrite negb_involutive in H; cbn [negb] in H
      end;
    try (exfalso;
         repeat match goal with
           | H : _ = true |- _ => rewrite H in Hno
           end;
         discriminate Hno).
  all: repeat split; try reflexivity; try assumption.
  all: intros Hx; try discriminate Hx; try reflexivity.
  - apply bang_of_lower in Hx. rewrite Hx in Hc. discriminate Hc.
  - rewrite (eqb_not_lights _ _ Hc0 eq_refl) in Hx. discriminate Hx.
  - rewrite (echo_not_lights _ Hc1) in Hx. discriminate Hx.
Qed.

(** *** The cooldown message *)

#[local] Transparent Qplus Qminus Qmult Qdiv Qopp Qinv.

(** X3.  The minutes and seconds of the cooldown message are the whole
    seconds that remain, split at 60: both are not negative, the seconds
    are below 60, and a remainder of at most 300 seconds shows at most 5
    minutes. *)
Theorem cooldown_message_minutes_seconds (remaining : Q) :
  0 < remaining ->
  let mins := Qfloor (remaining / 60) in
  let secs := Qfloor (remaining - 60 * inject_Z mins) in
  cooldown_message remaining
  = "Lights cooldown: try again in " ++ PyStr.of_Z mins ++ "m "
      ++ PyStr.of_Z secs ++ "s"
  /\ (0 <= mins)%Z /\ (0 <= secs < 60)%Z
  /\ (60 * mins + secs)%Z = Qfloor remaining
  /\ (remaining <= 300 -> (mins <= 5)%Z).
Proof.
  intros Hpos mins secs. split; [reflexivity|].
  pose proof (Qfloor_le (remaining / 60)) as H1.
  pose proof (Qlt_floor (remaining / 60)) as H2.
  fold mins in H1, H2. rewrite inject_Z_plus in H2.
  change (inject_Z 1) with 1 in H2.
  change (remaining / 60) with (remaining * (1 # 60)) in H1, H2.
  set (x := remaining - 60 * inject_Z mins) in *.
  assert (Hx : 0 <= x /\ x < 60) by (unfold x; split; lra).
  pose proof (Qfloor_le x) as H3. pose proof (Qlt_floor x) as H4.
  fold secs in H3, H4. rewrite inject_Z_plus in H4.
  change (inject_Z 1) with 1 in H4.
  assert (Hm : (0 <= mins)%Z).
  { apply Z.lt_succ_r. rewrite <- Z.add_1_r. rewrite Zlt_Qlt, inject_Z_plus.
    change (inject_Z 1) with 1. change (inject_Z 0) with 0. lra. }
  assert (Hs0 : (0 <= secs)%Z).
  { apply Z.lt_succ_r. rewrite <- Z.add_1_r. rewrite Zlt_Qlt, inject_Z_plus.
    change (inject_Z 1) with 1. change (inject_Z 0) with 0. lra. }
  assert (Hs1 : (secs < 60)%Z).
  { rewrite Zlt_Qlt. change (inject_Z 60) with 60. lra. }
  repeat split; try assumption.
  - symmetry. apply Qfloor_unique.
    + rewrite inject_Z_plus, inject_Z_mult. change (inject_Z 60) with 60.
      unfold x in H3. lra.
    + rewrite !inject_Z_plus, inject_Z_mult. change (inject_Z 60) with 60.
      change (inject_Z 1) with 1. unfold x in H4. lra.
  - intros Hle. apply Z.lt_succ_r. rewrite <- Z.add_1_r.
    rewrite Zlt_Qlt, inject_Z_plus. change (inject_Z 1) with 1.
    change (inject_Z 5) with 5. lra.
Qed.

(** *** Two [!lights] in a row *)

(** One [!lights] with a value, with what it leaves behind. *)
Lemma lights_step E text rt bid ch b w :
  ready b = true ->
  PyStr.startswith (PyStr.lower (PyStr.strip text)) "!lights" = true ->
  PyStr.nonempty (PyStr.strip (PyStr.drop 7 (PyStr.strip text))) = true ->
  let arg := PyStr.strip (PyStr.drop 7 (PyStr.strip text)) in
  let now := clock (advance E w) in
  let remaining := 300 - (now - _last_lights b) in
  let o := _commands E (Some text) rt bid ch b w in
  ready (self_ o) = true
  /\ (0 < remaining ->
        lights_calls (log o) = []
        /\ sent (log o) = [cooldown_message remaining]
        /\ _last_lights (self_ o) = _last_lights b)
  /\ (remaining <= 0 ->
        lights_calls (log o) = [arg]
        /\ _last_lights (self_ o)
           = if fst (lights_result (http E (S (tick w)))) then now
             else _last_lights b).
Proof.
  intros Hr H Harg arg now remaining. cbv zeta.
  rewrite (commands_lights E text rt bid ch H). cbv zeta.
  fold arg in Harg |- *. rewrite Harg. cbn [negb].
  match goal with |- context [log (?m b w)] => set (m0 := m) end.
  assert (G : wp m0 (fun _ b' _ l =>
      ready b' = true
      /\ (0 < remaining ->
            lights_calls l = [] /\ sent l = [cooldown_message remaining]
            /\ _last_lights b' = _last_lights b)
      /\ (remaining <= 0 ->
            lights_calls l = [arg]
            /\ _last_lights b'
               = if fst (lights_result (http E (S (tick w)))) then now
                 else _last_lights b)) b w).
  { unfold m0. wp_steps.
    change (clock w + elapse E (tick w)) with now. fold remaining.
    destruct (Qlt_le_dec 0 remaining) as [Hpos|Hneg].
    - wp_reply_facts Hr.
      intros r b' w' l (Hs & Hl & _ & _ & _ & Hk & Hr' & _).
      log_norm. split; [exact Hr'|]. split; [auto|]. intros Hle. exfalso.
      apply (Qlt_irrefl 0). eapply Qlt_le_trans; eassumption.
    - wp_step. apply wp_set_lights_passthrough. cbv beta iota.
      cbn [tick clock advance].
      destruct (lights_result (http E (S (tick w)))) as [[|] m]; cbn [fst snd];
        wp_steps.
      + unfold set_last_lights. wp_steps.
        wp_reply_facts Hr.
        intros r b' w' l (Hs & Hl & _ & _ & _ & Hk & Hr' & _).
        split; [exact Hr'|]. split.
        * intros Hpos. exfalso.
          apply (Qlt_irrefl 0). eapply Qlt_le_trans; eassumption.
        * intros _. log_norm. rewrite Hl. auto.
      + wp_reply_facts Hr.
        intros r b' w' l (Hs & Hl & _ & _ & _ & Hk & Hr' & _).
        split; [exact Hr'|]. split.
        * intros Hpos. exfalso.
          apply (Qlt_irrefl 0). eapply Qlt_le_trans; eassumption.
        * intros _. log_norm. rewrite Hl. auto. }
  apply wp_out in G. exact G.
Qed.

(** X4.  (For ASCII texts.)  After a [!lights] that went through, a
    second [!lights] less than 300 seconds later is told the minutes and
    seconds left and makes no call, and one 300 seconds later or more
    goes through again; after a
    [!lights] whose call failed, the next one calls the lighting service
    again however soon it comes. *)
Theorem lights_second_call E text text2 rt bid ch b w w2 :
  PyStr.isascii text = true -> PyStr.isascii text2 = true ->
  ready b = true ->
  PyStr.startswith (PyStr.lower (PyStr.strip text)) "!lights" = true ->
  PyStr.nonempty (PyStr.strip (PyStr.drop 7 (PyStr.strip text))) = true ->
  PyStr.startswith (PyStr.lower (PyStr.strip text2)) "!lights" = true ->
  PyStr.nonempty (PyStr.strip (PyStr.drop 7 (PyStr.strip text2))) = true ->
  let now := clock (advance E w) in
  let now2 := clock (advance E w2) in
  300 - (now - _last_lights b) <= 0 ->
  now <= now2 ->
  let o := _commands E (Some text) rt bid ch b w in
  let o2 := _commands E (Some text2) rt bid ch (self_ o) w2 in
  let left := 300 - (now2 - now) in
  let mins := Qfloor (left / 60) in
  let secs := Qfloor (left - 60 * inject_Z mins) in
  if fst (lights_result (http E (S (tick w))))
  then (now2 - now < 300 ->
          lights_calls (log o2) = []
          /\ sent (log o2)
             = ["Lights cooldown: try again in " ++ PyStr.of_Z mins ++ "m "
                  ++ PyStr.of_Z secs ++ "s"])
       /\ (300 <= now2 - now ->
             lights_calls (log o2) = [PyStr.strip (PyStr.drop 7 (PyStr.strip text2))])
  else lights_calls (log o2) = [PyStr.strip (PyStr.drop 7 (PyStr.strip text2))].
Proof.
  intros _ _ Hr H1 A1 H2 A2 now now2 Hrem Hlater o o2 left mins secs.
  destruct (lights_step E text rt bid ch b w Hr H1 A1) as (Hr1 & _ & Hcall).
  destruct (Hcall Hrem) as [_ Hlast]. fold o in Hr1, Hlast.
  destruct (lights_step E text2 rt bid ch (self_ o) w2 Hr1 H2 A2) as (_ & Hcool & Hgo).
  fold o2 in Hcool, Hgo. fold now2 in Hcool, Hgo. fold now in Hlast.
  rewrite Hlast in Hcool, Hgo.
  destruct (fst (lights_result (http E (S (tick w))))).
  - split.
    + intros Hlt. assert (Hp : 0 < 300 - (now2 - now)) by lra.
      destruct (Hcool Hp) as (Hc1 & Hc2 & _). split; [exact Hc1|].
      unfold cooldown_message in Hc2. exact Hc2.
    + intros Hge. apply Hgo. lra.
  - apply Hgo. fold now in Hrem. lra.
Qed.


(** *** What a reply leaves in the bot *)

Lemma reply_stamp E msg rt bid b w :
  wp (_reply E msg rt bid)
     (fun r b' w' _ =>
        match r with
        | Ok _ => b' = with_last_send b (clock w')
        | _ => b' = b
        end) b w.
Proof.
  destruct (ready b) eqn:Hr.
  - unfold ready in Hr. destruct (bot_user_id b) as [id|] eqn:Hid; [|discriminate].
    apply (wp_reply E msg rt bid _ b w id Hid Hr). cbv zeta.
    match goal with
    | |- context [chat_result ?a] => destruct (chat_result a)
    end; reflexivity.
  - apply wp_reply_unready; [exact Hr|reflexivity].
Qed.

(** X5.  A command whose reply fails, for whatever reason, does not touch
    the time of the last send: a send that did not go through is not
    counted by the limiter.  A command that returns either sent nothing
    and left that time alone, or recorded the clock as it was when the
    post had returned. *)
Theorem failed_reply_not_stamped E text rt bid ch b w :
  let o := _commands E text rt bid ch b w in
  (res o <> Ok tt -> _last_send (self_ o) = _last_send b)
  /\ (res o = Ok tt ->
      (sent (log o) = [] /\ _last_send (self_ o) = _last_send b)
      \/ _last_send (self_ o) = clock (world_ o)).
Proof.
  cbv zeta.
  apply (wp_out (_commands E text rt bid ch)
           (fun r b' w' l =>
              (r <> Ok tt -> _last_send b' = _last_send b)
              /\ (r = Ok tt ->
                  (sent l = [] /\ _last_send b' = _last_send b)
                  \/ _last_send b' = clock w'))).
  unfold _commands; cbv zeta;
    repeat lazymatch goal with
      | |- wp (if ?c then _ else _) _ _ _ => destruct c
      | |- wp (_reply ?E0 ?m ?r0 ?b0) _ ?b1 ?w1 =>
          refine (wp_mono _ _ _ _ _ (reply_stamp E0 m r0 b0 b1 w1) _); cbv beta
      | |- wp (set_lights_passthrough _ _) _ _ _ =>
          apply wp_set_lights_passthrough; cbv beta iota
      | |- wp (set_last_lights _) _ _ _ => unfold set_last_lights
      | |- wp (prizes_ _ _) _ _ _ => apply wp_prizes; cbv beta iota
      | |- wp _ _ _ _ => wp_step
      end.
  all: try (intros [[]|e|] b' w' l ->; cbn [_last_send with_last_send];
            split; intros Hres; try discriminate Hres; try congruence;
            try (right; reflexivity); try reflexivity).
  all: split; [intros Hres; congruence|intros _; left; split; reflexivity].
Qed.


(** *** The subscriptions of a handshake *)

Lemma subscriptions_app (l1 l2 : list event) :
  subscriptions (l1 ++ l2) = (subscriptions l1 ++ subscriptions l2)%list.
Proof.
  induction l1 as [|e l1 IH]; [reflexivity|].
  destruct e as [| | |[] | | |]; cbn; rewrite ?IH; reflexivity.
Qed.



(** *** How the loop of [run] can end *)

Lemma reply_benign E msg rt bid b w :
  wp (_reply E msg rt bid) (fun r _ _ _ => benign r) b w.
Proof.
  refine (wp_mono _ _ _ _ _ (steady_reply E msg rt bid b w [] eq_refl) _).
  cbv beta. intros [a|e|] b' w' l H; cbn; [exact I|exact (proj2 H)|exact H].
Qed.

Section Outcome.

Variable E : env.
Variable en : conn_end.

Lemma outcome_raise e b w h :
  e <> KeyboardInterrupt -> any_state b w h -> interrupt_only en e b w h.
Proof. intros He _ Hk. contradiction. Qed.

Lemma outcome_reply msg rt bid :
  safe any_state (interrupt_only en) (silent_only en) (_reply E msg rt bid).
Proof.
  intros b w h _.
  refine (wp_mono _ _ _ _ _ (reply_benign E msg rt bid b w) _). cbv beta.
  intros [a|e|] b' w' l H; cbn in H; [exact I|intros Hk; contradiction|contradiction].
Qed.

Lemma outcome_recv_nothing A :
  safe any_state (interrupt_only en) (silent_only en) (@recv_nothing E A en).
Proof.
  intros b w h _. unfold interrupt_only.
  destruct en; cbn [recv_nothing]; wp_steps; intros Hk;
    try discriminate Hk; reflexivity.
Qed.

Lemma outcome_receive_end :
  safe any_state (interrupt_only en) (silent_only en) (receive_end E en).
Proof.
  intros b w h _. unfold interrupt_only, silent_only.
  destruct en; cbn [receive_end]; wp_steps;
    try exact I; try reflexivity; intros Hk; try discriminate Hk; reflexivity.
Qed.

Lemma outcome_on_connected frames :
  safe any_state (interrupt_only en) (silent_only en) (_on_connected E frames en).
Proof.
  apply safe_on_connected;
    [ exact outcome_raise | intros; exact I | intros; exact I | intros; exact I
    | exact outcome_recv_nothing ].
Qed.

Lemma outcome_receive_loop frames :
  safe any_state (interrupt_only en) (silent_only en) (receive_loop E frames en).
Proof.
  apply safe_receive_loop;
    [ exact outcome_raise | intros; exact I | intros; exact I | intros; exact I
    | exact outcome_reply | intros; exact I | intros; exact I
    | exact outcome_receive_end ].
Qed.

End Outcome.

Lemma outcome_session E c url b w :
  wp (session E c url)
     (fun r _ _ _ =>
        exists u r', r = Ok (u, r')
          /\ (r' = Raise KeyboardInterrupt -> interrupts c)
          /\ (r' = Blocks -> ending c = Silent)) b w.
Proof.
  unfold session, websockets_connect, interrupts. wp_steps.
  destruct url; wp_steps;
    try (eexists; eexists; split; [reflexivity|]; split; discriminate).
  destruct (refused c) as [e|] eqn:Hc; wp_steps.
  - eexists; eexists; split; [reflexivity|]. split; [|discriminate].
    intros [= ->]. now right.
  - refine (wp_mono _ _ _ _ _
              (outcome_on_connected E (ending c) (incoming c) b _ [] I) _).
    cbv beta. intros [[u rest]|e|] b2 w2 l2 H2; wp_steps.
    + refine (wp_mono _ _ _ _ _
                (outcome_receive_loop E (ending c) rest b2 w2 [] I) _).
      cbv beta. intros [[]|e|] b3 w3 l3 H3; wp_steps;
        eexists; eexists; (split; [reflexivity|]); split;
        try discriminate.
      * intros [= ->]. left. now apply H3.
      * intros _. exact H3.
    + eexists; eexists; (split; [reflexivity|]); split; [|discriminate].
      intros [= ->]. left. now apply H2.
    + eexists; eexists; (split; [reflexivity|]); split; [discriminate|].
      intros _. exact H2.
Qed.

Lemma outcome_run_loop E script : forall url b w,
  wp (run_loop E script url)
     (fun r _ _ _ =>
        (exists x, r = Ok x)
        /\ (r = Ok Returned -> Exists interrupts script)
        /\ (r = Ok Waiting -> Exists (fun c => ending c = Silent) script)) b w.
Proof.
  induction script as [|c script IH]; intros url b w; cbn [run_loop].
  - wp_steps. split; [eauto|]. split; discriminate.
  - apply wp_bind.
    refine (wp_mono _ _ _ _ _ (outcome_session E c url b w) _). cbv beta.
    intros r b1 w1 l1 (u & r' & -> & Hk & Hb). cbn [fst snd].
    assert (Hnext : forall b2 w2,
               wp (run_loop E script u)
                  (fun r _ _ _ =>
                     (exists x, r = Ok x)
                     /\ (r = Ok Returned -> Exists interrupts (c :: script))
                     /\ (r = Ok Waiting ->
                         Exists (fun c0 => ending c0 = Silent) (c :: script)))
                  b2 w2).
    { intros b2 w2. refine (wp_mono _ _ _ _ _ (IH u b2 w2) _). cbv beta.
      intros r b3 w3 l3 (Hx & Hr & Hw). split; [exact Hx|].
      split; intros H; apply Exists_cons_tl; auto. }
    assert (G : forall fmt e,
               wp (emit (PrintExn fmt e) ;; asyncio_sleep E 2 ;; run_loop E script u)
                  (fun r _ _ _ =>
                     (exists x, r = Ok x)
                     /\ (r = Ok Returned -> Exists interrupts (c :: script))
                     /\ (r = Ok Waiting ->
                         Exists (fun c0 => ending c0 = Silent) (c :: script)))
                  b1 w1).
    { intros fmt e. wp_steps. apply Hnext. }
    destruct r' as [[]|e|]; [apply Hnext|destruct e; try apply G|].
    + wp_steps. split; [eauto|]. split; [|discriminate].
      intros _. apply Exists_cons_hd. now apply Hk.
    + wp_steps. split; [eauto|]. split; [discriminate|].
      intros _. apply Exists_cons_hd. now apply Hb.
Qed.


(** *** A reconnect request in the handshake *)

Lemma wp_any {A} (m : M A) (Q : result A -> bot -> world -> list event -> Prop) b w :
  (forall r b' w' l, Q r b' w' l) -> wp m Q b w.
Proof. intros H. unfold wp. destruct (m b w). apply H. Qed.

Lemma log_bind {A B} (m : M A) (k : A -> M B) b w :
  exists l', log (bind m k b w) = (log (m b w) ++ l')%list.
Proof.
  unfold bind. destruct (m b w) as [[a|e|] b1 w1 l1]; cbn [log].
  - destruct (k a b1 w1); cbn [log]; eauto.
  - exists []. now rewrite app_nil_r.
  - exists []. now rewrite app_nil_r.
Qed.

Lemma log_try {A} (m : M A) b w : log (try_ m b w) = log (m b w).
Proof. unfold try_. now destruct (m b w). Qed.

Lemma websockets_connect_log E c u b w :
  exists tl, log (websockets_connect E c u b w) = Connect u :: tl.
Proof.
  assert (H : wp (websockets_connect E c u)
                 (fun _ _ _ l => exists tl, l = Connect u :: tl) b w).
  { unfold websockets_connect. wp_steps. apply wp_any. intros. cbn [app]. eauto. }
  apply wp_out in H. exact H.
Qed.

(** Every turn of the loop starts with a connection attempt at the
    current URL. *)
Lemma run_loop_first_connect E c script u b w :
  exists tail, connects (log (run_loop E (c :: script) u b w)) = u :: tail.
Proof.
  cbn [run_loop].
  match goal with
  | |- context [log (bind ?m ?k b w)] => destruct (log_bind m k b w) as [l1 ->]
  end.
  unfold session.
  match goal with
  | |- context [log (bind ?m ?k b w)] => destruct (log_bind m k b w) as [l2 ->]
  end.
  rewrite log_try. destruct (websockets_connect_log E c u b w) as [tl ->].
  cbn [app connects]. eauto.
Qed.

Lemma on_connected_reconnect E msg p s ru rest e b w :
  message_type msg = Ok (JStr "session_reconnect") ->
  Py.item msg "payload" = Ok p ->
  Py.item p "session" = Ok s ->
  Py.item s "reconnect_url" = Ok ru ->
  wp (_on_connected E (RawJson msg :: rest) e)
     (fun r b' _ l => r = Ok (ru, rest) /\ b' = b /\ connects l = []) b w.
Proof.
  intros Hm Hp Hs Hu. cbn [_on_connected]. wp_steps.
  rewrite Hm. wp_steps. cbn [Py.eq_str String.eqb Ascii.eqb Bool.eqb].
  cbv beta iota. wp_steps. rewrite Hp. wp_steps. rewrite Hs. wp_steps.
  rewrite Hu. wp_steps. auto.
Qed.

(** X9.  A reconnect request that arrives as the first frame of a
    connection, during the handshake, is followed: whatever the rest of
    that connection brings, if it is closed (and not interrupted or
    silent), the next connection attempt goes to the URL of the request. *)
Theorem handshake_reconnect_followed E c c' script url msg p s ru rest b w :
  refused c = None ->
  incoming c = RawJson msg :: rest ->
  message_type msg = Ok (JStr "session_reconnect") ->
  Py.item msg "payload" = Ok p ->
  Py.item p "session" = Ok s ->
  Py.item s "reconnect_url" = Ok ru ->
  ending c <> Interrupt -> ending c <> Silent ->
  exists tail,
    connects (log (run_loop E (c :: c' :: script) (JStr url) b w))
    = JStr url :: ru :: tail.
Proof.
  intros Hc Hin Hm Hp Hs Hu He Hsil.
  assert (H : wp (run_loop E (c :: c' :: script) (JStr url))
                 (fun _ _ _ l => exists tail, connects l = JStr url :: ru :: tail) b w).
  { assert (Hnext : forall b2 w2,
               wp (run_loop E (c' :: script) ru)
                  (fun _ _ _ l => exists tail, connects l = ru :: tail) b2 w2).
    { intros b2 w2. unfold wp.
      pose proof (run_loop_first_connect E c' script ru b2 w2) as Hf.
      destruct (run_loop E (c' :: script) ru b2 w2). exact Hf. }
    remember (c' :: script) as sc eqn:Hsc.
    cbn [run_loop]. unfold session at 1, websockets_connect. wp_steps.
    rewrite Hc. wp_steps. rewrite Hin.
    refine (wp_mono _ _ _ _ _
              (on_connected_reconnect E msg p s ru rest (ending c) b _ Hm Hp Hs Hu) _).
    cbv beta. intros r b1 w1 l1 (-> & -> & Hl1). wp_steps.
    refine (wp_mono _ _ _ _ _
              (steady_receive_loop E rest (ending c) He Hsil b w1 [] eq_refl) _).
    cbv beta. intros r b2 w2 l2 H2. cbn [app] in H2.
    assert (Hl2 : connects l2 = []).
    { destruct r as [[]|e|]; unfold no_connect, no_connect_exn, never in H2;
        [exact H2|exact (proj1 H2)|contradiction]. }
    destruct r as [[]|e|]; [| |contradiction]; wp_steps; cbn [fst snd];
      [|destruct H2 as [_ Hk]; destruct e; try contradiction; wp_steps];
      (refine (wp_mono _ _ _ _ _ (Hnext _ _) _); cbv beta;
       intros _ _ _ l [tail Hl]; exists tail;
       rewrite !connects_app, Hl1, Hl2, Hl; reflexivity). }
  apply wp_out in H. exact H.
Qed.

(** *** Start-up *)

Lemma print_broadcasters_ok ids : forall b w,
  wp (print_broadcasters ids) (fun r b' w' _ => r = Ok tt /\ b' = b /\ w' = w) b w.
Proof.
  induction ids as [|[login uid] ids IH]; intros b w; cbn [print_broadcasters];
    wp_steps; [auto|].
  refine (wp_mono _ _ _ _ _ (IH b w) _). cbv beta. auto.
Qed.

(** X10.  As long as no connection is interrupted from the keyboard, an
    exception escapes [run] only from one of the two start-up lookups,
    and then before anything is printed, requested or connected: once
    the lookups are done, [run] does not raise. *)
Theorem run_raises_only_at_startup E script b w e :
  Forall uninterrupted script ->
  res (run E script b w) = Raise e ->
  (get_user_id E (bot_login (cfg b)) = Raise e
   \/ get_user_ids E (broadcaster_logins (cfg b)) = Raise e)
  /\ log (run E script b w) = [].
Proof.
  intros _.
  assert (H : wp (run E script)
                 (fun r _ _ l =>
                    forall e, r = Raise e ->
                      (get_user_id E (bot_login (cfg b)) = Raise e
                       \/ get_user_ids E (broadcaster_logins (cfg b)) = Raise e)
                      /\ l = []) b w).
  { unfold run, set_bot_user_id, set_broadcaster_ids, set_id_to_login. wp_steps.
    destruct (get_user_id E (bot_login (cfg b))) as [uid|e1|]; wp_steps;
      [|intros e0 [= ->]; auto|discriminate].
    destruct (get_user_ids E (broadcaster_logins (cfg b))) as [ids|e2|]; wp_steps;
      [|intros e0 [= ->]; auto|discriminate].
    refine (wp_mono _ _ _ _ _ (print_broadcasters_ok ids _ _) _). cbv beta.
    intros r b' w' l (-> & _ & _).
    refine (wp_mono _ _ _ _ _ (outcome_run_loop E script _ _ _) _).
    cbv beta. intros r3 b3 w3 l3 ([x ->] & _) e0 He0. discriminate He0. }
  apply wp_out in H. intros He. apply (H e He).
Qed.

(** *** Where replies go *)

Lemma chat_requests_app (l1 l2 : list event) :
  chat_requests (l1 ++ l2) = (chat_requests l1 ++ chat_requests l2)%list.
Proof.
  induction l1 as [|e l1 IH]; [reflexivity|].
  destruct e as [| | |[]| | |]; cbn [app chat_requests]; rewrite ?IH; reflexivity.
Qed.

Lemma chat_requests_prizes (ps : list string) :
  chat_requests (map GeneratePrize ps) = [].
Proof. induction ps as [|p ps IH]; [reflexivity|exact IH]. Qed.

Lemma reply_addressed E msg rt bid b w :
  wp (_reply E msg rt bid)
     (fun _ b' _ l =>
        bot_user_id b' = bot_user_id b
        /\ Forall (addressed b bid rt) (chat_requests l)) b w.
Proof.
  assert (Hpre : chat_requests (fst (reply_wait E b w)) = [])
    by (destruct (reply_wait_log E b w) as [->|[d ->]]; reflexivity).
  destruct (ready b) eqn:Hr.
  - unfold ready in Hr. destruct (bot_user_id b) as [id|] eqn:Hid; [|discriminate].
    apply (wp_reply E msg rt bid _ b w id Hid Hr). cbv zeta.
    assert (HF : Forall (addressed b bid rt)
                   (chat_requests
                      (fst (reply_wait E b w) ++
                       [Post (chat_messages bid id msg (reply_parent rt))
                          (http E (tick (snd (reply_wait E b w))))
                          (clock (advance E (snd (reply_wait E b w))))]))).
    { rewrite chat_requests_app, Hpre. cbn [app chat_requests].
      constructor; [|constructor]. unfold addressed. cbn [fst snd]. auto. }
    destruct (chat_result _); (split; [cbn; congruence|exact HF]).
  - apply wp_reply_unready; [exact Hr|]. rewrite Hpre. split; [reflexivity|constructor].
Qed.

Lemma commands_addressed E text rt bid ch b w :
  wp (_commands E text rt bid ch)
     (fun _ _ _ l => Forall (addressed b bid rt) (chat_requests l)) b w.
Proof.
  unfold _commands; cbv zeta;
  repeat lazymatch goal with
    | |- wp (if ?c then _ else _) _ _ _ => destruct c
    | |- wp (_reply ?E ?m ?rt ?bid) _ ?b ?w =>
        refine (wp_mono _ _ _ _ _ (reply_addressed E m rt bid b w) _); cbv beta
    | |- wp (set_lights_passthrough _ _) _ _ _ =>
        apply wp_set_lights_passthrough; cbv beta iota
    | |- wp (set_last_lights _) _ _ _ => unfold set_last_lights
    | |- wp (prizes_ _ _) _ _ _ => apply wp_prizes; cbv beta iota
    | |- wp _ _ _ _ => wp_step
    end;
  try (intros r b' w' l [_ HF]);
  rewrite ?chat_requests_app, ?chat_requests_prizes; cbn [app chat_requests];
  try exact HF; constructor.
Qed.


(** X11.  Every chat message posted while a notification is handled goes
    to the channel the notification names as [broadcaster_user_id], is
    sent in the bot's own name, and is threaded as a reply to the
    notification's [message_id] (to no message when that id is missing or
    empty). *)
Theorem replies_addressed E payload b w a :
  In a (chat_requests (log (_handle_notification E payload b w))) ->
  exists event mid,
    Py.get payload "event" (JObj []) = Ok event
    /\ Py.get event "broadcaster_user_id" JNull = Ok (fst (fst a))
    /\ Py.get event "message_id" JNull = Ok mid
    /\ snd a = reply_parent mid
    /\ bot_user_id b = Some (snd (fst a)).
Proof.
  assert (H : wp (_handle_notification E payload)
                 (fun _ _ _ l =>
                    Forall (fun a =>
                              exists event mid,
                                Py.get payload "event" (JObj []) = Ok event
                                /\ Py.get event "broadcaster_user_id" JNull
                                   = Ok (fst (fst a))
                                /\ Py.get event "message_id" JNull = Ok mid
                                /\ snd a = reply_parent mid
                                /\ bot_user_id b = Some (snd (fst a)))
                           (chat_requests l)) b w).
  { unfold _handle_notification, text_arg, chatter_arg.
    repeat lazymatch goal with
      | |- wp (bind (lift ?r) _) _ _ _ =>
          let Hr := fresh "Hr" in
          apply wp_bind, wp_lift; destruct r eqn:Hr; cbv beta iota
      | |- wp (lift ?r) _ _ _ =>
          let Hr := fresh "Hr" in
          apply wp_lift; destruct r eqn:Hr; cbv beta iota
      | |- wp (if ?c then _ else _) _ _ _ => destruct c
      | |- wp (match ?j with JNull => _ | _ => _ end) _ _ _ => destruct j
      | |- wp (_commands ?E ?t ?rt ?bid ?ch) _ ?b ?w =>
          refine (wp_mono _ _ _ _ _ (commands_addressed E t rt bid ch b w) _);
          cbv beta
      | |- wp _ _ _ _ => wp_step
      end;
    try (intros r b' w' l HF);
    rewrite ?chat_requests_app; cbn [app chat_requests]; try constructor.
    all: eapply Forall_impl; [|exact HF]; cbv beta;
      intros [[bd sender] rp] (H1 & H2 & H3); cbn [fst snd] in *; subst;
      eexists; eexists; repeat split; eauto. }
  apply wp_out in H. intros Hin.
  exact (proj1 (Forall_forall _ _) H a Hin).
Qed.

(** *** Frames that are not chat messages *)

Lemma requests_app (l1 l2 : list event) :
  requests (l1 ++ l2) = (requests l1 ++ requests l2)%list.
Proof.
  induction l1 as [|e l1 IH]; [reflexivity|].
  destruct e; cbn [app requests]; rewrite ?IH; reflexivity.
Qed.

Lemma handle_message_quiet E raw b w :
  chat_notification raw = false ->
  wp (_handle_message E raw)
     (fun _ b' _ l => b' = b /\ requests l = [] /\ phrases l = []) b w.
Proof.
  unfold chat_notification, _handle_message, _handle_notification.
  destruct raw as [msg|r]; [|intros _; wp_steps; auto].
  intros H. apply wp_bind, wp_lift.
  destruct (message_type msg) as [mtype|e|]; cbv beta iota; [|auto..].
  destruct (Py.eq_str mtype "session_keepalive"); [wp_steps; auto|].
  destruct (Py.eq_str mtype "session_reconnect"); [wp_steps; auto|].
  destruct (Py.eq_str mtype "notification"); cbn [andb] in H.
  - apply wp_bind, wp_lift.
    destruct (Py.get msg "payload" (JObj [])) as [payload|e|]; cbv beta iota; [|auto..].
    apply wp_bind, wp_lift.
    destruct (Py.get payload "subscription" (JObj [])) as [sub|e|];
      cbv beta iota; [|auto..].
    apply wp_bind, wp_lift.
    destruct (Py.get sub "type" JNull) as [typ|e|]; cbv beta iota; [|auto..].
    apply wp_bind, wp_lift.
    destruct (Py.get payload "event" (JObj [])) as [event|e|]; cbv beta iota; [|auto..].
    rewrite H. wp_steps. auto.
  - destruct (Py.eq_str mtype "revocation"); wp_steps; auto.
Qed.

Lemma receive_loop_quiet E e frames : forall b w,
  Forall (fun raw => chat_notification raw = false) frames ->
  wp (receive_loop E frames e)
     (fun _ b' _ l => b' = b /\ requests l = [] /\ phrases l = []) b w.
Proof.
  induction frames as [|raw frames IH]; intros b w Hall; cbn [receive_loop].
  - destruct e; cbn [receive_end]; wp_steps; auto.
  - inversion Hall as [|? ? Hraw Hrest]; subst. wp_steps.
    refine (wp_mono _ _ _ _ _ (handle_message_quiet E raw b _ Hraw) _). cbv beta.
    intros [[]|e0|] b1 w1 l1 (-> & Hq & Hp); cbn [app]; [|auto..].
    refine (wp_mono _ _ _ _ _ (IH b w1 Hrest) _). cbv beta.
    intros r b2 w2 l2 (-> & Hq2 & Hp2).
    rewrite requests_app, phrases_app, Hq, Hq2, Hp, Hp2. auto.
Qed.

(** X12.  Only chat-message notifications make the bot act: while the
    frames read are anything else (keepalives, reconnect hints,
    revocations, notifications of other event types, frames of unknown
    type, text that is not JSON, JSON that is no object), the receive loop
    makes no request, generates no prize and leaves the bot's state as it
    was. *)
Theorem only_chat_messages_act E e frames b w :
  Forall (fun raw => chat_notification raw = false) frames ->
  let o := receive_loop E frames e b w in
  requests (log o) = [] /\ phrases (log o) = [] /\ self_ o = b.
Proof.
  intros Hall. cbv zeta.
  pose proof (receive_loop_quiet E e frames b w Hall) as H.
  apply wp_out in H. tauto.
Qed.

(** *** Configuration *)

Lemma isspace_lower_char (c : ascii) :
  PyStr.isspace (PyStr.lower_char c) = PyStr.isspace c.
Proof. destruct c as [[] [] [] [] [] [] [] []]; reflexivity. Qed.

Lemma lower_char_idem (c : ascii) :
  PyStr.lower_char (PyStr.lower_char c) = PyStr.lower_char c.
Proof. destruct c as [[] [] [] [] [] [] [] []]; reflexivity. Qed.

Lemma lower_idem (s : string) : PyStr.lower (PyStr.lower s) = PyStr.lower s.
Proof.
  induction s as [|c s IH]; [reflexivity|].
  cbn [PyStr.lower]. now rewrite lower_char_idem, IH.
Qed.

Lemma nonempty_lower (s : string) :
  PyStr.nonempty (PyStr.lower s) = PyStr.nonempty s.
Proof. destruct s; reflexivity. Qed.

Lemma lstrip_lower (s : string) :
  PyStr.lstrip (PyStr.lower s) = PyStr.lower (PyStr.lstrip s).
Proof.
  induction s as [|c s IH]; [reflexivity|].
  cbn [PyStr.lower PyStr.lstrip]. rewrite isspace_lower_char.
  destruct (PyStr.isspace c); [exact IH|reflexivity].
Qed.

Lemma rstrip_lower (s : string) :
  PyStr.rstrip (PyStr.lower s) = PyStr.lower (PyStr.rstrip s).
Proof.
  induction s as [|c s IH]; [reflexivity|].
  cbn [PyStr.lower PyStr.rstrip]. rewrite IH, isspace_lower_char.
  destruct (PyStr.rstrip s); cbn [PyStr.lower]; [|reflexivity].
  destruct (PyStr.isspace c); reflexivity.
Qed.

Lemma strip_lower (s : string) :
  PyStr.strip (PyStr.lower s) = PyStr.lower (PyStr.strip s).
Proof. unfold PyStr.strip. now rewrite lstrip_lower, rstrip_lower. Qed.

Lemma rstrip_idem (s : string) : PyStr.rstrip (PyStr.rstrip s) = PyStr.rstrip s.
Proof.
  induction s as [|c s IH]; [reflexivity|].
  cbn [PyStr.rstrip]. destruct (PyStr.rstrip s) as [|c' r'] eqn:Hr.
  - destruct (PyStr.isspace c) eqn:Hc; [reflexivity|].
    cbn [PyStr.rstrip]. now rewrite Hc.
  - cbn [PyStr.rstrip] in IH |- *.
    change (PyStr.rstrip (String c (String c' r')))
      with (match PyStr.rstrip (String c' r') with
            | EmptyString =>
                if PyStr.isspace c then EmptyString else String c EmptyString
            | r'' => String c r''
            end).
    now rewrite IH.
Qed.

Lemma lstrip_no_leading (s : string) : no_leading_space (PyStr.lstrip s).
Proof.
  induction s as [|c s IH]; [exact I|].
  cbn [PyStr.lstrip]. destruct (PyStr.isspace c) eqn:Hc; [exact IH|exact Hc].
Qed.

Lemma rstrip_no_leading (s : string) :
  no_leading_space s -> no_leading_space (PyStr.rstrip s).
Proof.
  destruct s as [|c s]; [auto|]. cbn [no_leading_space PyStr.rstrip]. intros Hc.
  destruct (PyStr.rstrip s); [rewrite Hc|]; exact Hc.
Qed.

Lemma lstrip_keep (s : string) : no_leading_space s -> PyStr.lstrip s = s.
Proof.
  destruct s as [|c s]; [reflexivity|]. cbn [no_leading_space PyStr.lstrip].
  now intros ->.
Qed.

Lemma strip_idem (s : string) : PyStr.strip (PyStr.strip s) = PyStr.strip s.
Proof.
  unfold PyStr.strip.
  rewrite (lstrip_keep (PyStr.rstrip (PyStr.lstrip s))).
  - apply rstrip_idem.
  - apply rstrip_no_leading, lstrip_no_leading.
Qed.

Lemma trimmed_strip (s : string) :
  PyStr.nonempty (PyStr.strip s) = true -> trimmed (PyStr.strip s).
Proof. intros H. split; [exact H|apply strip_idem]. Qed.

Lemma trimmed_lower_strip (s : string) :
  PyStr.nonempty (PyStr.strip s) = true -> trimmed (PyStr.lower (PyStr.strip s)).
Proof.
  intros H. split; [now rewrite nonempty_lower|].
  now rewrite strip_lower, strip_idem.
Qed.

(** X13.  A configuration read from the environment is complete and
    normalised: the client id and the token are not empty and carry no
    surrounding whitespace, the bot's login and every broadcaster login
    are, in addition, in lower case, and there is at least one
    broadcaster. *)
Theorem cfg_from_env_normalised environ c :
  cfg_from_env environ = Some c ->
  trimmed (client_id c) /\ trimmed (user_token c)
  /\ trimmed (bot_login c) /\ PyStr.lower (bot_login c) = bot_login c
  /\ broadcaster_logins c <> []
  /\ Forall (fun l => trimmed l /\ PyStr.lower l = l) (broadcaster_logins c).
Proof.
  unfold cfg_from_env.
  set (cid := PyStr.strip (os_getenv environ "TWITCH_CLIENT_ID" "")).
  set (tok := PyStr.strip (os_getenv environ "BOT_USER_ACCESS_TOKEN" "")).
  set (bl := os_getenv environ "BOT_LOGIN" "").
  set (pieces := split_on "," _).
  destruct (PyStr.nonempty cid) eqn:Hcid; [|discriminate].
  destruct (PyStr.nonempty tok) eqn:Htok; [|discriminate].
  destruct (PyStr.nonempty (PyStr.lower (PyStr.strip bl))) eqn:Hbl; [|discriminate].
  cbn [andb]. rewrite nonempty_lower in Hbl.
  destruct (map _ (filter _ pieces)) as [|l ls] eqn:Hls; [discriminate|].
  cbn [negb]. intros [= <-]. cbn [client_id user_token bot_login broadcaster_logins].
  split; [exact (trimmed_strip _ Hcid)|].
  split; [exact (trimmed_strip _ Htok)|].
  split; [exact (trimmed_lower_strip _ Hbl)|].
  split; [apply lower_idem|].
  split; [discriminate|].
  rewrite <- Hls. apply Forall_forall. intros x Hx.
  apply in_map_iff in Hx. destruct Hx as (s & <- & Hs).
  apply filter_In in Hs. destruct Hs as [_ Hs].
  split; [exact (trimmed_lower_strip _ Hs)|apply lower_idem].
Qed.

(** *** The user lookups *)

Lemma dict_set_assoc {V : Type} (k : string) (v : V) d :
  Py.assoc k (Helix.dict_set k v d) = Some v.
Proof.
  induction d as [|[k' v'] d IH]; cbn [Helix.dict_set Py.assoc].
  - now rewrite String.eqb_refl.
  - destruct (String.eqb k k') eqn:Hk; cbn [Py.assoc].
    + now rewrite String.eqb_refl.
    + now rewrite Hk.
Qed.

Lemma dict_set_keys {V : Type} (P : string -> Prop) (k : string) (v : V) d :
  P k -> Forall (fun kv => P (fst kv)) d ->
  Forall (fun kv => P (fst kv)) (Helix.dict_set k v d).
Proof.
  intros Hk. induction d as [|[k' v'] d IH]; intros Hd; cbn [Helix.dict_set].
  - constructor; [exact Hk|constructor].
  - inversion Hd as [|? ? H1 H2]; subst.
    destruct (String.eqb k k'); constructor; auto.
Qed.

Lemma add_rows_keys rows : forall out out',
  Helix.add_rows rows out = Ok out' ->
  Forall (fun kv => PyStr.lower (fst kv) = fst kv) out ->
  Forall (fun kv => PyStr.lower (fst kv) = fst kv) out'.
Proof.
  induction rows as [|row rows IH]; intros out out'; cbn [Helix.add_rows].
  - now intros [= ->].
  - destruct (Py.item row "id") as [id|e|]; try discriminate.
    destruct (Py.item row "login") as [[| | |login| |]|e|]; try discriminate.
    intros H Hout. apply (IH _ _ H).
    apply (dict_set_keys (fun k => PyStr.lower k = k)); [apply lower_idem|exact Hout].
Qed.

Lemma fetch_keys get cs : forall out out',
  snd (Helix.fetch get cs out) = Ok out' ->
  Forall (fun kv => PyStr.lower (fst kv) = fst kv) out ->
  Forall (fun kv => PyStr.lower (fst kv) = fst kv) out'.
Proof.
  induction cs as [|params cs IH]; intros out out'; cbn [Helix.fetch].
  - cbn [snd]. now intros [= ->].
  - destruct (Helix.users_data (get params)) as [data|e|]; try discriminate.
    destruct (Py.iter data) as [rows|e|]; try discriminate.
    destruct (Helix.add_rows rows out) as [out1|e|] eqn:Hrows; try discriminate.
    cbn [snd]. intros H Hout. apply (IH _ _ H). exact (add_rows_keys _ _ _ Hrows Hout).
Qed.

(** X14.  When [get_user_ids] returns, every login asked for has an id in
    the result, under its lower-case form, and every key of the result is
    in lower case. *)
Theorem get_user_ids_complete get logins out :
  snd (Helix.get_user_ids get logins) = Ok out ->
  (forall l, In l logins -> exists id, Py.assoc (PyStr.lower l) out = Some id)
  /\ Forall (fun kv => PyStr.lower (fst kv) = fst kv) out.
Proof.
  unfold Helix.get_user_ids. cbn [snd].
  destruct (snd (Helix.fetch get (Helix.chunks logins) [])) as [out0|e|] eqn:Hf;
    try discriminate.
  destruct (filter _ logins) as [|m ms] eqn:Hm; [|discriminate].
  intros [= <-]. split.
  - intros l Hl.
    destruct (Helix.dict_mem (PyStr.lower l) out0) eqn:Hmem.
    + unfold Helix.dict_mem in Hmem.
      destruct (Py.assoc (PyStr.lower l) out0) as [id|]; [eauto|discriminate].
    + assert (Hin : In l (filter (fun l0 => negb (Helix.dict_mem (PyStr.lower l0) out0))
                            logins))
        by (apply filter_In; split; [exact Hl|now rewrite Hmem]).
      rewrite Hm in Hin. destruct Hin.
  - exact (fetch_keys _ _ _ _ Hf (Forall_nil _)).
Qed.

(** *** The requests of [get_user_ids] *)

Lemma chunks_concat_gen {A : Type} (step : nat) : forall m (l : list A),
  (List.length l <= m * step)%nat ->
  List.concat (map (fun i => Helix.slice i (i + step) l)
            (map (fun k => (k * step)%nat) (seq 0 m))) = l.
Proof.
  induction m as [|m IH]; intros l Hl.
  - destruct l; [reflexivity|cbn in Hl; lia].
  - cbn [seq map List.concat]. rewrite <- seq_shift, !map_map.
    unfold Helix.slice at 1. cbn [Nat.mul Nat.add skipn].
    rewrite Nat.sub_0_r.
    transitivity (firstn step l ++ skipn step l)%list; [|apply firstn_skipn].
    f_equal.
    rewrite <- (IH (skipn step l)) at 1
      by (rewrite length_skipn; cbn [Nat.mul] in Hl; lia).
    rewrite map_map. f_equal. apply map_ext. intros k. unfold Helix.slice.
    rewrite skipn_skipn. f_equal; [lia|]. f_equal. lia.
Qed.

Lemma ceil_div_bound (n step : nat) :
  (0 < step)%nat -> (n <= (n + step - 1) / step * step)%nat.
Proof.
  intros Hs. pose proof (Nat.div_mod_eq (n + step - 1) step) as H.
  pose proof (Nat.mod_upper_bound (n + step - 1) step ltac:(lia)) as H1.
  lia.
Qed.

Lemma ceil_div_last (n step k : nat) :
  (0 < step)%nat -> (k < (n + step - 1) / step)%nat -> (k * step < n)%nat.
Proof.
  intros Hs Hk. pose proof (Nat.div_mod_eq (n + step - 1) step) as H.
  assert (H1 : (S k * step <= (n + step - 1) / step * step)%nat)
    by (apply Nat.mul_le_mono_r; lia).
  cbn [Nat.mul] in H1. lia.
Qed.

Lemma chunks_concat (logins : list string) : List.concat (Helix.chunks logins) = logins.
Proof.
  unfold Helix.chunks, Helix.range_step. apply chunks_concat_gen.
  apply ceil_div_bound. unfold Helix.chunk. lia.
Qed.

Lemma chunks_sizes (logins : list string) :
  Forall (fun params => (1 <= List.length params <= 100)%nat) (Helix.chunks logins).
Proof.
  unfold Helix.chunks, Helix.range_step. rewrite map_map. apply Forall_forall.
  intros params Hin. apply in_map_iff in Hin. destruct Hin as (k & <- & Hk).
  apply in_seq in Hk.
  assert (Hlt : (k * Helix.chunk < List.length logins)%nat)
    by (apply ceil_div_last; [unfold Helix.chunk; lia|lia]).
  unfold Helix.slice. rewrite length_firstn, length_skipn.
  unfold Helix.chunk in *. lia.
Qed.

Lemma fetch_prefix get cs : forall out,
  exists rest, (fst (Helix.fetch get cs out) ++ rest)%list = cs.
Proof.
  induction cs as [|params cs IH]; intros out; cbn [Helix.fetch].
  - exists []. reflexivity.
  - destruct (Helix.users_data (get params)) as [data|e|];
      try (exists cs; reflexivity).
    destruct (Py.iter data) as [rows|e|]; try (exists cs; reflexivity).
    destruct (Helix.add_rows rows out) as [out1|e|]; try (exists cs; reflexivity).
    destruct (IH out1) as [rest Hrest]. exists rest. cbn [fst app]. now rewrite Hrest.
Qed.

Lemma fetch_all get cs : forall out out',
  snd (Helix.fetch get cs out) = Ok out' -> fst (Helix.fetch get cs out) = cs.
Proof.
  induction cs as [|params cs IH]; intros out out'; cbn [Helix.fetch].
  - reflexivity.
  - destruct (Helix.users_data (get params)) as [data|e|]; try discriminate.
    destruct (Py.iter data) as [rows|e|]; try discriminate.
    destruct (Helix.add_rows rows out) as [out1|e|]; try discriminate.
    cbn [fst snd]. intros H. now rewrite (IH _ _ H).
Qed.

(** X15.  [get_user_ids] asks for the logins in order, in requests of at
    least one and at most a hundred logins each: what it has asked for is
    always a beginning of the list of logins, cut into such pieces, and
    all of the list when it returns. *)
Theorem get_user_ids_requests get logins :
  let asked := fst (Helix.get_user_ids get logins) in
  (exists rest, (List.concat asked ++ rest)%list = logins)
  /\ Forall (fun params => (1 <= List.length params <= 100)%nat) asked
  /\ (forall out, snd (Helix.get_user_ids get logins) = Ok out ->
                  List.concat asked = logins).
Proof.
  cbv zeta. unfold Helix.get_user_ids. cbn [fst snd].
  destruct (fetch_prefix get (Helix.chunks logins) []) as [rest Hrest].
  pose proof (chunks_concat logins) as Hc.
  pose proof (chunks_sizes logins) as Hs.
  split; [|split].
  - exists (List.concat rest). rewrite <- concat_app, Hrest. exact Hc.
  - rewrite <- Hrest in Hs. apply Forall_app in Hs. exact (proj1 Hs).
  - intros out.
    destruct (snd (Helix.fetch get (Helix.chunks logins) [])) as [out0|e|] eqn:Hf;
      try discriminate.
    intros _. rewrite (fetch_all _ _ _ _ Hf). exact Hc.
Qed.

(** *** How long a reply waits *)

Lemma sleeps_app (l1 l2 : list event) :
  sleeps (l1 ++ l2) = (sleeps l1 ++ sleeps l2)%list.
Proof.
  induction l1 as [|e l1 IH]; [reflexivity|].
  destruct e; cbn [app sleeps]; rewrite ?IH; reflexivity.
Qed.

Lemma sleeps_prizes (ps : list string) : sleeps (map GeneratePrize ps) = [].
Proof. induction ps as [|p ps IH]; [reflexivity|exact IH]. Qed.

Lemma clock_advance_n E n : forall w,
  (forall k, 0 <= elapse E k) -> clock w <= clock (advance_n E n w).
Proof.
  induction n as [|n IH]; intros w HE; cbn [advance_n]; [lra|].
  specialize (IH (advance E w) HE). cbn [advance clock] in IH.
  specialize (HE (tick w)). lra.
Qed.

Lemma reply_wait_short E b w :
  0 <= elapse E (tick w) -> _last_send b <= clock w ->
  short_wait b (fst (reply_wait E b w)).
Proof.
  intros HE Hl. unfold reply_wait, short_wait. cbn [advance clock tick].
  destruct (Qlt_le_dec (clock w + elapse E (tick w) - _last_send b) (_send_interval b))
    as [Hlt|Hge]; cbn [fst sleeps]; [right|now left].
  eexists. split; [reflexivity|]. split; lra.
Qed.

Lemma reply_short E msg rt bid b w :
  0 <= elapse E (tick w) -> _last_send b <= clock w ->
  wp (_reply E msg rt bid) (fun _ _ _ l => short_wait b l) b w.
Proof.
  intros HE Hl. pose proof (reply_wait_short E b w HE Hl) as Hw.
  destruct (ready b) eqn:Hr.
  - unfold ready in Hr. destruct (bot_user_id b) as [id|] eqn:Hid; [|discriminate].
    apply (wp_reply E msg rt bid _ b w id Hid Hr). cbv zeta.
    assert (H : short_wait b
                  (fst (reply_wait E b w) ++
                   [Post (chat_messages bid id msg (reply_parent rt))
                      (http E (tick (snd (reply_wait E b w))))
                      (clock (advance E (snd (reply_wait E b w))))])).
    { unfold short_wait in *. rewrite sleeps_app. cbn [sleeps]. now rewrite app_nil_r. }
    destruct (chat_result _); exact H.
  - apply wp_reply_unready; [exact Hr|exact Hw].
Qed.

(** X16.  The send limiter delays a command by at most the send interval:
    with a clock that does not run backwards and has reached the last
    send, handling a chat text waits at most once, for a positive time no
    longer than [_send_interval]. *)
Theorem commands_wait_bounded E text rt bid ch b w :
  (forall n, 0 <= elapse E n) -> _last_send b <= clock w ->
  short_wait b (log (_commands E text rt bid ch b w)).
Proof.
  intros HE Hl.
  apply (wp_out (_commands E text rt bid ch) (fun _ _ _ l => short_wait b l)).
  unfold _commands; cbv zeta;
  repeat lazymatch goal with
    | |- wp (if ?c then _ else _) _ _ _ => destruct c
    | |- wp (_reply ?E ?m ?rt ?bid) _ ?b ?w =>
        refine (wp_mono _ _ _ _ _ (reply_short E m rt bid b w (HE _) _) _); cbv beta
    | |- wp (set_lights_passthrough _ _) _ _ _ =>
        apply wp_set_lights_passthrough; cbv beta iota
    | |- wp (set_last_lights _) _ _ _ => unfold set_last_lights
    | |- wp (prizes_ _ _) _ _ _ => apply wp_prizes; cbv beta iota
    | |- wp _ _ _ _ => wp_step
    end.
  all: try (left; reflexivity).
  all: try (intros r b' w' l HF; unfold short_wait in *;
            rewrite ?sleeps_app, ?sleeps_prizes; cbn [app sleeps]; exact HF).
  all: cbn [_last_send advance clock tick];
    try (pose proof (HE (tick w)); pose proof (HE (S (tick w))); lra).
  pose proof (clock_advance_n E (Z.to_nat
     (clamp (snd (prize_args
        (PyStr.split (PyStr.strip match text with Some s => s | None => "" end))
        match ch with
        | Some c => if PyStr.nonempty c then c else "someone"
        | None => "someone"
        end)))) w HE). lra.
Qed.

(** *** More instances *)

Lemma commands_one_reply_witness :
  ascii_text (Some " !Hello ") = true
  /\ (String.length " !Hello " <= 4300)%nat
  /\ ready sample_bot = true
  /\ List.length (sent (log (_commands calm (Some " !Hello ") JNull (JStr "7") None
                               sample_bot sample_world))) = 1%nat.
Proof.
  assert (Hlen : (String.length " !Hello " <= 4300)%nat) by (cbn; lia).
  split; [reflexivity|]. split; [exact Hlen|]. split; [reflexivity|].
  exact (commands_one_reply calm (Some " !Hello ") JNull (JStr "7") None
           sample_bot sample_world eq_refl Hlen eq_refl).
Defined.

Lemma passthrough_only_from_lights_witness :
  ascii_text (Some "!lights") = true
  /\ ready sample_bot = true
  /\ PyStr.startswith (PyStr.lower (PyStr.strip "!lights")) "!lights"
       && PyStr.nonempty (PyStr.strip (PyStr.drop 7 (PyStr.strip "!lights"))) = false
  /\ sent (log (_commands calm (Some "!lights") JNull (JStr "7") None
                  sample_bot sample_world))
     = ["Usage: !lights <colour name or #hex>"].
Proof.
  split; [reflexivity|]. split; [reflexivity|]. split; [reflexivity|].
  exact (proj2 (proj2 (passthrough_only_from_lights calm (Some "!lights") JNull
                         (JStr "7") None sample_bot sample_world
                         eq_refl eq_refl eq_refl))
           eq_refl).
Defined.

Lemma cooldown_message_minutes_seconds_witness :
  0 < 125
  /\ (60 * Qfloor (125 / 60) + Qfloor (125 - 60 * inject_Z (Qfloor (125 / 60))))%Z
     = Qfloor 125.
Proof.
  assert (H : 0 < 125) by reflexivity.
  split; [exact H|].
  exact (proj1 (proj2 (proj2 (proj2 (cooldown_message_minutes_seconds 125 H))))).
Defined.

Lemma lights_second_call_witness :
  let w2 := {| clock := 1100; tick := 10 |} in
  PyStr.isascii "!lights red" = true /\ PyStr.isascii "!lights blue" = true
  /\ ready sample_bot = true
  /\ 300 - (clock (advance calm sample_world) - _last_lights sample_bot) <= 0
  /\ clock (advance calm sample_world) <= clock (advance calm w2)
  /\ clock (advance calm w2) - clock (advance calm sample_world) < 300
  /\ sent
       (log (_commands calm (Some "!lights blue") JNull (JStr "7") None
               (self_ (_commands calm (Some "!lights red") JNull (JStr "7") None
                         sample_bot sample_world)) w2))
     = ["Lights cooldown: try again in 3m 20s"].
Proof.
  cbv zeta.
  assert (H1 : 300 - (clock (advance calm sample_world) - _last_lights sample_bot) <= 0)
    by (vm_compute; discriminate).
  assert (H2 : clock (advance calm sample_world)
               <= clock (advance calm {| clock := 1100; tick := 10 |}))
    by (vm_compute; discriminate).
  assert (H3 : clock (advance calm {| clock := 1100; tick := 10 |})
               - clock (advance calm sample_world) < 300)
    by (vm_compute; reflexivity).
  split; [reflexivity|]. split; [reflexivity|].
  split; [reflexivity|]. split; [exact H1|]. split; [exact H2|]. split; [exact H3|].
  pose proof (lights_second_call calm "!lights red" "!lights blue" JNull (JStr "7") None
                sample_bot sample_world {| clock := 1100; tick := 10 |}
                eq_refl eq_refl eq_refl eq_refl eq_refl eq_refl eq_refl H1 H2) as H.
  cbv zeta in H.
  change (fst (lights_result (http calm (S (tick sample_world))))) with true in H.
  cbv iota in H. rewrite (proj2 (proj1 H H3)). vm_compute. reflexivity.
Defined.

Lemma failed_reply_not_stamped_witness :
  res (_commands unauthorized (Some "!hello") JNull (JStr "7") None
         sample_bot sample_world) <> Ok tt
  /\ _last_send (self_ (_commands unauthorized (Some "!hello") JNull (JStr "7") None
                          sample_bot sample_world))
     = _last_send sample_bot.
Proof.
  assert (H : res (_commands unauthorized (Some "!hello") JNull (JStr "7") None
                     sample_bot sample_world) <> Ok tt)
    by (vm_compute; discriminate).
  split; [exact H|].
  exact (proj1 (failed_reply_not_stamped unauthorized (Some "!hello") JNull (JStr "7")
                  None sample_bot sample_world) H).
Defined.




Lemma handshake_reconnect_followed_witness :
  let c := connection_of [reconnect_frame "wss://new.example/ws"] ClosedOK in
  let c' := connection_of [welcome_frame "s2"] ClosedOK in
  refused c = None
  /\ ending c <> Interrupt /\ ending c <> Silent
  /\ exists tail,
       connects (log (run_loop calm [c; c'] (JStr EVENTSUB_WS_URL)
                        sample_bot sample_world))
       = JStr EVENTSUB_WS_URL :: JStr "wss://new.example/ws" :: tail.
Proof.
  cbv zeta. split; [reflexivity|]. split; [discriminate|]. split; [discriminate|].
  exact (handshake_reconnect_followed calm
           (connection_of [reconnect_frame "wss://new.example/ws"] ClosedOK)
           (connection_of [welcome_frame "s2"] ClosedOK) []
           EVENTSUB_WS_URL _ _ _ _ [] sample_bot sample_world
           eq_refl eq_refl eq_refl eq_refl eq_refl eq_refl
           ltac:(discriminate) ltac:(discriminate)).
Defined.

Lemma run_raises_only_at_startup_witness :
  Forall uninterrupted chat_script
  /\ res (run no_such_bot chat_script sample_bot sample_world)
     = Raise (RuntimeError "User not found: bot")
  /\ log (run no_such_bot chat_script sample_bot sample_world) = [].
Proof.
  assert (H0 : Forall uninterrupted chat_script)
    by (repeat constructor; discriminate).
  assert (H : res (run no_such_bot chat_script sample_bot sample_world)
              = Raise (RuntimeError "User not found: bot"))
    by (vm_compute; reflexivity).
  split; [exact H0|]. split; [exact H|].
  exact (proj2 (run_raises_only_at_startup no_such_bot chat_script sample_bot
                  sample_world _ H0 H)).
Defined.

Lemma replies_addressed_witness :
  let payload := payload_of (chat_frame "!hello") in
  let a := (JStr "id_alice", "42", Some (JStr "m1")) in
  In a (chat_requests (log (_handle_notification calm payload sample_bot sample_world)))
  /\ exists event mid,
       Py.get payload "event" (JObj []) = Ok event
       /\ Py.get event "broadcaster_user_id" JNull = Ok (fst (fst a))
       /\ Py.get event "message_id" JNull = Ok mid
       /\ snd a = reply_parent mid
       /\ bot_user_id sample_bot = Some (snd (fst a)).
Proof.
  cbv zeta.
  assert (H : In (JStr "id_alice", "42", Some (JStr "m1"))
                (chat_requests
                   (log (_handle_notification calm (payload_of (chat_frame "!hello"))
                           sample_bot sample_world))))
    by (vm_compute; left; reflexivity).
  split; [exact H|].
  exact (replies_addressed calm (payload_of (chat_frame "!hello")) sample_bot
           sample_world _ H).
Defined.

Lemma only_chat_messages_act_witness :
  let frames := [RawText "oops"; envelope "session_keepalive" (JObj []);
                 reconnect_frame "wss://new.example/ws"] in
  Forall (fun raw => chat_notification raw = false) frames
  /\ requests (log (receive_loop calm frames ClosedOK sample_bot sample_world)) = [].
Proof.
  cbv zeta.
  assert (H : Forall (fun raw => chat_notification raw = false)
                [RawText "oops"; envelope "session_keepalive" (JObj []);
                 reconnect_frame "wss://new.example/ws"])
    by (repeat constructor).
  split; [exact H|].
  exact (proj1 (only_chat_messages_act calm ClosedOK _ sample_bot sample_world H)).
Defined.

Lemma cfg_from_env_normalised_witness :
  cfg_from_env sample_environ
  = Some {| client_id := "cid"; user_token := "tok"; bot_login := "bot";
            broadcaster_logins := ["alice"; "bob"] |}
  /\ Forall (fun l => trimmed l /\ PyStr.lower l = l) ["alice"; "bob"].
Proof.
  assert (H : cfg_from_env sample_environ
              = Some {| client_id := "cid"; user_token := "tok"; bot_login := "bot";
                        broadcaster_logins := ["alice"; "bob"] |})
    by (vm_compute; reflexivity).
  split; [exact H|].
  exact (proj2 (proj2 (proj2 (proj2 (proj2
           (cfg_from_env_normalised sample_environ _ H)))))).
Defined.

Lemma get_user_ids_complete_witness :
  snd (Helix.get_user_ids Helix.directory ["alice"; "Bob"])
  = Ok [("alice", JStr "id_alice"); ("bob", JStr "id_Bob")]
  /\ forall l, In l ["alice"; "Bob"] ->
       exists id, Py.assoc (PyStr.lower l)
                    [("alice", JStr "id_alice"); ("bob", JStr "id_Bob")] = Some id.
Proof.
  assert (H : snd (Helix.get_user_ids Helix.directory ["alice"; "Bob"])
              = Ok [("alice", JStr "id_alice"); ("bob", JStr "id_Bob")])
    by (vm_compute; reflexivity).
  split; [exact H|].
  exact (proj1 (get_user_ids_complete Helix.directory ["alice"; "Bob"] _ H)).
Defined.

Lemma get_user_ids_requests_witness :
  snd (Helix.get_user_ids Helix.directory ["alice"; "Bob"])
  = Ok [("alice", JStr "id_alice"); ("bob", JStr "id_Bob")]
  /\ List.concat (fst (Helix.get_user_ids Helix.directory ["alice"; "Bob"]))
     = ["alice"; "Bob"].
Proof.
  assert (H : snd (Helix.get_user_ids Helix.directory ["alice"; "Bob"])
              = Ok [("alice", JStr "id_alice"); ("bob", JStr "id_Bob")])
    by (vm_compute; reflexivity).
  split; [exact H|].
  exact (proj2 (proj2 (get_user_ids_requests Helix.directory ["alice"; "Bob"])) _ H).
Defined.

Lemma commands_wait_bounded_witness :
  (forall n, 0 <= elapse calm n)
  /\ _last_send sample_bot <= clock sample_world
  /\ short_wait sample_bot
       (log (_commands calm (Some "!hello") JNull (JStr "7") None
               sample_bot sample_world)).
Proof.
  assert (H1 : forall n, 0 <= elapse calm n) by (intros n; vm_compute; discriminate).
  assert (H2 : _last_send sample_bot <= clock sample_world)
    by (vm_compute; discriminate).
  split; [exact H1|]. split; [exact H2|].
  exact (commands_wait_bounded calm (Some "!hello") JNull (JStr "7") None
           sample_bot sample_world H1 H2).
Defined.
